(** * rl_training: hierarchical navigation, frozen policy and Perlin terrain

    A shallow embedding of
      - [rl_training/utils/frozen_policy.py],
      - [hierarchical_nav/hierarchical_nav_env.py],
      - [hierarchical_nav/mdp/observations.py] and [mdp/commands.py],
      - [assets/terrains/perlin_terrain.py],
    and of the functions around them in [mdp/rewards.py],
    [rsl_rl/train_hierarchical_nav.py] and [rl_utils.py].

    Conventions.  Tensors of floats are lists over the reals: float32
    rounding, infinities and NaN produced by arithmetic are outside the
    model.  The scalars of the terrain configuration, which decide
    shapes and resolutions, are computed in binary64 as Python computes
    them.  A tensor of shape [n, w] is a list of n rows together with
    its width w, so that an empty batch still has a width.  Python
    exceptions are values of [exn]; a method that mutates [self] is a
    computation in the state-and-exception monad [M], and the state it
    leaves behind when it raises is kept.  The simulator, the observation
    manager and the policy network are external collaborators: they are
    the variables of the sections below. *)

From Stdlib Require Import Reals Lra Lia ZArith QArith Qreals Qround Qabs.
From stdpp Require Import base option list strings gmap.

#[local] Unset Default Proof Using.
#[local] Open Scope R_scope.

(** ** Python exceptions and the state-and-exception monad *)

Inductive exn : Set :=
| RuntimeError      (* torch shape mismatch *)
| AttributeError    (* attribute of None, missing attribute *)
| IndexError
| ValueError        (* numpy broadcasting, int(nan) *)
| ZeroDivisionError
| OverflowError.    (* int(inf), float(int) out of range *)

Inductive result (A : Type) : Type :=
| Ok (a : A)
| Raise (e : exn).
Arguments Ok {A} a.
Arguments Raise {A} e.

Definition M (S A : Type) : Type := S -> S * result A.

Definition st_ret {S A} (a : A) : M S A := fun s => (s, Ok a).
Definition st_raise {S A} (e : exn) : M S A := fun s => (s, Raise e).
Definition st_bind {S A B} (c : M S A) (k : A -> M S B) : M S B :=
  fun s => match c s with
           | (s', Ok a) => k a s'
           | (s', Raise e) => (s', Raise e)
           end.
Definition st_get {S} : M S S := fun s => (s, Ok s).
Definition st_put {S} (s : S) : M S unit := fun _ => (s, Ok tt).
Definition st_lift {S A} (r : result A) : M S A := fun s => (s, r).

Notation "x <- c ;; k" := (st_bind c (fun x => k))
  (at level 100, c at next level, right associativity).
Notation "c ;;; k" := (st_bind c (fun _ => k))
  (at level 100, right associativity).

(** ** Two-dimensional tensors *)

Record Tensor2 (A : Type) : Type := mkT2 {
  t_cols : nat;               (* shape[1] *)
  t_rows : list (list A)      (* shape[0] rows *)
}.
Arguments mkT2 {A} _ _.
Arguments t_cols {A} _.
Arguments t_rows {A} _.

Definition t_nrows {A} (t : Tensor2 A) : nat := length (t_rows t).

(** Every row has the declared width. *)
Definition t_wf {A} (t : Tensor2 A) : Prop :=
  Forall (fun r => length r = t_cols t) (t_rows t).

(** [has_shape n w t]: [t.shape == (n, w)]. *)
Definition has_shape {A} (n w : nat) (t : Tensor2 A) : Prop :=
  t_nrows t = n /\ t_cols t = w /\ t_wf t.

(** Broadcasting of one dimension: sizes are equal or the source has
    size one. *)
Definition expand_dim {A} (n : nat) (l : list A) : option (list A) :=
  if decide (length l = n) then Some l
  else match l with
       | [x] => Some (replicate n x)
       | _ => None
       end.

(** A row of width one expanded to width [w]. *)
Definition expand_row {A} (w : nat) (r : list A) : list A :=
  match r with
  | [x] => replicate w x
  | _ => r
  end.

(** [broadcast_to n w src]: the rows of [src] expanded to shape [n, w],
    or [None] where torch raises "The expanded size of the tensor must
    match the existing size". *)
Definition broadcast_to {A} (n w : nat) (src : Tensor2 A)
  : option (list (list A)) :=
  if decide (t_cols src = w) then expand_dim n (t_rows src)
  else if decide (t_cols src = 1%nat) then
    match expand_dim n (t_rows src) with
    | Some rs => Some (map (expand_row w) rs)
    | None => None
    end
  else None.

(** [dst[:, :k] = src]: the first [k] columns of every row are replaced,
    the others are kept. *)
Definition setitem_cols {A} (k : nat) (dst src : Tensor2 A)
  : result (Tensor2 A) :=
  match broadcast_to (t_nrows dst) (Nat.min k (t_cols dst)) src with
  | None => Raise RuntimeError
  | Some b =>
      Ok (mkT2 (t_cols dst)
               (zip_with (fun d s => s ++ drop k d) (t_rows dst) b))
  end.

(** ** The low-level environment *)

(** What the wrappers read and write of the unwrapped ManagerBasedRLEnv:
    [scene["robot"].data.root_pos_w], [root_quat_w], the command of the
    "base_velocity" term, and the rest of the simulator. *)
Record LowEnv (Sim : Type) : Type := mkLowEnv {
  num_envs : nat;
  root_pos_w : list (R * R * R);
  root_quat_w : list (R * R * R * R);     (* (w, x, y, z) *)
  base_velocity : Tensor2 R;
  internals : Sim
}.
Arguments mkLowEnv {Sim} _ _ _ _ _.
Arguments num_envs {Sim} _.
Arguments root_pos_w {Sim} _.
Arguments root_quat_w {Sim} _.
Arguments base_velocity {Sim} _.
Arguments internals {Sim} _.

Definition set_base_velocity {Sim} (c : Tensor2 R) (e : LowEnv Sim) : LowEnv Sim :=
  mkLowEnv (num_envs e) (root_pos_w e) (root_quat_w e) c (internals e).

Definition set_internals {Sim} (s : Sim) (e : LowEnv Sim) : LowEnv Sim :=
  mkLowEnv (num_envs e) (root_pos_w e) (root_quat_w e) (base_velocity e) s.

(** The command term has the shape [num_envs, 3] of a velocity command. *)
Definition cmd_shape_ok {Sim} (e : LowEnv Sim) : Prop :=
  has_shape (num_envs e) 3 (base_velocity e).

(** ** frozen_policy.py: FrozenLocomotionPolicy *)

Section FrozenLocomotionPolicy.
Context {Sim Obs Act : Type}.

(** [env.observation_manager.compute()["policy"]]: reads the
    environment, command included, and may update the manager's own
    buffers; it does not write the command term. *)
Variable observation_manager_compute : LowEnv Sim -> Sim * Obs.

(** [self.inference_policy], run under [torch.no_grad()]. *)
Variable inference_policy : Obs -> Act.

Definition frozen_call (velocity_command : Tensor2 R) : M (LowEnv Sim) Act :=
  (* cmd_term = get_term("base_velocity"); original_cmd = command.clone() *)
  e0 <- st_get ;;
  let original_cmd := base_velocity e0 in
  (* cmd_term.command[:, :3] = velocity_command *)
  c1 <- st_lift (setitem_cols 3 (base_velocity e0) velocity_command) ;;
  st_put (set_base_velocity c1 e0) ;;;
  (* obs_dict = self.env.observation_manager.compute() *)
  e1 <- st_get ;;
  let '(s', obs) := observation_manager_compute e1 in
  st_put (set_internals s' e1) ;;;
  (* actions = self.inference_policy(obs) *)
  let actions := inference_policy obs in
  (* cmd_term.command[:, :3] = original_cmd *)
  e2 <- st_get ;;
  c2 <- st_lift (setitem_cols 3 (base_velocity e2) original_cmd) ;;
  st_put (set_base_velocity c2 e2) ;;;
  st_ret actions.

End FrozenLocomotionPolicy.

(** ** mdp/observations.py *)

(** [torch.atan2(y, x)] on the reals (signed zeros are not modelled). *)
Definition atan2 (y x : R) : R :=
  if Rlt_dec 0 x then atan (y / x)
  else if Rlt_dec x 0 then
    (if Rle_dec 0 y then atan (y / x) + PI else atan (y / x) - PI)
  else if Rlt_dec 0 y then PI / 2
  else if Rlt_dec y 0 then - (PI / 2)
  else 0.

Definition Rltb (x y : R) : bool := if Rlt_dec x y then true else false.

Definition vsub (a b : R * R) : R * R := (a.1 - b.1, a.2 - b.2).

(** [torch.norm(v, dim=1)] of one row of width two. *)
Definition norm2 (v : R * R) : R := sqrt (v.1 * v.1 + v.2 * v.2).

(** [torch.clamp(x, min=m)]. *)
Definition clamp_min (x m : R) : R := Rmax x m.

(** Yaw of a quaternion (w, x, y, z). *)
Definition quat_yaw (q : R * R * R * R) : R :=
  let '(qw, qx, qy, qz) := q in
  atan2 (2 * (qw * qz + qx * qy)) (1 - 2 * (qy * qy + qz * qz)).

(** [v / clamp(norm(v), min=1e-6)], row-wise. *)
Definition unit_or_small (v : R * R) : R * R :=
  let d := clamp_min (norm2 v) 1e-6 in (v.1 / d, v.2 / d).

(** World-frame vector [dw] expressed in a frame turned by [yaw]. *)
Definition rot_x (dw : R * R) (yaw : R) : R := dw.1 * cos yaw + dw.2 * sin yaw.
Definition rot_y (dw : R * R) (yaw : R) : R := - dw.1 * sin yaw + dw.2 * cos yaw.

(** The environment as the mdp functions see it: the low-level
    environment and the command of the "goal_position" term. *)
Record NavView (Sim : Type) : Type := mkNavView {
  nv_env : LowEnv Sim;
  goal_position_command : list (R * R)
}.
Arguments mkNavView {Sim} _ _.
Arguments nv_env {Sim} _.
Arguments goal_position_command {Sim} _.

Section Observations.
Context {Sim : Type}.

(** [asset.data.root_pos_w[:, :2]] *)
Definition robot_position_2d (env : LowEnv Sim) : list (R * R) :=
  map (fun p => (p.1.1, p.1.2)) (root_pos_w env).

(** Shape [num_envs, 1]; a column is the list of its entries. *)
Definition robot_yaw (env : LowEnv Sim) : list R :=
  map quat_yaw (root_quat_w env).

(** [env.command_manager.get_command("goal_position")[:, :2]] *)
Definition goal_position_2d (v : NavView Sim) : list (R * R) :=
  goal_position_command v.

Definition distance_to_goal (v : NavView Sim) : list R :=
  zip_with (fun g p => norm2 (vsub g p))
           (goal_position_2d v) (robot_position_2d (nv_env v)).

(** [direction_w[:, 0:1]] has shape [n, 1] while [cos_yaw] and
    [sin_yaw] have shape [n]: the products broadcast to [n, n], entry
    (i, j) pairing the direction of environment i with the yaw of
    environment j.  [torch.cat(..., dim=1)] then gives rows of width
    2n: the n x-entries followed by the n y-entries. *)
Definition direction_to_goal (v : NavView Sim) : list (list R) :=
  let robot_pos := robot_position_2d (nv_env v) in
  let goal_pos := goal_position_2d v in
  let robot_yaw_val := map quat_yaw (root_quat_w (nv_env v)) in
  let direction_w := map unit_or_small (zip_with vsub goal_pos robot_pos) in
  let direction_x :=
    map (fun dw => map (fun yaw => rot_x dw yaw) robot_yaw_val) direction_w in
  let direction_y :=
    map (fun dw => map (fun yaw => rot_y dw yaw) robot_yaw_val) direction_w in
  zip_with app direction_x direction_y.

Definition goal_reached (threshold : R) (v : NavView Sim) : list bool :=
  map (fun d => Rltb d threshold) (distance_to_goal v).

End Observations.

(** ** mdp/commands.py and the goal resampling shared with the wrapper *)

(** Postcondition of [torch.empty(n).uniform_(lo, hi)]: n draws, each
    within the bounds. *)
Definition uniform_draw (lo hi : R) (n : nat) (xs : list R) : Prop :=
  length xs = n /\ Forall (fun x => lo <= x <= hi) xs.

(** An entry of an index tensor: negative indices count from the end,
    anything else out of range raises. *)
Definition norm_index (n : nat) (i : Z) : option nat :=
  if decide (0 <= i < Z.of_nat n)%Z then Some (Z.to_nat i)
  else if decide (- Z.of_nat n <= i < 0)%Z then Some (Z.to_nat (i + Z.of_nat n))
  else None.

Definition norm_indices (n : nat) (ids : list Z) : option (list nat) :=
  mapM (norm_index n) ids.

(** [t[ids, 0] = vals] and [t[ids, 1] = vals] on a tensor of width two:
    writes are applied in order, so the last write to an index stays. *)
Definition index_put_col0 (t : list (R * R)) (ids : list nat) (vals : list R)
  : list (R * R) :=
  fold_left (fun acc iv => alter (fun p => (iv.2, p.2)) iv.1 acc) (zip ids vals) t.

Definition index_put_col1 (t : list (R * R)) (ids : list nat) (vals : list R)
  : list (R * R) :=
  fold_left (fun acc iv => alter (fun p => (p.1, iv.2)) iv.1 acc) (zip ids vals) t.

(** [t[ids, :] = rows]: what the two column writes for one index list
    amount to (see [index_put_fuse]). *)
Definition put_rows (t : list (R * R)) (l : list (nat * (R * R))) : list (R * R) :=
  fold_left (fun acc iv => alter (fun _ => iv.2) iv.1 acc) l t.

(** The body common to [HierarchicalNavEnv._resample_goals] and
    [UniformGoalPositionCommand._resample_command]; [distance] and
    [angle] are the two tensors drawn by [uniform_]. *)
Definition resample_body (pos_w : list (R * R * R)) (goals : list (R * R))
    (env_ids : list Z) (distance angle : list R) : result (list (R * R)) :=
  (* robot_pos = root_pos_w[env_ids, :2] *)
  match norm_indices (length pos_w) env_ids with
  | None => Raise IndexError
  | Some ids =>
      let robot_pos :=
        omap (fun i => (fun p => (p.1.1, p.1.2)) <$> pos_w !! i) ids in
      let goal_x :=
        zip_with Rplus (map fst robot_pos) (zip_with (fun d a => d * cos a) distance angle) in
      let goal_y :=
        zip_with Rplus (map snd robot_pos) (zip_with (fun d a => d * sin a) distance angle) in
      match norm_indices (length goals) env_ids with
      | None => Raise IndexError
      | Some gids =>
          Ok (index_put_col1 (index_put_col0 goals gids goal_x) gids goal_y)
      end
  end.

Record UniformGoalPositionCommandCfg : Type := mkGoalCfg {
  distance_range : R * R
}.

Definition default_goal_cfg : UniformGoalPositionCommandCfg :=
  mkGoalCfg (1.0, 5.0).

(** A command term, by its instance attributes: [cfg] and [_env], which
    isaaclab's [CommandTerm.__init__] sets from its arguments; [_command],
    set by this class; and the attribute [env], [None] while the object
    has no attribute of that name.  Neither this class nor [CommandTerm]
    sets it: the base class keeps the environment as [_env] only. *)
Record UniformGoalPositionCommand (Sim : Type) : Type := mkGoalCmd {
  gc_cfg : UniformGoalPositionCommandCfg;
  _env : LowEnv Sim;
  env_attribute : option (LowEnv Sim);
  _command : list (R * R)
}.
Arguments mkGoalCmd {Sim} _ _ _ _.
Arguments gc_cfg {Sim} _.
Arguments _env {Sim} _.
Arguments env_attribute {Sim} _.
Arguments _command {Sim} _.

(** [UniformGoalPositionCommand.__init__]: [super().__init__(cfg, env)],
    then [self._command = torch.zeros(self.num_envs, 2)]. *)
Definition goal_command_init {Sim} (cfg : UniformGoalPositionCommandCfg)
    (env : LowEnv Sim) : UniformGoalPositionCommand Sim :=
  mkGoalCmd cfg env None (replicate (num_envs env) (0, 0)).

(** [distance] and [angle] are the two tensors the method draws first;
    it then reads [self.env], which raises AttributeError on an object
    without that attribute. *)
Definition _resample_command {Sim} (env_ids : list Z) (distance angle : list R)
  : M (UniformGoalPositionCommand Sim) unit :=
  self <- st_get ;;
  match env_attribute self with
  | None => st_raise AttributeError      (* self.env *)
  | Some env =>
      c <- st_lift (resample_body (root_pos_w env) (_command self)
                                  env_ids distance angle) ;;
      st_put (mkGoalCmd (gc_cfg self) (_env self) (env_attribute self) c)
  end.

(** ** hierarchical_nav_env.py: HierarchicalNavEnv *)

(** A Python float read out of a tensor with [.item()]; the mean of an
    empty tensor is NaN. *)
Inductive pyfloat : Type :=
| Finite (r : R)
| NaN.

Definition sum_list (l : list R) : R := fold_right Rplus 0 l.

Definition mean (l : list R) : pyfloat :=
  match l with
  | [] => NaN
  | _ => Finite (sum_list l / INR (length l))
  end.

(** Values of the info dictionary: the floats written by the wrapper and
    whatever the low-level environment put there. *)
Inductive InfoVal (Other : Type) : Type :=
| VFloat (x : pyfloat)
| VOther (o : Other).
Arguments VFloat {Other} x.
Arguments VOther {Other} o.

(** The extras returned by the low-level environment: a dict, or some
    other object that [isinstance(info, dict)] rejects. *)
Inductive Extras (Other : Type) : Type :=
| ExtrasDict (d : gmap string (InfoVal Other))
| ExtrasOther (o : Other).
Arguments ExtrasDict {Other} d.
Arguments ExtrasOther {Other} o.

Definition as_dict {Other} (info : Extras Other) : gmap string (InfoVal Other) :=
  match info with
  | ExtrasDict d => d
  | ExtrasOther _ => ∅
  end.

(** The action argument of [step]: a tensor of one or of two dimensions. *)
Inductive ActionArg : Type :=
| Action1D (v : list R)
| Action2D (t : Tensor2 R).

Record HNav (Sim Act : Type) : Type := mkHNav {
  env : LowEnv Sim;            (* shared with the frozen policy wrapper *)
  decimation : Z;
  _prev_distance_to_goal : option (list R);    (* None or shape [n, 1] *)
  _goal_positions : list (R * R);              (* shape [n, 2] *)
  _goal_distance_range : R * R;
  low_step_log : list Act      (* ghost: the arguments of env.step so far *)
}.
Arguments mkHNav {Sim Act} _ _ _ _ _ _.
Arguments env {Sim Act} _.
Arguments decimation {Sim Act} _.
Arguments _prev_distance_to_goal {Sim Act} _.
Arguments _goal_positions {Sim Act} _.
Arguments _goal_distance_range {Sim Act} _.
Arguments low_step_log {Sim Act} _.

Record StepOut (Other : Type) : Type := mkStepOut {
  high_level_obs : list (list R);
  high_level_reward : list R;
  high_level_terminated : list bool;
  high_level_truncated : list bool;
  info_out : gmap string (InfoVal Other)
}.
Arguments mkStepOut {Other} _ _ _ _ _.
Arguments high_level_obs {Other} _.
Arguments high_level_reward {Other} _.
Arguments high_level_terminated {Other} _.
Arguments high_level_truncated {Other} _.
Arguments info_out {Other} _.

Section HierarchicalNavEnv.
Context {Sim Obs Act Other : Type}.

Variable observation_manager_compute : LowEnv Sim -> Sim * Obs.
Variable inference_policy : Obs -> Act.

(** [RslRlVecEnvWrapper.step(actions)]: the new simulator state and
    (obs, rew, dones, extras); [dones] is a tensor of integers. *)
Variable env_step :
  LowEnv Sim -> Act -> LowEnv Sim * (Obs * list R * list Z * Extras Other).

(** [RslRlVecEnvWrapper.reset()] *)
Variable env_reset : LowEnv Sim -> LowEnv Sim * (Obs * Extras Other).

Abbreviation State := (HNav Sim Act).

Definition set_env (e : LowEnv Sim) (s : State) : State :=
  mkHNav e (decimation s) (_prev_distance_to_goal s) (_goal_positions s)
         (_goal_distance_range s) (low_step_log s).

Definition set_prev (p : option (list R)) (s : State) : State :=
  mkHNav (env s) (decimation s) p (_goal_positions s)
         (_goal_distance_range s) (low_step_log s).

Definition set_goals (g : list (R * R)) (s : State) : State :=
  mkHNav (env s) (decimation s) (_prev_distance_to_goal s) g
         (_goal_distance_range s) (low_step_log s).

(** A computation on the shared low-level environment, run from the
    wrapper. *)
Definition on_env {A} (c : M (LowEnv Sim) A) : M State A :=
  fun s => let '(e', r) := c (env s) in (set_env e' s, r).

(** [self.frozen_policy_wrapper(action)] *)
Definition frozen_policy_wrapper (action : Tensor2 R) : M State Act :=
  on_env (frozen_call observation_manager_compute inference_policy action).

(** [self.env.step(low_level_actions)], recording its argument. *)
Definition low_env_step (a : Act)
  : M State (Obs * list R * list Z * Extras Other) :=
  fun s => let '(e', out) := env_step (env s) a in
           (mkHNav e' (decimation s) (_prev_distance_to_goal s)
                   (_goal_positions s) (_goal_distance_range s)
                   (low_step_log s ++ [a]),
            Ok out).

Definition _resample_goals (env_ids : list Z) (distance angle : list R)
  : M State unit :=
  self <- st_get ;;
  g <- st_lift (resample_body (root_pos_w (env self)) (_goal_positions self)
                              env_ids distance angle) ;;
  st_put (set_goals g self).

(** Distances from robot to stored goal, one per environment. *)
Definition goal_distances (self : State) : list R :=
  zip_with (fun g p => norm2 (vsub g p))
           (_goal_positions self) (robot_position_2d (env self)).

Definition obs_row (p : R * R) (yaw : R) (g : R * R) : list R :=
  let distance_vec := vsub g p in
  let distance := norm2 distance_vec in
  let direction_w := unit_or_small distance_vec in
  [p.1; p.2; yaw; g.1; g.2; distance;
   rot_x direction_w yaw; rot_y direction_w yaw].

Definition _get_high_level_observations (self : State) : list (list R) :=
  let robot_pos_2d := robot_position_2d (env self) in
  let yaw := robot_yaw (env self) in
  zip_with (fun py g => obs_row py.1 py.2 g)
           (zip robot_pos_2d yaw) (_goal_positions self).

Definition std : R := 0.5.

Definition _compute_high_level_rewards : M State (list R) :=
  self <- st_get ;;
  let current_distance := goal_distances self in
  let goal_reward := map (fun d => exp (- d / std ^ 2)) current_distance in
  (* if self._prev_distance_to_goal is None: ... = current_distance.clone() *)
  let prev := match _prev_distance_to_goal self with
              | None => current_distance
              | Some p => p
              end in
  let progress := zip_with Rminus prev current_distance in
  st_put (set_prev (Some current_distance) self) ;;;
  st_ret (zip_with (fun g p => g + 0.5 * p) goal_reward progress).

(** [x.bool()] on a tensor of integers. *)
Definition to_bool (z : Z) : bool := negb (z =? 0)%Z.

Definition _compute_high_level_terminations (low_level_dones : option (list Z))
  : M State (list bool * list bool) :=
  self <- st_get ;;
  let distance := goal_distances self in
  let threshold := 0.5 in
  let goal_reached := map (fun d => Rltb d threshold) distance in
  match low_level_dones with
  | None => st_raise AttributeError         (* None.bool() *)
  | Some dones =>
      let high_level_terminated := zip_with orb goal_reached (map to_bool dones) in
      let high_level_truncated := map to_bool dones in
      st_ret (high_level_terminated, high_level_truncated)
  end.

(** [action.unsqueeze(0)] for one dimension, then [expand(num_envs, -1)]
    for a single row and more than one environment. *)
Definition normalize_action (n : nat) (a : ActionArg) : Tensor2 R :=
  let a2 := match a with
            | Action1D v => mkT2 (length v) [v]
            | Action2D t => t
            end in
  match t_rows a2 with
  | [r] => if decide (1 < n)%nat then mkT2 (t_cols a2) (replicate n r) else a2
  | _ => a2
  end.

(** [for _ in range(n)]: the loop of [step], carrying [info] and
    [last_dones]. *)
Fixpoint decimation_loop (n : nat) (action : Tensor2 R)
    (info : Extras Other) (last_dones : option (list Z))
  : M State (Extras Other * option (list Z)) :=
  match n with
  | O => st_ret (info, last_dones)
  | S n' =>
      low_level_actions <- frozen_policy_wrapper action ;;
      out <- low_env_step low_level_actions ;;
      let '(_, _, dones, extras) := out in
      decimation_loop n' action extras (Some dones)
  end.

Definition bool_to_R (b : bool) : R := if b then 1 else 0.

Definition step (action : ActionArg) : M State (StepOut Other) :=
  self0 <- st_get ;;
  let action := normalize_action (num_envs (env self0)) action in
  (* range(self.decimation) is empty for a negative count *)
  il <- decimation_loop (Z.to_nat (decimation self0)) action (ExtrasDict ∅) None ;;
  let '(info, last_dones) := il in
  self1 <- st_get ;;
  let high_level_obs := _get_high_level_observations self1 in
  high_level_reward <- _compute_high_level_rewards ;;
  tt_ <- _compute_high_level_terminations last_dones ;;
  let '(high_level_terminated, high_level_truncated) := tt_ in
  self2 <- st_get ;;
  let distance := goal_distances self2 in
  let goal_reached := map (fun d => Rltb d 0.5) distance in
  let goal_reward := map (fun d => exp (- d / std ^ 2)) distance in
  let progress_reward :=
    match _prev_distance_to_goal self2 with
    | Some prev => zip_with Rminus prev distance
    | None => replicate (num_envs (env self2)) 0
    end in
  let info := as_dict info in
  let info := <["Episode_Termination/goal_reached" :=
                  VFloat (mean (map bool_to_R goal_reached))]> info in
  let info := <["Episode_Reward/goal_reaching" := VFloat (mean goal_reward)]> info in
  let info := <["Episode_Reward/progress" := VFloat (mean progress_reward)]> info in
  let info := <["hierarchical/distance_to_goal" := VFloat (mean distance)]> info in
  st_ret (mkStepOut high_level_obs high_level_reward
                    high_level_terminated high_level_truncated info).

(** [reset]: the two tensors drawn by [_resample_goals] are arguments. *)
Definition reset (distance angle : list R)
  : M State (list (list R) * gmap string (InfoVal Other)) :=
  self0 <- st_get ;;
  let '(e', (_, info)) := env_reset (env self0) in
  st_put (set_env e' self0) ;;;
  self1 <- st_get ;;
  _resample_goals (map Z.of_nat (seq 0 (num_envs (env self1)))) distance angle ;;;
  self2 <- st_get ;;
  let high_level_obs := _get_high_level_observations self2 in
  st_put (set_prev None self2) ;;;
  let info := as_dict info in
  let info := <["Episode_Termination/goal_reached" := VFloat (Finite 0.0)]> info in
  let info := <["Episode_Reward/goal_reaching" := VFloat (Finite 0.0)]> info in
  let info := <["Episode_Reward/progress" := VFloat (Finite 0.0)]> info in
  let info := <["hierarchical/distance_to_goal" := VFloat (Finite 0.0)]> info in
  st_ret (high_level_obs, info).

(** *** Runs of the decimation loop

    [decimated action n s tr s']: from state [s], [n] iterations of
    the loop body bring the wrapper to [s']; [tr] lists, in order, the
    joint actions the frozen policy wrapper returned for [action] and
    what [env.step] returned for them. *)
Inductive decimated (action : Tensor2 R)
  : nat -> State -> list (Act * (Obs * list R * list Z * Extras Other))
    -> State -> Prop :=
| decimated_O s : decimated action 0 s [] s
| decimated_S n s s1 a s2 out tr s' :
    frozen_policy_wrapper action s = (s1, Ok a) ->
    low_env_step a s1 = (s2, Ok out) ->
    decimated action n s2 tr s' ->
    decimated action (S n) s ((a, out) :: tr) s'.

(** [info] and [last_dones] after a run. *)
Definition loop_result (info : Extras Other) (last_dones : option (list Z))
    (tr : list (Act * (Obs * list R * list Z * Extras Other)))
  : Extras Other * option (list Z) :=
  match last tr with
  | Some (_, (_, _, dones, extras)) => (extras, Some dones)
  | None => (info, last_dones)
  end.

(** The environment is shaped for [num_envs] robots. *)
Definition env_wf (e : LowEnv Sim) : Prop :=
  cmd_shape_ok e /\
  length (root_pos_w e) = num_envs e /\
  length (root_quat_w e) = num_envs e.

(** A call of [step] on a well-shaped wrapper: at least one low-level
    step, and an action that is, or expands to, one command per
    environment. *)
Definition valid_call (s : State) (a : ActionArg) : Prop :=
  (1 <= decimation s)%Z /\
  env_wf (env s) /\
  length (_goal_positions s) = num_envs (env s) /\
  has_shape (num_envs (env s)) 3 (normalize_action (num_envs (env s)) a).

(** The wrapper's own fields other than the shared environment and the
    log are the same in both states. *)
Definition same_bookkeeping (s s' : State) : Prop :=
  decimation s' = decimation s /\
  _prev_distance_to_goal s' = _prev_distance_to_goal s /\
  _goal_positions s' = _goal_positions s /\
  _goal_distance_range s' = _goal_distance_range s.

End HierarchicalNavEnv.

(** [HierarchicalNavEnv.__init__]: the fields the methods above use;
    [decimation] defaults to 10. *)
Definition hnav_init {Sim Act} (e : LowEnv Sim) (decim : option Z) : HNav Sim Act :=
  mkHNav e (default 10%Z decim) None (replicate (num_envs e) (0, 0)) (1.0, 5.0) [].

(** ** frozen_policy.py: freeze_policy, is_frozen, count_parameters *)

Record Param : Type := mkParam {
  p_data : list R;            (* the entries, flattened *)
  requires_grad : bool
}.

Record Module : Type := mkModule {
  training : bool;
  parameters : list Param
}.

(** [runner.alg]: [policy] from rsl_rl 2.3 onwards, [actor_critic]
    before; a missing attribute is [None]. *)
Record Alg : Type := mkAlg {
  policy : option Module;
  actor_critic : option Module
}.

Record OnPolicyRunner : Type := mkRunner { alg : Alg }.

Definition numel (p : Param) : nat := length (p_data p).

(** The module picked by the try/except of [freeze_policy]. *)
Definition runner_policy (runner : OnPolicyRunner) : result Module :=
  match policy (alg runner) with
  | Some m => Ok m
  | None =>
      match actor_critic (alg runner) with
      | Some m => Ok m
      | None => Raise AttributeError
      end
  end.

Definition freeze_param (p : Param) : Param :=
  mkParam (p_data p) false.

(** The module is changed in place and returned; the value returned is
    the module after the change. *)
Definition freeze_policy (runner : OnPolicyRunner) : result Module :=
  match runner_policy runner with
  | Raise e => Raise e
  | Ok policy_nn =>
      (* policy_nn.eval(); for param in parameters(): requires_grad = False *)
      Ok (mkModule false (map freeze_param (parameters policy_nn)))
  end.

Definition is_frozen (policy_nn : Module) : bool :=
  forallb (fun param => negb (requires_grad param)) (parameters policy_nn).

Definition count_parameters (policy_nn : Module) : nat :=
  foldr Nat.add 0%nat (map numel (parameters policy_nn)).

(** ** assets/terrains/perlin_terrain.py *)

(** The configuration, each float field by the decimal number written
    for it; Python holds the nearest binary64 float ([float_of_Q]).  The
    scalars that decide shapes and resolutions are computed as Python
    computes them, in binary64; the noise itself is real-valued. *)
Record HfPerlinTerrainCfg : Type := mkPerlinCfg {
  size : Q * Q;
  horizontal_scale : Q;
  vertical_scale : Q;
  frequency : Q;
  fractal_octaves : Z;
  fractal_lacunarity : Q;
  fractal_gain : Q;
  z_scale : Q
}.

(** *** Python floats (IEEE 754 binary64)

    A float is a finite value (a rational of the form m * 2^e with
    |m| <= 2^53 and e >= -1074), an infinity or a NaN.  The sign of an
    infinity and of a zero is left out: nothing below depends on it. *)
Inductive float64 : Set :=
| FFinite (q : Q)
| FInf
| FNaN.

Definition pow2 (e : Z) : Q :=
  if (0 <=? e)%Z then inject_Z (2 ^ e) else (/ inject_Z (2 ^ (- e)))%Q.

(** [floor(log2 q)] for a positive [q]. *)
Definition ilog2 (q : Q) : Z :=
  let k := (Z.log2 (Qnum q) - Z.log2 (Z.pos (Qden q)))%Z in
  if Qle_bool (pow2 k) q then k else (k - 1)%Z.

(** To the nearest integer, ties to the even one. *)
Definition round_half_even (q : Q) : Z :=
  let f := Qfloor q in
  match Qcompare (q - inject_Z f) (1 # 2) with
  | Lt => f
  | Gt => (f + 1)%Z
  | Eq => if Z.even f then f else (f + 1)%Z
  end.

(** Round to the nearest binary64 float, ties to even: 53 significant
    bits, gradual underflow at exponent -1074, overflow to infinity from
    2^1024 on.  This is how a decimal literal is read and how the result
    of every float operation is rounded. *)
Definition float_of_Q (q : Q) : float64 :=
  if Qeq_bool q 0 then FFinite 0
  else
    let a := Qabs q in
    let e := Z.max (ilog2 a - 52) (-1074) in
    let m := round_half_even (a / pow2 e) in
    let v := Qred (inject_Z m * pow2 e) in
    if Qle_bool (pow2 1024) v then FInf
    else FFinite (if Qle_bool 0 q then v else (- v)%Q).

Arguments float_of_Q : simpl never.

(** Python [int(x)] of a float: truncation towards zero. *)
Definition py_int (x : float64) : result Z :=
  match x with
  | FFinite q => Ok (Z.quot (Qnum q) (Z.pos (Qden q)))
  | FInf => Raise OverflowError
  | FNaN => Raise ValueError
  end.

(** Python [a / b] on floats. *)
Definition py_div (a b : float64) : result float64 :=
  match b with
  | FFinite y =>
      if Qeq_bool y 0 then Raise ZeroDivisionError
      else match a with
           | FFinite x => Ok (float_of_Q (x / y))
           | other => Ok other
           end
  | FInf => Ok (match a with FFinite _ => FFinite 0 | _ => FNaN end)
  | FNaN => Ok FNaN
  end.

(** Python [a * b] on floats. *)
Definition py_mul (a b : float64) : float64 :=
  match a, b with
  | FFinite x, FFinite y => float_of_Q (x * y)
  | FNaN, _ | _, FNaN => FNaN
  | FInf, FFinite y => if Qeq_bool y 0 then FNaN else FInf
  | FFinite x, FInf => if Qeq_bool x 0 then FNaN else FInf
  | FInf, FInf => FInf
  end.

(** The float of a Python int, as [float * int] converts it. *)
Definition float_of_int (z : Z) : result float64 :=
  match float_of_Q (inject_Z z) with
  | FInf => Raise OverflowError
  | x => Ok x
  end.

Definition r_bind {A B} (r : result A) (k : A -> result B) : result B :=
  match r with
  | Ok a => k a
  | Raise e => Raise e
  end.

Notation "x <-- c ;; k" := (r_bind c (fun x => k))
  (at level 100, c at next level, right associativity).

Definition fade (t : R) : R := 6 * t ^ 5 - 15 * t ^ 4 + 10 * t ^ 3.

(** One entry of [gradients = dstack(cos(angles), sin(angles))] with
    [angles = 2 * pi * rand(res0 + 1, res1 + 1)]. *)
Definition gradient (rand : nat -> nat -> R) (a b : nat) : R * R :=
  (cos (2 * PI * rand a b), sin (2 * PI * rand a b)).

Definition dot2 (u v : R * R) : R := u.1 * v.1 + u.2 * v.2.

(** Entry (i, j) of the array returned by [generate_perlin_noise_2d]
    when the shapes agree: [d] is [shape // res], the grid coordinate is
    [(i * delta) % 1] (in exact arithmetic [np.mgrid] yields [shape]
    points per axis), and [repeat(d)] makes entry i read gradient row
    [i / d0]. *)
Definition perlin_entry (rand : nat -> nat -> R) (shape res : Z * Z)
    (i j : nat) : R :=
  let delta := (IZR res.1 / IZR shape.1, IZR res.2 / IZR shape.2) in
  let d := (Z.to_nat (shape.1 / res.1), Z.to_nat (shape.2 / res.2)) in
  let gx := frac_part (INR i * delta.1) in
  let gy := frac_part (INR j * delta.2) in
  let ci := (i / d.1)%nat in
  let cj := (j / d.2)%nat in
  let n00 := dot2 (gx, gy) (gradient rand ci cj) in
  let n10 := dot2 (gx - 1, gy) (gradient rand (S ci) cj) in
  let n01 := dot2 (gx, gy - 1) (gradient rand ci (S cj)) in
  let n11 := dot2 (gx - 1, gy - 1) (gradient rand (S ci) (S cj)) in
  let tx := fade gx in
  let ty := fade gy in
  let n0 := n00 * (1 - tx) + tx * n10 in
  let n1 := n01 * (1 - tx) + tx * n11 in
  sqrt 2 * ((1 - ty) * n0 + ty * n1) * 0.5 + 0.5.

(** Size along one axis of [grid * g00]: the grid has [shape] points and
    the repeated gradients [res * (shape // res)]; numpy multiplies them
    when the sizes agree or one of them is 1 (a single grid point against
    no gradient gives size 0), and refuses otherwise.  The number of
    grid points is taken in exact arithmetic: [np.mgrid] computes it as
    ceil(res / (res / shape)) in binary64, which is [shape] whenever the
    step res / shape is exact (a power of two) and can be [shape] + 1
    otherwise, in which case numpy refuses the product although the
    resolution divides the sample count. *)
Definition product_dim (shape res : Z) : option nat :=
  if (res * (shape / res) =? shape)%Z then Some (Z.to_nat shape)
  else if (shape =? 1)%Z then Some (Z.to_nat (res * (shape / res)))
  else None.

(** [generate_perlin_noise_2d(shape, res)]; [rand] is the array drawn by
    [np.random.rand]. *)
Definition generate_perlin_noise_2d (rand : nat -> nat -> R) (shape res : Z * Z)
  : result (Tensor2 R) :=
  if ((shape.1 =? 0) || (shape.2 =? 0))%Z then Raise ZeroDivisionError
  else if ((res.1 =? 0) || (res.2 =? 0))%Z then Raise ZeroDivisionError
  else if ((shape.1 <? 0) || (shape.2 <? 0) || (res.1 <? 0) || (res.2 <? 0))%Z
       then Raise ValueError
  else match product_dim shape.1 res.1, product_dim shape.2 res.2 with
       | Some n0, Some n1 =>
           Ok (mkT2 n1 (map (fun i => map (fun j => perlin_entry rand shape res i j)
                                          (seq 0 n1))
                            (seq 0 n0)))
       | _, _ => Raise ValueError
       end.

(** [noise += x]: [x] is broadcast to the shape of [noise]. *)
Definition iadd (noise x : Tensor2 R) : result (Tensor2 R) :=
  match broadcast_to (t_nrows noise) (t_cols noise) x with
  | None => Raise ValueError
  | Some b => Ok (mkT2 (t_cols noise) (zip_with (zip_with Rplus) (t_rows noise) b))
  end.

Definition tmap {A B} (f : A -> B) (t : Tensor2 A) : Tensor2 B :=
  mkT2 (t_cols t) (map (map f) (t_rows t)).

(** [int(fractalLacunarity * xScale)], a float times an int. *)
Definition next_scale (fractalLacunarity : float64) (scale : Z) : result Z :=
  f <-- float_of_int scale ;;
  py_int (py_mul fractalLacunarity f).

Arguments next_scale : simpl never.

(** The loop of [generate_fractal_noise_2d]: [n] octaves left, [k] the
    number of octaves done (it selects the random draw).  The amplitude
    multiplies noise values and is real-valued like them. *)
Fixpoint fractal_loop (n k : nat) (rand : nat -> nat -> nat -> R)
    (shape : Z * Z) (xScale yScale : Z) (amplitude : R)
    (fractalLacunarity : float64) (fractalGain : Q) (zScale : Z)
    (noise : Tensor2 R) : result (Tensor2 R) :=
  match n with
  | O => Ok noise
  | S n' =>
      p <-- generate_perlin_noise_2d (rand k) shape (xScale, yScale) ;;
      noise' <-- iadd noise (tmap (fun v => amplitude * v * IZR zScale) p) ;;
      xScale' <-- next_scale fractalLacunarity xScale ;;
      yScale' <-- next_scale fractalLacunarity yScale ;;
      fractal_loop n' (S k) rand shape xScale' yScale'
        (amplitude * Q2R fractalGain)
        fractalLacunarity fractalGain zScale noise'
  end.

Definition generate_fractal_noise_2d (rand : nat -> nat -> nat -> R)
    (xSize ySize xSamples ySamples frequency fractalOctaves : Z)
    (fractalLacunarity : float64) (fractalGain : Q) (zScale : Z)
  : result (Tensor2 R) :=
  let xScale := (frequency * xSize)%Z in
  let yScale := (frequency * ySize)%Z in
  if ((xSamples <? 0) || (ySamples <? 0))%Z then Raise ValueError  (* np.zeros *)
  else
    fractal_loop (Z.to_nat fractalOctaves) 0 rand (xSamples, ySamples)
      xScale yScale 1 fractalLacunarity fractalGain zScale
      (mkT2 (Z.to_nat ySamples)
            (replicate (Z.to_nat xSamples) (replicate (Z.to_nat ySamples) 0))).


(** [np.rint]: to the nearest integer, ties to the even one. *)
Definition rint (x : R) : Z :=
  let f := Int_part x in
  let r := x - IZR f in
  if Rlt_dec r (1 / 2) then f
  else if Rlt_dec (1 / 2) r then (f + 1)%Z
  else if Z.even f then f else (f + 1)%Z.

(** [astype(np.int16)] of an integral float64, as numpy does it on
    x86-64: the value is converted to a 32-bit integer, which gives
    -2^31 when it does not fit, and the low 16 bits are kept. *)
Definition to_int16 (z : Z) : Z :=
  let z32 := if ((- 2 ^ 31 <=? z) && (z <? 2 ^ 31))%Z then z else (- 2 ^ 31)%Z in
  ((z32 + 32768) mod 65536 - 32768)%Z.

(** [int(cfg.size[0] / cfg.horizontal_scale)] and its two siblings. *)
Definition width_pixels (cfg : HfPerlinTerrainCfg) : result Z :=
  q <-- py_div (float_of_Q (size cfg).1) (float_of_Q (horizontal_scale cfg)) ;;
  py_int q.

Definition length_pixels (cfg : HfPerlinTerrainCfg) : result Z :=
  q <-- py_div (float_of_Q (size cfg).2) (float_of_Q (horizontal_scale cfg)) ;;
  py_int q.

Definition height_scale (cfg : HfPerlinTerrainCfg) : result Z :=
  q <-- py_div (float_of_Q (z_scale cfg)) (float_of_Q (vertical_scale cfg)) ;;
  py_int q.

(** The body of [perlin_terrain]; [difficulty] is ignored. *)
Definition perlin_terrain (rand : nat -> nat -> nat -> R)
    (cfg : HfPerlinTerrainCfg) : result (Tensor2 Z) :=
  wp <-- width_pixels cfg ;;
  lp <-- length_pixels cfg ;;
  hs <-- height_scale cfg ;;
  xSize <-- py_int (float_of_Q (size cfg).1) ;;
  ySize <-- py_int (float_of_Q (size cfg).2) ;;
  freq <-- py_int (float_of_Q (frequency cfg)) ;;
  hf_noise <-- generate_fractal_noise_2d rand xSize ySize wp lp freq
                 (fractal_octaves cfg) (float_of_Q (fractal_lacunarity cfg))
                 (fractal_gain cfg) hs ;;
  Ok (tmap (fun v => to_int16 (rint v)) hf_noise).

(** ** mdp/rewards.py *)

Section Rewards.
Context {Sim : Type}.

(** [torch.exp(-distance / std**2).squeeze(-1)] *)
Definition goal_reaching_reward (std : R) (v : NavView Sim) : list R :=
  map (fun d => exp (- d / std ^ 2)) (distance_to_goal v).

(** [-distance.squeeze(-1)] *)
Definition goal_reaching_l2 (v : NavView Sim) : list R :=
  map Ropp (distance_to_goal v).

(** The environment as [goal_reaching_progress] uses it: what the mdp
    functions read, and the attribute [_prev_distance_to_goal], absent
    ([None]) until the first call sets it. *)
Record RewardEnv : Type := mkRewardEnv {
  re_view : NavView Sim;
  re_prev_distance_to_goal : option (list R)
}.

Definition goal_reaching_progress : M RewardEnv (list R) :=
  env <- st_get ;;
  let current_distance := distance_to_goal (re_view env) in
  (* if not hasattr(env, "_prev_distance_to_goal"): ... = current_distance.clone() *)
  let prev := match re_prev_distance_to_goal env with
              | None => current_distance
              | Some p => p
              end in
  let progress := zip_with Rminus prev current_distance in
  st_put (mkRewardEnv (re_view env) (Some current_distance)) ;;;
  st_ret progress.

(** The term called once per simulator state: between two calls the
    simulator changes what the mdp functions read, and the attribute
    stays.  The list holds what each call returned. *)
Fixpoint progress_over (views : list (NavView Sim)) (prev : option (list R))
  : list (list R) :=
  match views with
  | [] => []
  | v :: vs =>
      match goal_reaching_progress (mkRewardEnv v prev) with
      | (env', Ok progress) =>
          progress :: progress_over vs (re_prev_distance_to_goal env')
      | (_, Raise _) => []
      end
  end.

End Rewards.
Arguments RewardEnv Sim : clear implicits.
Arguments mkRewardEnv {Sim} _ _.

(** ** train_hierarchical_nav.py: HierarchicalVecEnvWrapper *)

(** [torch.clamp(x, lo, hi)]: [min(max(x, lo), hi)]. *)
Definition clamp (x lo hi : R) : R := Rmin (Rmax x lo) hi.

Definition clamp_action (c : R) (a : ActionArg) : ActionArg :=
  match a with
  | Action1D v => Action1D (map (fun x => clamp x (- c) c) v)
  | Action2D t => Action2D (mkT2 (t_cols t)
                                 (map (map (fun x => clamp x (- c) c)) (t_rows t)))
  end.

(** Element of [(terminated | truncated).to(dtype=torch.long)]. *)
Definition bool_to_Z (b : bool) : Z := if b then 1%Z else 0%Z.

Section HierarchicalVecEnvWrapper.
Context {Sim Obs Act Other : Type}.
Variable observation_manager_compute : LowEnv Sim -> Sim * Obs.
Variable inference_policy : Obs -> Act.
Variable env_step :
  LowEnv Sim -> Act -> LowEnv Sim * (Obs * list R * list Z * Extras Other).

(** [HierarchicalVecEnvWrapper.step]: returns (obs, rewards, dones,
    info); [clip_actions] is [None] or the clipping bound.  [info] comes
    from [HierarchicalNavEnv.step] as a dict, so the [isinstance] test
    keeps it. *)
Definition vec_step (clip_actions : option R) (actions : ActionArg)
  : M (HNav Sim Act)
      (list (list R) * list R * list Z * gmap string (InfoVal Other)) :=
  let actions := match clip_actions with
                 | Some c => clamp_action c actions
                 | None => actions
                 end in
  out <- step observation_manager_compute inference_policy env_step actions ;;
  let dones := map bool_to_Z (zip_with orb (high_level_terminated out)
                                       (high_level_truncated out)) in
  let info := info_out out in
  self <- st_get ;;
  let info :=
    match info !! "Episode_Termination/goal_reached" with
    | Some _ => info
    | None =>
        let distance := goal_distances self in
        let goal_reached := mean (map bool_to_R (map (fun d => Rltb d 0.5) distance)) in
        let goal_reward := mean (map (fun d => exp (- d / std ^ 2)) distance) in
        <["hierarchical/distance_to_goal" := VFloat (mean distance)]>
        (<["Episode_Reward/goal_reaching" := VFloat goal_reward]>
        (<["Episode_Termination/goal_reached" := VFloat goal_reached]> info))
    end in
  st_ret (high_level_obs out, high_level_reward out, dones, info).

(** [HierarchicalVecEnvWrapper.get_observations] *)
Definition vec_get_observations (self : HNav Sim Act) : list (list R) :=
  _get_high_level_observations self.

End HierarchicalVecEnvWrapper.

(** ** scripts/reinforcement_learning/rl_utils.py *)

(** [vec[:, idx]] for a list of column indices: the result has one
    column per index.  On a tensor with rows every index must be within
    the width; on a tensor with no rows nothing is read and torch does
    not check the indices. *)
Definition take_cols {A} (idx : list nat) (vec : Tensor2 A) : result (Tensor2 A) :=
  match t_rows vec with
  | [] => Ok (mkT2 (length idx) [])
  | _ :: _ =>
      if forallb (fun i => i <? t_cols vec)%nat idx
      then Ok (mkT2 (length idx)
                    (map (fun r => omap (fun i => r !! i) idx) (t_rows vec)))
      else Raise IndexError
  end.

Definition reindex_feet {A} (vec : Tensor2 A) : result (Tensor2 A) :=
  take_cols [1; 0; 3; 2]%nat vec.

Definition reindex {A} (vec : Tensor2 A) : result (Tensor2 A) :=
  take_cols [3; 4; 5; 0; 1; 2; 9; 10; 11; 6; 7; 8]%nat vec.

Definition vec3 : Type := R * R * R.

Definition vec3_add (a b : vec3) : vec3 :=
  (a.1.1 + b.1.1, a.1.2 + b.1.2, a.2 + b.2).

(** [torch.mean(torch.stack(ps), dim=0)] of a non-empty list of points. *)
Definition vec3_mean (ps : list vec3) : vec3 :=
  let s := foldr vec3_add (0, 0, 0) ps in
  let n := INR (length ps) in
  (s.1.1 / n, s.1.2 / n, s.2 / n).

Definition window_size : nat := 50.

Section CameraFollow.
Context {Sim : Type}.

(** [math_utils.transform_points(offset, pos, quat)] for one point. *)
Variable transform_points : vec3 -> vec3 -> R * R * R * R -> vec3.

(** What [camera_follow] keeps and does: the function attribute
    [smooth_camera_positions] ([None] while the attribute is missing) and
    the (eye, lookat) pairs handed to the viewport camera controller. *)
Record CameraState : Type := mkCameraState {
  smooth_camera_positions : option (list vec3);
  view_updates : list (vec3 * vec3)
}.

Definition camera_follow (env : LowEnv Sim) : M CameraState unit :=
  st <- st_get ;;
  let positions := default [] (smooth_camera_positions st) in
  st_put (mkCameraState (Some positions) (view_updates st)) ;;;
  match root_pos_w env !! 0%nat, root_quat_w env !! 0%nat with
  | Some robot_pos, Some robot_quat =>
      let camera_offset := (-3.0, 0.0, 0.5) in
      let camera_pos := transform_points camera_offset robot_pos robot_quat in
      let positions := positions ++ [camera_pos] in
      let positions :=
        if decide (window_size < length positions)%nat
        then drop 1 positions            (* pop(0) *)
        else positions in
      let smooth_camera_pos := vec3_mean positions in
      st_put (mkCameraState (Some positions)
                            (view_updates st ++ [(smooth_camera_pos, robot_pos)]))
  | _, _ => st_raise IndexError
  end.

(** [camera_pos] of one call, when environment 0 exists. *)
Definition camera_pos (env : LowEnv Sim) : option vec3 :=
  match root_pos_w env !! 0%nat, root_quat_w env !! 0%nat with
  | Some robot_pos, Some robot_quat =>
      Some (transform_points (-3.0, 0.0, 0.5) robot_pos robot_quat)
  | _, _ => None
  end.

(** The play loop calls [camera_follow] once per simulator step: the
    calls in sequence, on the environment as it is at each step. *)
Fixpoint camera_follow_all (envs : list (LowEnv Sim)) : M CameraState unit :=
  match envs with
  | [] => st_ret tt
  | env :: rest => camera_follow env ;;; camera_follow_all rest
  end.

End CameraFollow.
Arguments CameraState : clear implicits.

(** [s.endswith(suffix)] *)
Definition endswith (s suffix : string) : bool :=
  (String.length suffix <=? String.length s)%nat &&
  String.eqb (String.substring (String.length s - String.length suffix)
                               (String.length suffix) s)
             suffix.

(** The file name [dump_pickle] writes to. *)
Definition pkl_filename (filename : string) : string :=
  if endswith filename "pkl" then filename else (filename +:+ ".pkl")%string.

(** Exceptions of the file functions. *)
Inductive io_exn : Set :=
| FileNotFoundError
| OSError.

Inductive io_result (A : Type) : Type :=
| IoOk (a : A)
| IoRaise (e : io_exn).
Arguments IoOk {A} a.
Arguments IoRaise {A} e.

Section Pickle.
(** The file system and [pickle] are external: [os.path.exists],
    [os.path.dirname], [os.makedirs(_, exist_ok=True)], reading a pickled
    file and writing one. *)
Context {FS Data : Type}.
Variable os_path_exists : FS -> string -> bool.
Variable os_path_dirname : string -> string.
Variable os_makedirs : FS -> string -> FS * io_result unit.
Variable pickle_load : FS -> string -> io_result Data.
Variable pickle_dump : FS -> string -> Data -> FS * io_result unit.

Definition load_pickle (fs : FS) (filename : string) : io_result Data :=
  if negb (os_path_exists fs filename) then IoRaise FileNotFoundError
  else pickle_load fs filename.

Definition dump_pickle (fs : FS) (filename : string) (data : Data)
  : FS * io_result unit :=
  let filename := pkl_filename filename in
  let '(fs1, r) :=
    if negb (os_path_exists fs (os_path_dirname filename))
    then os_makedirs fs (os_path_dirname filename)
    else (fs, IoOk tt) in
  match r with
  | IoRaise e => (fs1, IoRaise e)
  | IoOk _ => pickle_dump fs1 filename data
  end.

End Pickle.

(** * Concrete instances

    A one-robot world whose observation is the command term and whose
    policy returns its observation, so that the joint actions show the
    command they were computed under; and the inputs at which the code
    departs from its documentation. *)

Definition demo_compute (e : LowEnv unit) : unit * Tensor2 R :=
  (tt, base_velocity e).

Definition demo_policy (obs : Tensor2 R) : Tensor2 R := obs.

Definition demo_env_step (e : LowEnv unit) (a : Tensor2 R)
  : LowEnv unit * (Tensor2 R * list R * list Z * Extras unit) :=
  (e, (base_velocity e, replicate (num_envs e) 0,
       replicate (num_envs e) 0%Z, ExtrasDict ∅)).

Definition demo_env_reset (e : LowEnv unit)
  : LowEnv unit * (Tensor2 R * Extras unit) :=
  (e, (base_velocity e, ExtrasDict ∅)).

Definition demo_env : LowEnv unit :=
  mkLowEnv 1 [(0, 0, 0)] [(1, 0, 0, 0)] (mkT2 3 [[0; 0; 0]]) tt.

(** One robot at the origin, the wrapper as constructed with the default
    decimation, goal at (3, 4). *)
Definition demo_state : HNav unit (Tensor2 R) :=
  set_goals [(3, 4)] (hnav_init demo_env None).

Definition demo_action : ActionArg := Action1D [0.5; 0; 0].

(** The same wrapper constructed with a decimation of zero. *)
Definition stalled_state : HNav unit (Tensor2 R) :=
  set_goals [(3, 4)] (hnav_init demo_env (Some 0%Z)).

(** Two commands for the one robot. *)
Definition two_row_action : ActionArg :=
  Action2D (mkT2 3 [[0.5; 0; 0]; [0.5; 0; 0]]).

(** A command term of width four: a velocity command followed by a
    heading. *)
Definition wide_cmd_env : LowEnv unit :=
  mkLowEnv 1 [(0, 0, 0)] [(1, 0, 0, 0)] (mkT2 4 [[1; 2; 3; 4]]) tt.

Definition forward_cmd : Tensor2 R := mkT2 3 [[0.5; 0; 0]].

(** Two robots at the origin, the first with yaw 0 and the second with
    yaw pi, both with the goal (1, 0). *)
Definition two_robot_view : NavView unit :=
  mkNavView (mkLowEnv 2 [(0, 0, 0); (0, 0, 0)]
                      [(1, 0, 0, 0); (0, 0, 0, 1)]
                      (mkT2 3 [[0; 0; 0]; [0; 0; 0]]) tt)
            [(1, 0); (1, 0)].

Definition demo_goal_cmd : UniformGoalPositionCommand unit :=
  goal_command_init default_goal_cfg demo_env.

Definition demo_runner : OnPolicyRunner :=
  mkRunner (mkAlg (Some (mkModule true [mkParam [1; 2] true; mkParam [3] false]))
                  None).

(** A terrain 2.5 m wide sampled every 0.5 m: 5 samples per axis against
    a noise grid of resolution int(1) * int(2.5) = 2. *)
Definition fractional_size_cfg : HfPerlinTerrainCfg :=
  mkPerlinCfg (2.5, 2.5)%Q 0.5%Q 0.005%Q 1%Q 1 2%Q 0.25%Q 0.23%Q.

(** An 8 m terrain sampled every 0.5 m with noise frequency 1: every
    octave's resolution (8, then 16) divides the 16 samples. *)
Definition dividing_cfg : HfPerlinTerrainCfg :=
  mkPerlinCfg (8, 8)%Q 0.5%Q 0.005%Q 1%Q 2 2%Q 0.25%Q 0.23%Q.

(** The same terrain with no octave. *)
Definition flat_cfg : HfPerlinTerrainCfg :=
  mkPerlinCfg (8, 8)%Q 0.5%Q 0.005%Q 1%Q 0 2%Q 0.25%Q 0.23%Q.

(** * Properties *)

(** ** Tensors *)

Lemma zip_with_overwrite3 (rows src : list (list R)) :
  length rows = length src ->
  Forall (fun r => length r = 3%nat) rows ->
  zip_with (fun d s => s ++ drop 3 d) rows src = src.
Proof.
  revert src. induction rows as [|d rows IH]; intros [|s src] Hlen Hall;
    simpl in *; try done.
  inversion Hall as [|? ? Hd Hrest]; subst.
  rewrite drop_ge by lia. rewrite app_nil_r. f_equal. apply IH; [lia | done].
Qed.

(** Writing a [n, 3] tensor over the three columns of a [n, 3] tensor
    replaces it. *)
Lemma setitem_cols_same_shape (n : nat) (dst src : Tensor2 R) :
  has_shape n 3 dst -> has_shape n 3 src ->
  setitem_cols 3 dst src = Ok src.
Proof.
  intros (Hn & Hc & Hwf) (Hn' & Hc' & Hwf').
  unfold setitem_cols, broadcast_to, expand_dim.
  rewrite Hc, Hc'. simpl.
  unfold t_nrows in *.
  destruct (decide (length (t_rows src) = length (t_rows dst))) as [E|E]; [|lia].
  rewrite zip_with_overwrite3; [| lia |].
  - destruct src; simpl in *; subst; done.
  - unfold t_wf in Hwf. by rewrite Hc in Hwf.
Qed.

(** ** Reals and lists of reals *)


Lemma std_sq : std ^ 2 = 0.25.
Proof. unfold std. lra. Qed.

Lemma sum_list_self_minus (d : list R) : sum_list (zip_with Rminus d d) = 0.
Proof.
  induction d as [|x d IH]; simpl; [done|]. rewrite IH. lra.
Qed.

Lemma mean_self_minus (d : list R) :
  d <> [] -> mean (zip_with Rminus d d) = Finite 0.
Proof.
  intros Hd. destruct d as [|x d]; [done|].
  pose proof (sum_list_self_minus (x :: d)) as Hs.
  unfold mean. simpl zip_with in *. rewrite Hs.
  f_equal. unfold Rdiv. apply Rmult_0_l.
Qed.

(** ** FrozenLocomotionPolicy *)

Section FrozenFacts.
Context {Sim Obs Act : Type}.
Variable observation_manager_compute : LowEnv Sim -> Sim * Obs.
Variable inference_policy : Obs -> Act.

(** With a command term of shape [num_envs, 3] the call returns the
    policy's actions for the observation computed under the new
    command, and leaves the command term as it was. *)
Lemma frozen_call_width3 (vc : Tensor2 R) (e : LowEnv Sim) :
  cmd_shape_ok e -> has_shape (num_envs e) 3 vc ->
  frozen_call observation_manager_compute inference_policy vc e =
    (set_internals (observation_manager_compute (set_base_velocity vc e)).1 e,
     Ok (inference_policy
           (observation_manager_compute (set_base_velocity vc e)).2)).
Proof.
  intros He Hvc. unfold frozen_call, st_bind, st_get, st_put, st_lift, st_ret.
  rewrite (setitem_cols_same_shape _ _ _ He Hvc).
  destruct (observation_manager_compute (set_base_velocity vc e)) as [s' obs].
  simpl.
  rewrite (setitem_cols_same_shape (num_envs e) vc (base_velocity e) Hvc He).
  destruct e; reflexivity.
Qed.

End FrozenFacts.

(** ** HierarchicalNavEnv: the decimation loop *)

Section StepFacts.
Context {Sim Obs Act Other : Type}.
Variable observation_manager_compute : LowEnv Sim -> Sim * Obs.
Variable inference_policy : Obs -> Act.
Variable env_step :
  LowEnv Sim -> Act -> LowEnv Sim * (Obs * list R * list Z * Extras Other).

Abbreviation State := (HNav Sim Act).
Abbreviation wrapper :=
  (frozen_policy_wrapper observation_manager_compute inference_policy).
Abbreviation lstep := (low_env_step (Obs:=Obs) (Other:=Other) env_step).
Abbreviation loop :=
  (decimation_loop observation_manager_compute inference_policy env_step).
Abbreviation run :=
  (decimated observation_manager_compute inference_policy env_step).
Abbreviation hstep :=
  (step observation_manager_compute inference_policy env_step).

Lemma loop_result_cons info ld a o r dones extras tr :
  loop_result (Other:=Other) (Obs:=Obs) (Act:=Act) info ld
              ((a, (o, r, dones, extras)) :: tr)
  = loop_result extras (Some dones) tr.
Proof.
  unfold loop_result. destruct tr as [|x tr]; [done|].
  change (last ((a, (o, r, dones, extras)) :: x :: tr)) with (last (x :: tr)).
  destruct (last (x :: tr)) as [[? [[[? ?] ?] ?]]|] eqn:E; [done|].
  by apply last_None in E.
Qed.

(** Whenever the loop returns, it has made a run of [n] iterations. *)
Lemma loop_spec action n : forall s info ld s' r,
  loop n action info ld s = (s', Ok r) ->
  exists tr, run action n s tr s' /\ r = loop_result info ld tr.
Proof.
  induction n as [|n IH]; intros s info ld s' r H; simpl in H.
  - unfold st_ret in H. inversion H; subst. exists []. split; [constructor | done].
  - unfold st_bind in H.
    destruct (wrapper action s) as [s1 [a|e]] eqn:Hw; [|discriminate].
    destruct (lstep a s1) as [s2 [out|e]] eqn:Hs; [|discriminate].
    destruct out as [[[o rw] dones] extras].
    apply IH in H as (tr & Hrun & ->).
    exists ((a, (o, rw, dones, extras)) :: tr). split.
    + econstructor; eauto.
    + by rewrite loop_result_cons.
Qed.

(** A run changes the shared environment and the log only; one entry is
    logged per iteration. *)
Lemma run_frame action n s tr s' :
  run action n s tr s' ->
  length tr = n /\
  low_step_log s' = low_step_log s ++ map fst tr /\
  decimation s' = decimation s /\
  _prev_distance_to_goal s' = _prev_distance_to_goal s /\
  _goal_positions s' = _goal_positions s /\
  _goal_distance_range s' = _goal_distance_range s.
Proof.
  induction 1 as [s | n s s1 a s2 out tr s' Hw Hs Hrun IH].
  - simpl. rewrite app_nil_r. done.
  - destruct IH as (Hl & Hlog & Hd & Hp & Hg & Hr).
    unfold frozen_policy_wrapper, on_env in Hw.
    destruct (frozen_call _ _ action (env s)) as [e1 r1]. inversion Hw; subst.
    unfold low_env_step in Hs. simpl in Hs.
    destruct (env_step e1 a) as [e2 o2]. inversion Hs; subst. simpl in *.
    rewrite Hlog, Hd, Hp, Hg, Hr. rewrite <- app_assoc. simpl. done.
Qed.

(** What [step] returns is computed from the state a run of
    [range(decimation)] iterations leaves. *)
Lemma step_spec a s s' out :
  hstep a s = (s', Ok out) ->
  exists s1 tr dones extras,
    run (normalize_action (num_envs (env s)) a)
        (Z.to_nat (decimation s)) s tr s1 /\
    loop_result (ExtrasDict ∅) None tr = (extras, Some dones) /\
    high_level_obs out = _get_high_level_observations s1 /\
    _compute_high_level_rewards s1 = (s', Ok (high_level_reward out)) /\
    _compute_high_level_terminations (Some dones) s' =
      (s', Ok (high_level_terminated out, high_level_truncated out)) /\
    info_out out =
      <["hierarchical/distance_to_goal" := VFloat (mean (goal_distances s'))]>
      (<["Episode_Reward/progress" :=
           VFloat (mean (match _prev_distance_to_goal s' with
                         | Some prev => zip_with Rminus prev (goal_distances s')
                         | None => replicate (num_envs (env s')) 0
                         end))]>
      (<["Episode_Reward/goal_reaching" :=
           VFloat (mean (map (fun d => exp (- d / std ^ 2)) (goal_distances s')))]>
      (<["Episode_Termination/goal_reached" :=
           VFloat (mean (map bool_to_R
                             (map (fun d => Rltb d 0.5) (goal_distances s'))))]>
       (as_dict extras)))).
Proof.
  intros H. unfold step in H. unfold st_bind at 1 in H. unfold st_get at 1 in H.
  unfold st_bind at 1 in H.
  destruct (loop _ _ _ _ s) as [s1 [[info ld]|e]] eqn:Hloop; [|discriminate].
  apply loop_spec in Hloop as (tr & Hrun & Hres).
  unfold st_bind at 1 in H. unfold st_get at 1 in H.
  unfold st_bind at 1 in H.
  destruct (_compute_high_level_rewards s1) as [s2 [rew|e]] eqn:Hrew; [|discriminate].
  unfold st_bind at 1 in H.
  destruct ld as [dones|].
  2:{ unfold _compute_high_level_terminations, st_bind, st_get, st_raise in H.
      discriminate. }
  destruct (_compute_high_level_terminations (Some dones) s2)
    as [s3 [[term trunc]|e]] eqn:Hterm; [|discriminate].
  assert (s3 = s2) as ->.
  { unfold _compute_high_level_terminations, st_bind, st_get, st_ret in Hterm.
    by inversion Hterm. }
  unfold st_bind, st_get, st_ret in H. inversion H; subst s' out; clear H.
  exists s1, tr, dones, info. simpl. done.
Qed.

End StepFacts.

(** ** HierarchicalNavEnv on a well-shaped environment *)

Section StepTotal.
Context {Sim Obs Act Other : Type}.
Variable observation_manager_compute : LowEnv Sim -> Sim * Obs.
Variable inference_policy : Obs -> Act.
Variable env_step :
  LowEnv Sim -> Act -> LowEnv Sim * (Obs * list R * list Z * Extras Other).

(** The simulator keeps the number of environments and the shapes of
    its tensors. *)
Hypothesis env_step_wf : forall e a,
  env_wf e ->
  env_wf (env_step e a).1 /\
  num_envs (env_step e a).1 = num_envs e /\
  length (env_step e a).2.1.2 = num_envs e.          (* dones *)

Abbreviation State := (HNav Sim Act).
Abbreviation wrapper :=
  (frozen_policy_wrapper observation_manager_compute inference_policy).
Abbreviation loop :=
  (decimation_loop observation_manager_compute inference_policy env_step).
Abbreviation run :=
  (decimated observation_manager_compute inference_policy env_step).
Abbreviation hstep :=
  (step observation_manager_compute inference_policy env_step).

(** The wrapper, called from [step]: the actions are the policy's for
    the observation under the command [action]; only the observation
    manager's buffers change. *)
Lemma wrapper_ok action (s : State) :
  env_wf (env s) -> has_shape (num_envs (env s)) 3 action ->
  wrapper action s =
    (set_env (set_internals
                (observation_manager_compute (set_base_velocity action (env s))).1
                (env s)) s,
     Ok (inference_policy
           (observation_manager_compute (set_base_velocity action (env s))).2)).
Proof.
  intros (Hc & _) Ha. unfold frozen_policy_wrapper, on_env.
  by rewrite frozen_call_width3.
Qed.

(** The loop returns for every iteration count. *)
Lemma loop_total action n : forall (s : State) info ld,
  env_wf (env s) -> has_shape (num_envs (env s)) 3 action ->
  exists s' r, loop n action info ld s = (s', Ok r).
Proof.
  induction n as [|n IH]; intros s info ld Hwf Ha; simpl.
  - eexists _, _. reflexivity.
  - unfold st_bind. rewrite wrapper_ok by done.
    unfold low_env_step. simpl.
    pose proof (env_step_wf
      (set_internals
         (observation_manager_compute (set_base_velocity action (env s))).1 (env s))
      (inference_policy
         (observation_manager_compute (set_base_velocity action (env s))).2)) as Hstep.
    destruct (env_step _ _) as [e2 [[[o rw] dones] extras]]. simpl in *.
    destruct Hstep as (Hwf2 & Hn2 & _).
    { destruct Hwf as (? & ? & ?). done. }
    apply IH; simpl; [done | by rewrite Hn2].
Qed.

(** Along a run the environment stays well shaped, and every action
    passed to [env.step] is the policy's answer to the observation
    computed under the one command [action]. *)
Lemma run_wf action n (s : State) tr s' :
  run action n s tr s' ->
  env_wf (env s) -> has_shape (num_envs (env s)) 3 action ->
  env_wf (env s') /\ num_envs (env s') = num_envs (env s) /\
  Forall (fun a => exists e, env_wf e /\
            a = inference_policy
                  (observation_manager_compute (set_base_velocity action e)).2)
         (map fst tr) /\
  Forall (fun x => length x.2.1.2 = num_envs (env s)) tr.
Proof.
  induction 1 as [s | n s s1 a s2 out tr s' Hw Hs Hrun IH]; intros Hwf Ha.
  - simpl. done.
  - rewrite wrapper_ok in Hw by done. inversion Hw; subst s1 a; clear Hw.
    unfold low_env_step in Hs. simpl in Hs.
    pose proof (env_step_wf
      (set_internals
         (observation_manager_compute (set_base_velocity action (env s))).1 (env s))
      (inference_policy
         (observation_manager_compute (set_base_velocity action (env s))).2)) as Hstep.
    destruct (env_step _ _) as [e2 o2]. inversion Hs; subst s2 out; clear Hs.
    simpl in *. destruct Hstep as (Hwf2 & Hn2 & Hd2).
    { destruct Hwf as (? & ? & ?). done. }
    destruct IH as (Hwf' & Hn' & Hall & Hdones); [done | by rewrite Hn2 |].
    split; [done|]. split; [congruence|]. split.
    + constructor; [|done]. eauto.
    + constructor; [done|]. by rewrite <- Hn2.
Qed.

(** The log after [step] is the log after its loop, whether or not the
    rest of [step] raises. *)
Lemma step_log a (s s1 : State) r :
  loop (Z.to_nat (decimation s)) (normalize_action (num_envs (env s)) a)
       (ExtrasDict ∅) None s = (s1, Ok r) ->
  low_step_log (hstep a s).1 = low_step_log s1.
Proof.
  intros Hloop. unfold step. unfold st_bind at 1. unfold st_get at 1.
  unfold st_bind at 1. rewrite Hloop. destruct r as [info ld].
  unfold st_bind at 1. unfold st_get at 1.
  unfold st_bind at 1.
  unfold _compute_high_level_rewards at 1.
  unfold st_bind at 1. unfold st_get at 1. unfold st_bind at 1.
  unfold st_put at 1. unfold st_ret at 1.
  unfold st_bind at 1.
  destruct ld as [dones|]; unfold _compute_high_level_terminations;
    unfold st_bind, st_get, st_ret, st_raise; simpl; done.
Qed.

Lemma run_last_some action n (s : State) tr s' info ld :
  run action (S n) s tr s' ->
  exists dones extras,
    loop_result (Other:=Other) (Obs:=Obs) (Act:=Act) info ld tr
    = (extras, Some dones).
Proof.
  intros Hrun. apply run_frame in Hrun as (Hlen & _).
  unfold loop_result. destruct (last tr) as [[? [[[? ?] dones] extras]]|] eqn:E.
  - eauto.
  - apply last_None in E. subst. discriminate.
Qed.

(** [step] once its loop has returned with the dones of a last
    low-level step. *)
Lemma step_of_loop a (s s1 : State) extras dones :
  loop (Z.to_nat (decimation s)) (normalize_action (num_envs (env s)) a)
       (ExtrasDict ∅) None s = (s1, Ok (extras, Some dones)) ->
  exists out,
    hstep a s = (set_prev (Some (goal_distances s1)) s1, Ok out) /\
    high_level_obs out = _get_high_level_observations s1 /\
    _compute_high_level_rewards s1
      = (set_prev (Some (goal_distances s1)) s1, Ok (high_level_reward out)) /\
    _compute_high_level_terminations (Some dones)
        (set_prev (Some (goal_distances s1)) s1)
      = (set_prev (Some (goal_distances s1)) s1,
         Ok (high_level_terminated out, high_level_truncated out)).
Proof.
  intros Hloop. unfold step. unfold st_bind at 1. unfold st_get at 1.
  unfold st_bind at 1. rewrite Hloop.
  unfold _compute_high_level_rewards, _compute_high_level_terminations.
  unfold st_bind, st_get, st_put, st_ret. simpl.
  eexists. split; [reflexivity|]. simpl. done.
Qed.

(** With at least one iteration, [step] returns on a well-shaped
    environment. *)
Lemma step_total_loop a (s : State) :
  (1 <= decimation s)%Z ->
  env_wf (env s) ->
  has_shape (num_envs (env s)) 3 (normalize_action (num_envs (env s)) a) ->
  exists s1 tr extras dones,
    loop (Z.to_nat (decimation s)) (normalize_action (num_envs (env s)) a)
         (ExtrasDict ∅) None s = (s1, Ok (extras, Some dones)) /\
    run (normalize_action (num_envs (env s)) a)
        (Z.to_nat (decimation s)) s tr s1 /\
    loop_result (ExtrasDict ∅) None tr = (extras, Some dones).
Proof.
  intros Hdec Hwf Ha.
  destruct (loop_total (normalize_action (num_envs (env s)) a)
              (Z.to_nat (decimation s)) s (ExtrasDict ∅) None Hwf Ha)
    as (s1 & r & Hloop).
  pose proof Hloop as Hl2. apply loop_spec in Hl2 as (tr & Hrun & ->).
  destruct (Z.to_nat (decimation s)) as [|n] eqn:En; [lia|].
  destruct (run_last_some _ _ _ _ _ (ExtrasDict ∅) None Hrun)
    as (dones & extras & Hres).
  exists s1, tr, extras, dones. rewrite <- Hres. done.
Qed.

(** A valid call returns. *)
Lemma step_total a (s : State) :
  valid_call s a -> exists s' out, hstep a s = (s', Ok out).
Proof.
  intros (Hdec & Hwf & _ & Ha).
  destruct (step_total_loop a s Hdec Hwf Ha)
    as (s1 & tr & extras & dones & Hloop & _).
  destruct (step_of_loop a s s1 extras dones Hloop) as (out & Hstep & _).
  eauto.
Qed.

(** C1.  A call of [step] on a well-shaped environment makes a run of
    [range(decimation)] iterations: [env.step] is invoked exactly that
    many times (its arguments are the entries appended to the log),
    each time with the actions the frozen policy wrapper returned for
    the one normalised command; and, when there is at least one
    iteration, the observations, the reward and the flags returned are
    those computed from the state this run leaves and from the dones
    of its last low-level step. *)
Theorem C1_step_runs_decimation_low_level_steps a (s : State) :
  env_wf (env s) ->
  has_shape (num_envs (env s)) 3 (normalize_action (num_envs (env s)) a) ->
  exists tr s1,
    run (normalize_action (num_envs (env s)) a)
        (Z.to_nat (decimation s)) s tr s1 /\
    length tr = Z.to_nat (decimation s) /\
    low_step_log (hstep a s).1 = low_step_log s ++ map fst tr /\
    Forall (fun act => exists e, env_wf e /\
              act = inference_policy
                      (observation_manager_compute
                         (set_base_velocity
                            (normalize_action (num_envs (env s)) a) e)).2)
           (map fst tr) /\
    ((1 <= decimation s)%Z ->
     exists out dones extras,
       (hstep a s).2 = Ok out /\
       loop_result (ExtrasDict ∅) None tr = (extras, Some dones) /\
       high_level_obs out = _get_high_level_observations s1 /\
       _compute_high_level_rewards s1
         = ((hstep a s).1, Ok (high_level_reward out)) /\
       _compute_high_level_terminations (Some dones) (hstep a s).1
         = ((hstep a s).1,
            Ok (high_level_terminated out, high_level_truncated out))).
Proof.
  intros Hwf Ha.
  destruct (loop_total (normalize_action (num_envs (env s)) a)
              (Z.to_nat (decimation s)) s (ExtrasDict ∅) None Hwf Ha)
    as (s1 & r & Hloop).
  pose proof Hloop as Hl2. apply loop_spec in Hl2 as (tr & Hrun & Hr).
  exists tr, s1.
  pose proof (run_frame _ _ _ _ _ _ _ _ Hrun) as (Hlen & Hlog & _).
  pose proof (run_wf _ _ _ _ _ Hrun Hwf Ha) as (_ & _ & Hall & _).
  split; [done|]. split; [done|]. split.
  { rewrite (step_log a s s1 r Hloop). done. }
  split; [done|].
  intros Hdec.
  destruct (Z.to_nat (decimation s)) as [|n] eqn:En; [lia|].
  destruct (run_last_some _ _ _ _ _ (ExtrasDict ∅) None Hrun)
    as (dones & extras & Hres).
  rewrite Hres in Hr. subst r. rewrite <- En in Hloop.
  destruct (step_of_loop a s s1 extras dones Hloop)
    as (out & Hstep & Hobs & Hrew & Hterm).
  exists out, dones, extras. rewrite Hstep. simpl. done.
Qed.

Lemma goal_distances_lookup (s : State) i d :
  goal_distances s !! i = Some d <->
  exists g p, _goal_positions s !! i = Some g /\
              robot_position_2d (env s) !! i = Some p /\
              d = norm2 (vsub g p).
Proof.
  unfold goal_distances. rewrite lookup_zip_with_Some.
  split; intros (g & p & H1 & H2 & H3); exists g, p; done.
Qed.

Lemma goal_distances_length (s : State) :
  env_wf (env s) -> length (_goal_positions s) = num_envs (env s) ->
  length (goal_distances s) = num_envs (env s).
Proof.
  intros (_ & Hp & _) Hg. unfold goal_distances, robot_position_2d.
  rewrite length_zip_with, length_map. lia.
Qed.

(** Everything a valid call returns, in terms of the state [s1] its
    run leaves and the dones of the last low-level step. *)
Lemma step_valid a (s : State) :
  valid_call s a ->
  exists s1 tr dones extras out,
    run (normalize_action (num_envs (env s)) a)
        (Z.to_nat (decimation s)) s tr s1 /\
    loop_result (ExtrasDict ∅) None tr = (extras, Some dones) /\
    length dones = num_envs (env s) /\
    length (goal_distances s1) = num_envs (env s) /\
    _prev_distance_to_goal s1 = _prev_distance_to_goal s /\
    _goal_positions s1 = _goal_positions s /\
    hstep a s = (set_prev (Some (goal_distances s1)) s1, Ok out) /\
    high_level_reward out =
      zip_with (fun g p => g + 0.5 * p)
        (map (fun d => exp (- d / std ^ 2)) (goal_distances s1))
        (zip_with Rminus
           (match _prev_distance_to_goal s with
            | None => goal_distances s1
            | Some p => p
            end)
           (goal_distances s1)) /\
    high_level_terminated out =
      zip_with orb (map (fun d => Rltb d 0.5) (goal_distances s1))
               (map to_bool dones) /\
    high_level_truncated out = map to_bool dones /\
    info_out out !! "Episode_Reward/progress" =
      Some (VFloat (mean (zip_with Rminus (goal_distances s1) (goal_distances s1)))).
Proof.
  intros (Hdec & Hwf & Hg & Ha).
  destruct (step_total_loop a s Hdec Hwf Ha)
    as (s1 & tr & extras & dones & Hloop & Hrun & Hres).
  destruct (step_of_loop a s s1 extras dones Hloop)
    as (out & Hstep & Hobs & Hrew & Hterm).
  pose proof (run_frame _ _ _ _ _ _ _ _ Hrun) as (Hlen & _ & _ & Hp & Hgoal & _).
  pose proof (run_wf _ _ _ _ _ Hrun Hwf Ha) as (Hwf1 & Hn1 & _ & Hdones).
  exists s1, tr, dones, extras, out.
  split; [done|]. split; [done|]. split.
  { unfold loop_result in Hres.
    destruct (last tr) as [[? [[[? ?] d0] e0]]|] eqn:El; [|discriminate].
    inversion Hres; subst d0 e0.
    apply last_Some_elem_of in El.
    rewrite Forall_forall in Hdones. by apply Hdones in El. }
  split.
  { rewrite goal_distances_length; [done | done | congruence]. }
  split; [done|]. split; [done|]. split; [done|].
  unfold _compute_high_level_rewards, st_bind, st_get, st_put, st_ret in Hrew.
  unfold _compute_high_level_terminations, st_bind, st_get, st_ret in Hterm.
  simpl in Hrew, Hterm. inversion Hrew as [Hr]. inversion Hterm as [[Ht Htr]].
  rewrite Hp. split; [done|]. split; [done|]. split; [done|].
  apply step_spec in Hstep as (sa & tra & da & ea & _ & _ & _ & _ & _ & Hinfo).
  rewrite Hinfo, lookup_insert_ne by done. by rewrite lookup_insert_eq.
Qed.

(** The distance of environment [i], from what the simulator and the
    wrapper store for it. *)
Lemma goal_distance_explicit (s : State) i d :
  goal_distances s !! i = Some d ->
  exists x y z gx gy,
    root_pos_w (env s) !! i = Some (x, y, z) /\
    _goal_positions s !! i = Some (gx, gy) /\
    d = sqrt ((gx - x) * (gx - x) + (gy - y) * (gy - y)).
Proof.
  intros H. apply goal_distances_lookup in H as (g & p & Hg & Hp & ->).
  unfold robot_position_2d in Hp. rewrite list_lookup_fmap in Hp.
  destruct (root_pos_w (env s) !! i) as [[[x y] z]|] eqn:E; [|done].
  simpl in Hp. injection Hp as <-. destruct g as [gx gy].
  exists x, y, z, gx, gy. done.
Qed.


(** C9.  On a valid call the two flag tensors have one entry per
    environment, and wherever truncated is set, terminated is set. *)
Theorem C9_truncated_implies_terminated a (s : State) :
  valid_call s a ->
  exists s' out,
    hstep a s = (s', Ok out) /\
    length (high_level_terminated out) = num_envs (env s) /\
    length (high_level_truncated out) = num_envs (env s) /\
    forall i,
      high_level_truncated out !! i = Some true ->
      high_level_terminated out !! i = Some true.
Proof.
  intros Hv.
  destruct (step_valid a s Hv)
    as (s1 & tr & dones & extras & out & Hrun & Hres & Hld & Hlg & Hp & Hg
        & Hstep & Hrew & Hterm & Htrunc & _).
  eexists _, out. split; [done|].
  split. { rewrite Hterm, length_zip_with, !length_map. lia. }
  split. { rewrite Htrunc, length_map. done. }
  intros i Hi. rewrite Htrunc in Hi. rewrite Hterm.
  destruct (lookup_lt_is_Some_2 (map (fun d => Rltb d 0.5) (goal_distances s1)) i)
    as [b Hb].
  { rewrite length_map, Hlg, <- Hld.
    apply lookup_lt_Some in Hi. by rewrite length_map in Hi. }
  apply lookup_zip_with_Some. exists b, true.
  split; [by rewrite orb_true_r|]. done.
Qed.

(** C10.  On a valid call with at least one environment, the info
    dictionary returned holds exactly 0 under "Episode_Reward/progress". *)
Theorem C10_logged_progress_is_zero a (s : State) :
  valid_call s a -> (0 < num_envs (env s))%nat ->
  exists s' out,
    hstep a s = (s', Ok out) /\
    info_out out !! "Episode_Reward/progress" = Some (VFloat (Finite 0)).
Proof.
  intros Hv Hn.
  destruct (step_valid a s Hv)
    as (s1 & tr & dones & extras & out & Hrun & Hres & Hld & Hlg & Hp & Hg
        & Hstep & Hrew & Hterm & Htrunc & Hinfo).
  eexists _, out. split; [done|].
  rewrite Hinfo, mean_self_minus; [done|].
  intros E. rewrite E in Hlg. simpl in Hlg. lia.
Qed.

Variable env_reset : LowEnv Sim -> LowEnv Sim * (Obs * Extras Other).

(** [reset] leaves no previous distance behind. *)
Lemma reset_prev_none distance angle (s0 s : State) r :
  reset (Act:=Act) env_reset distance angle s0 = (s, Ok r) ->
  _prev_distance_to_goal s = None.
Proof.
  unfold reset, st_bind at 1, st_get at 1.
  destruct (env_reset (env s0)) as [e' [o info]].
  unfold st_bind at 1, st_put at 1, st_bind at 1, st_get at 1, st_bind at 1.
  destruct (_resample_goals _ distance angle (set_env e' s0)) as [s1 [[]|e]];
    [|discriminate].
  unfold st_bind, st_get, st_put, st_ret. intros H. inversion H. done.
Qed.

(** C4.  On a valid call [step] returns one reward per environment,
    and the reward of environment [i] is
    exp(-d / 0.25) + 0.5 * (d_prev - d), where [d] is the Euclidean
    distance in the plane between the position (x, y, z) the simulator
    holds for robot [i] after the low-level steps and the goal (gx, gy)
    stored for it, and [d_prev] is the distance the wrapper had stored
    for [i]; the call stores [d] as the previous distance of the next
    call; and when no previous distance is stored, as after [reset],
    the progress term is zero.  The stored previous distances, when
    there are any, are one per environment, as every reward computation
    leaves them. *)
Theorem C4_reward_is_goal_kernel_plus_half_progress a (s : State) :
  valid_call s a ->
  (forall prev, _prev_distance_to_goal s = Some prev ->
                length prev = num_envs (env s)) ->
  exists s' out ds,
    hstep a s = (s', Ok out) /\
    _goal_positions s' = _goal_positions s /\
    _prev_distance_to_goal s' = Some ds /\
    length ds = num_envs (env s) /\
    length (high_level_reward out) = num_envs (env s) /\
    (forall i, (i < num_envs (env s))%nat ->
       exists x y z gx gy,
         root_pos_w (env s') !! i = Some (x, y, z) /\
         _goal_positions s' !! i = Some (gx, gy) /\
         let d := sqrt ((gx - x) * (gx - x) + (gy - y) * (gy - y)) in
         ds !! i = Some d /\
         match _prev_distance_to_goal s with
         | Some prev =>
             exists d_prev, prev !! i = Some d_prev /\
               high_level_reward out !! i
               = Some (exp (- d / 0.25) + 0.5 * (d_prev - d))
         | None =>
             high_level_reward out !! i = Some (exp (- d / 0.25) + 0.5 * 0)
         end) /\
    (forall s0 distance angle r0,
       reset env_reset distance angle s0 = (s, Ok r0) ->
       forall i, (i < num_envs (env s))%nat ->
         exists x y z gx gy,
           root_pos_w (env s') !! i = Some (x, y, z) /\
           _goal_positions s' !! i = Some (gx, gy) /\
           high_level_reward out !! i
           = Some (exp (- sqrt ((gx - x) * (gx - x) + (gy - y) * (gy - y))
                         / 0.25))).
Proof.
  intros Hv Hprev.
  destruct (step_valid a s Hv)
    as (s1 & tr & dones & extras & out & Hrun & Hres & Hld & Hlg & Hp & Hg
        & Hstep & Hrew & Hterm & Htrunc & _).
  exists (set_prev (Some (goal_distances s1)) s1), out, (goal_distances s1).
  split; [done|]. split; [done|]. split; [done|]. split; [done|].
  assert (Hgen : forall prev i d d_prev,
    goal_distances s1 !! i = Some d -> prev !! i = Some d_prev ->
    zip_with (fun g p => g + 0.5 * p)
      (map (fun d => exp (- d / std ^ 2)) (goal_distances s1))
      (zip_with Rminus prev (goal_distances s1)) !! i
    = Some (exp (- d / 0.25) + 0.5 * (d_prev - d))).
  { intros prev i d d_prev Hd Hdp. apply lookup_zip_with_Some.
    exists (exp (- d / std ^ 2)), (d_prev - d).
    split; [by rewrite std_sq|]. split.
    - by rewrite list_lookup_fmap, Hd.
    - apply lookup_zip_with_Some. eauto. }
  assert (Hnone : _prev_distance_to_goal s = None ->
    forall i d, goal_distances s1 !! i = Some d ->
    high_level_reward out !! i = Some (exp (- d / 0.25) + 0.5 * 0)).
  { intros E i d Hd. rewrite Hrew, E.
    rewrite (Hgen (goal_distances s1) i d d Hd Hd). do 2 f_equal. lra. }
  split.
  { rewrite Hrew, !length_zip_with, length_map.
    destruct (_prev_distance_to_goal s) as [prev|] eqn:E.
    - rewrite (Hprev prev eq_refl). lia.
    - lia. }
  split.
  - intros i Hi.
    destruct (lookup_lt_is_Some_2 (goal_distances s1) i) as [d Hd]; [lia|].
    destruct (goal_distance_explicit s1 i d Hd)
      as (x & y & z & gx & gy & Hpos & Hgoal & Hdist).
    exists x, y, z, gx, gy. split; [done|]. split; [done|].
    cbv zeta. rewrite <- Hdist. split; [done|].
    destruct (_prev_distance_to_goal s) as [prev|] eqn:E.
    + destruct (lookup_lt_is_Some_2 prev i) as [d_prev Hdp];
        [rewrite (Hprev prev eq_refl); lia|].
      exists d_prev. split; [done|]. rewrite Hrew. by apply Hgen.
    + by apply Hnone.
  - intros s0 distance angle r0 Hreset i Hi.
    destruct (lookup_lt_is_Some_2 (goal_distances s1) i) as [d Hd]; [lia|].
    destruct (goal_distance_explicit s1 i d Hd)
      as (x & y & z & gx & gy & Hpos & Hgoal & Hdist).
    exists x, y, z, gx, gy. split; [done|]. split; [done|].
    rewrite <- Hdist.
    apply reset_prev_none in Hreset.
    rewrite (Hnone Hreset i d Hd). f_equal. lra.
Qed.

End StepTotal.

(** ** Goal resampling *)

Lemma index_put_col0_alter_col1 y i : forall ids xs t,
  index_put_col0 (alter (fun p => (p.1, y)) i t) ids xs
  = alter (fun p => (p.1, y)) i (index_put_col0 t ids xs).
Proof.
  unfold index_put_col0.
  induction ids as [|j ids IH]; intros [|x xs] t; simpl; try done.
  rewrite <- IH. f_equal.
  destruct (decide (j = i)) as [->|Hne].
  - rewrite !list_alter_alter_eq. by apply list_alter_ext.
  - by rewrite list_alter_alter_ne.
Qed.

Lemma index_put_fuse : forall ids xs ys t,
  length xs = length ids -> length ys = length ids ->
  index_put_col1 (index_put_col0 t ids xs) ids ys
  = put_rows t (zip ids (zip xs ys)).
Proof.
  induction ids as [|i ids IH]; intros [|x xs] [|y ys] t Hx Hy;
    simpl in *; try done.
  unfold index_put_col1, index_put_col0, put_rows in *. simpl.
  specialize (IH xs ys (alter (fun _ => (x, y)) i t)).
  rewrite <- IH by lia.
  pose proof (index_put_col0_alter_col1 y i ids xs
                (alter (fun p => (x, p.2)) i t)) as Hc.
  unfold index_put_col0 in Hc. rewrite <- Hc.
  do 2 f_equal. rewrite list_alter_alter_eq. by apply list_alter_ext.
Qed.

(** After the writes, every written index holds a value that was
    written to it. *)
Lemma put_rows_invariant (P : nat -> R * R -> Prop) : forall l t,
  Forall (fun iv => (iv.1 < length t)%nat /\ P iv.1 iv.2) l ->
  length (put_rows t l) = length t /\
  forall i, i ∈ map fst l ->
            exists g, put_rows t l !! i = Some g /\ P i g.
Proof.
  induction l as [|[j v] l IH] using rev_ind; intros t Hall.
  - split; [done|]. intros i Hi. simpl in Hi. by apply elem_of_nil in Hi.
  - apply Forall_app in Hall as [Hl Hjv].
    apply Forall_singleton in Hjv as [Hj Hv]. simpl in Hj, Hv.
    destruct (IH t Hl) as [Hlen Hinv].
    unfold put_rows in *. rewrite fold_left_app. simpl.
    split; [by rewrite length_alter|].
    intros i Hi. rewrite map_app in Hi. simpl in Hi.
    destruct (decide (j = i)) as [->|Hne].
    + rewrite list_lookup_alter_eq.
      destruct (lookup_lt_is_Some_2 (fold_left
                  (fun acc iv => alter (fun _ => iv.2) iv.1 acc) l t) i)
        as [g0 Hg0]; [lia|].
      rewrite Hg0. simpl. eauto.
    + rewrite list_lookup_alter_ne by done.
      apply elem_of_app in Hi as [Hi|Hi]; [by apply Hinv|].
      apply list_elem_of_singleton in Hi. congruence.
Qed.

(** A goal placed at distance [d] and angle [a] from a point is at
    Euclidean distance |d| from it. *)
Lemma norm2_polar_offset (x y d a : R) :
  norm2 (vsub (x + d * cos a, y + d * sin a) (x, y)) = Rabs d.
Proof.
  unfold norm2, vsub. simpl. rewrite <- sqrt_Rsqr_abs. f_equal.
  pose proof (sin2_cos2 a) as H. unfold Rsqr in *.
  replace ((x + d * cos a - x) * (x + d * cos a - x)
           + (y + d * sin a - y) * (y + d * sin a - y))
    with (d * d * (sin a * sin a + cos a * cos a)) by ring.
  rewrite H. ring.
Qed.

Lemma norm_index_lt n id i : norm_index n id = Some i -> (i < n)%nat.
Proof.
  unfold norm_index. repeat case_decide; intros [= <-]; lia.
Qed.

Lemma gather_rows (pos : list (R * R * R)) : forall ids,
  Forall (fun i => (i < length pos)%nat) ids ->
  Forall2 (fun i r => exists p, pos !! i = Some p /\ r = (p.1.1, p.1.2)) ids
          (omap (fun i => (fun p => (p.1.1, p.1.2)) <$> pos !! i) ids).
Proof.
  induction ids as [|i ids IH]; intros Hall; simpl; [constructor|].
  inversion Hall as [|? ? Hi Hrest]; subst.
  destruct (lookup_lt_is_Some_2 pos i Hi) as [p Hp]. rewrite Hp. simpl.
  constructor; [eauto | by apply IH].
Qed.

(** When the resampling returns, every index it was given holds a goal
    whose distance from the robot of that index is the absolute value of
    a drawn distance: within the bounds of the draw when these are not
    negative. *)
Lemma resample_body_spec pos goals env_ids distance angle lo hi goals' :
  0 <= lo ->
  length goals = length pos ->
  uniform_draw lo hi (length env_ids) distance ->
  uniform_draw (- PI) PI (length env_ids) angle ->
  resample_body pos goals env_ids distance angle = Ok goals' ->
  length goals' = length goals /\
  forall id, id ∈ env_ids ->
    exists i p g,
      norm_index (length pos) id = Some i /\
      pos !! i = Some p /\ goals' !! i = Some g /\
      lo <= norm2 (vsub g (p.1.1, p.1.2)) <= hi.
Proof.
  intros Hlo Hlen [Hdl Hdr] [Hal _] H. unfold resample_body in H.
  rewrite Hlen in H.
  destruct (norm_indices (length pos) env_ids) as [ids|] eqn:Hids; [|discriminate].
  inversion H as [Hg]; clear H.
  apply mapM_Some_1 in Hids.
  pose proof (Forall2_length _ _ _ Hids) as Hil.
  assert (Hlt : Forall (fun i => (i < length pos)%nat) ids).
  { apply Forall_forall. intros i Hi.
    apply list_elem_of_lookup in Hi as [k Hk].
    destruct (Forall2_lookup_r _ _ _ _ _ Hids Hk) as (id & _ & Hn).
    by apply norm_index_lt in Hn. }
  pose proof (gather_rows pos ids Hlt) as Hrp.
  set (rp := omap (fun i => (fun p => (p.1.1, p.1.2)) <$> pos !! i) ids) in *.
  pose proof (Forall2_length _ _ _ Hrp) as Hrl.
  set (gx := zip_with Rplus (map fst rp)
               (zip_with (fun d a => d * cos a) distance angle)) in *.
  set (gy := zip_with Rplus (map snd rp)
               (zip_with (fun d a => d * sin a) distance angle)) in *.
  assert (Hgx : length gx = length ids).
  { unfold gx. rewrite !length_zip_with, length_map. lia. }
  assert (Hgy : length gy = length ids).
  { unfold gy. rewrite !length_zip_with, length_map. lia. }
  rewrite index_put_fuse by done.
  set (P := fun (i : nat) (g : R * R) =>
              exists p, pos !! i = Some p /\
                        lo <= norm2 (vsub g (p.1.1, p.1.2)) <= hi).
  destruct (put_rows_invariant P (zip ids (zip gx gy)) goals) as [Hlen' Hinv].
  { apply Forall_lookup. intros k [i [vx vy]] Hk.
    apply lookup_zip_Some in Hk as [Hi Hv].
    apply lookup_zip_Some in Hv as [Hvx Hvy].
    unfold gx in Hvx. unfold gy in Hvy.
    apply lookup_zip_with_Some in Hvx as (rx & tx & -> & Hrx & Htx).
    apply lookup_zip_with_Some in Hvy as (ry & ty & -> & Hry & Hty).
    apply lookup_zip_with_Some in Htx as (d & a & -> & Hd & Ha).
    apply lookup_zip_with_Some in Hty as (d' & a' & -> & Hd' & Ha').
    rewrite Hd in Hd'. rewrite Ha in Ha'. inversion Hd'; inversion Ha'; subst d' a'.
    rewrite list_lookup_fmap in Hrx, Hry.
    destruct (rp !! k) as [r|] eqn:Hr; [|discriminate].
    simpl in Hrx, Hry. inversion Hrx; inversion Hry; subst rx ry.
    destruct (Forall2_lookup_lr _ _ _ _ _ _ Hrp Hi Hr) as (p & Hp & ->).
    simpl. split.
    - rewrite Hlen. by apply lookup_lt_Some in Hp.
    - exists p. split; [done|]. simpl.
      rewrite norm2_polar_offset.
      rewrite Forall_lookup in Hdr. specialize (Hdr k d Hd). simpl in Hdr.
      rewrite Rabs_pos_eq by lra. done. }
  split; [done|].
  intros id Hid. apply list_elem_of_lookup in Hid as [k Hk].
  destruct (Forall2_lookup_l _ _ _ _ _ Hids Hk) as (i & Hi & Hn).
  destruct (Hinv i) as (g & Hg' & p & Hp & Hb).
  { rewrite fst_zip.
    - apply list_elem_of_lookup. eauto.
    - rewrite length_zip. lia. }
  exists i, p, g. done.
Qed.

Lemma resample_body_total pos goals env_ids distance angle :
  length goals = length pos ->
  Forall (fun id => (- Z.of_nat (length pos) <= id < Z.of_nat (length pos))%Z) env_ids ->
  exists goals', resample_body pos goals env_ids distance angle = Ok goals'.
Proof.
  intros Hlen Hall. unfold resample_body. rewrite Hlen.
  assert (Hsome : is_Some (norm_indices (length pos) env_ids)).
  { unfold norm_indices. apply mapM_is_Some. eapply Forall_impl; [exact Hall|].
    intros id Hid. simpl in *. unfold norm_index. repeat case_decide; eauto; lia. }
  destruct Hsome as [ids ->]. eauto.
Qed.

(** C5 (the code departs from the claim for the command term).
    [HierarchicalNavEnv._resample_goals], for in-range environment
    indices, distances drawn from [1, 5] and angles from [-pi, pi],
    returns, and every index given holds a goal whose Euclidean distance
    from that robot's position lies in [1, 5].
    [UniformGoalPositionCommand._resample_command] never gets that far:
    once it has drawn the distances and the angles it reads [self.env],
    an attribute no command term has (the base class keeps [self._env]),
    so on every object, and on every object [__init__] builds, it raises
    AttributeError and leaves the command as it was. *)
Theorem C5_resample_goals_in_range_resample_command_raises :
  (forall (Sim Act : Type) (self : HNav Sim Act) env_ids distance angle,
     _goal_distance_range self = (1.0, 5.0) ->
     length (_goal_positions self) = length (root_pos_w (env self)) ->
     Forall (fun id => (- Z.of_nat (length (root_pos_w (env self))) <= id
                        < Z.of_nat (length (root_pos_w (env self))))%Z) env_ids ->
     uniform_draw (_goal_distance_range self).1 (_goal_distance_range self).2
                  (length env_ids) distance ->
     uniform_draw (- PI) PI (length env_ids) angle ->
     exists self',
       _resample_goals env_ids distance angle self = (self', Ok tt) /\
       env self' = env self /\
       forall id, id ∈ env_ids ->
         exists i p g,
           norm_index (length (root_pos_w (env self))) id = Some i /\
           root_pos_w (env self') !! i = Some p /\
           _goal_positions self' !! i = Some g /\
           1 <= norm2 (vsub g (p.1.1, p.1.2)) <= 5) /\
  (forall (Sim : Type) (self : UniformGoalPositionCommand Sim)
          env_ids distance angle,
     env_attribute self = None ->
     uniform_draw (distance_range (gc_cfg self)).1 (distance_range (gc_cfg self)).2
                  (length env_ids) distance ->
     uniform_draw (- PI) PI (length env_ids) angle ->
     _resample_command env_ids distance angle self
     = (self, Raise AttributeError)) /\
  (forall (Sim : Type) cfg (env : LowEnv Sim) env_ids distance angle,
     uniform_draw (distance_range cfg).1 (distance_range cfg).2
                  (length env_ids) distance ->
     uniform_draw (- PI) PI (length env_ids) angle ->
     _resample_command env_ids distance angle (goal_command_init cfg env)
     = (goal_command_init cfg env, Raise AttributeError)).
Proof.
  split; [|split].
  - intros Sim Act self env_ids distance angle Hrange Hlen Hids Hd Ha.
    destruct (resample_body_total (root_pos_w (env self)) (_goal_positions self)
                env_ids distance angle Hlen Hids) as [goals' Hbody].
    exists (set_goals goals' self).
    unfold _resample_goals, st_bind, st_get, st_lift, st_put. rewrite Hbody.
    split; [done|]. split; [done|].
    rewrite Hrange in Hd. simpl in Hd.
    destruct (resample_body_spec _ _ _ _ _ 1.0 5.0 goals' ltac:(lra) Hlen Hd Ha Hbody)
      as [_ Hspec].
    intros id Hid. destruct (Hspec id Hid) as (i & p & g & Hn & Hp & Hg & Hb).
    exists i, p, g. simpl. repeat split; try done; lra.
  - intros Sim self env_ids distance angle Hnone _ _.
    unfold _resample_command, st_bind, st_get, st_raise. by rewrite Hnone.
  - intros Sim cfg env env_ids distance angle _ _. reflexivity.
Qed.

(** ** The command term around a call of the frozen policy *)

(** C2 (the code departs from the claim).  With a command term of width
    four, whatever the observation manager and the policy are, the
    restoring assignment [cmd_term.command[:, :3] = original_cmd] raises:
    the callers get no actions and the command term keeps the velocity
    command in its first three columns. *)
Theorem C2_wide_command_not_restored :
  forall (Obs Act : Type)
         (observation_manager_compute : LowEnv unit -> unit * Obs)
         (inference_policy : Obs -> Act),
    let r := frozen_call observation_manager_compute inference_policy
                         forward_cmd wide_cmd_env in
    r.2 = Raise RuntimeError /\
    base_velocity r.1 = mkT2 4 [[0.5; 0; 0; 4]] /\
    base_velocity r.1 <> base_velocity wide_cmd_env.
Proof.
  intros Obs Act compute pol. unfold frozen_call, st_bind, st_get, st_put, st_lift.
  simpl.
  destruct (compute _) as [s' obs]. simpl.
  split; [done|]. split; [done|].
  intros H. inversion H as [H1]. lra.
Qed.

(** ** freeze_policy *)

Lemma freeze_param_numel (ps : list Param) :
  map numel (map freeze_param ps) = map numel ps.
Proof. rewrite map_map. done. Qed.

Lemma forallb_frozen (ps : list Param) :
  forallb (fun param => negb (requires_grad param)) (map freeze_param ps) = true.
Proof. induction ps as [|q ps IH]; simpl; done. Qed.

(** C7.  For a runner that has a policy module (under either name),
    [freeze_policy] returns it with every parameter's [requires_grad]
    cleared, so [is_frozen] holds; the parameters are as many as before,
    with the same entries, and [count_parameters] is unchanged. *)
Theorem C7_freeze_policy_freezes_and_keeps_parameters
    (runner : OnPolicyRunner) (p0 : Module) :
  runner_policy runner = Ok p0 ->
  exists p,
    freeze_policy runner = Ok p /\
    Forall (fun q => requires_grad q = false) (parameters p) /\
    is_frozen p = true /\
    length (parameters p) = length (parameters p0) /\
    map p_data (parameters p) = map p_data (parameters p0) /\
    count_parameters p = count_parameters p0.
Proof.
  intros H. unfold freeze_policy. rewrite H. eexists. split; [reflexivity|].
  simpl. repeat split.
  - apply Forall_forall. intros q Hq.
    apply list_elem_of_fmap in Hq as (q0 & -> & _). done.
  - unfold is_frozen. simpl. apply forallb_frozen.
  - by rewrite length_map.
  - rewrite map_map. done.
  - unfold count_parameters. simpl. by rewrite freeze_param_numel.
Qed.

Lemma C7_witness :
  exists p,
    freeze_policy demo_runner = Ok p /\
    Forall (fun q => requires_grad q = false) (parameters p) /\
    is_frozen p = true /\
    length (parameters p) = 2%nat /\
    map p_data (parameters p) = [[1; 2]; [3]] /\
    count_parameters p = 3%nat.
Proof.
  exact (C7_freeze_policy_freezes_and_keeps_parameters demo_runner
           (mkModule true [mkParam [1; 2] true; mkParam [3] false]) eq_refl).
Defined.

(** ** Direction to the goal *)

Lemma norm2_sq (v : R * R) : norm2 v * norm2 v = v.1 * v.1 + v.2 * v.2.
Proof. unfold norm2. apply sqrt_sqrt. nra. Qed.

Lemma unit_or_small_far (v : R * R) :
  1e-6 <= norm2 v -> unit_or_small v = (v.1 / norm2 v, v.2 / norm2 v).
Proof.
  intros H. unfold unit_or_small, clamp_min. by rewrite Rmax_left.
Qed.

(** Rotating by minus the yaw keeps the norm, and rotating back by the
    yaw gives the vector back. *)
Lemma rot_norm (dw : R * R) (yaw : R) :
  rot_x dw yaw * rot_x dw yaw + rot_y dw yaw * rot_y dw yaw
  = dw.1 * dw.1 + dw.2 * dw.2.
Proof.
  unfold rot_x, rot_y. pose proof (sin2_cos2 yaw) as H. unfold Rsqr in H.
  replace ((dw.1 * cos yaw + dw.2 * sin yaw) * (dw.1 * cos yaw + dw.2 * sin yaw)
           + (- dw.1 * sin yaw + dw.2 * cos yaw) * (- dw.1 * sin yaw + dw.2 * cos yaw))
    with ((dw.1 * dw.1 + dw.2 * dw.2) * (sin yaw * sin yaw + cos yaw * cos yaw))
    by ring.
  rewrite H. ring.
Qed.

Lemma rot_back (dw : R * R) (yaw : R) :
  rot_x dw yaw * cos yaw - rot_y dw yaw * sin yaw = dw.1 /\
  rot_x dw yaw * sin yaw + rot_y dw yaw * cos yaw = dw.2.
Proof.
  unfold rot_x, rot_y. pose proof (sin2_cos2 yaw) as H. unfold Rsqr in H.
  split.
  - replace ((dw.1 * cos yaw + dw.2 * sin yaw) * cos yaw
             - (- dw.1 * sin yaw + dw.2 * cos yaw) * sin yaw)
      with (dw.1 * (sin yaw * sin yaw + cos yaw * cos yaw)) by ring.
    rewrite H. ring.
  - replace ((dw.1 * cos yaw + dw.2 * sin yaw) * sin yaw
             + (- dw.1 * sin yaw + dw.2 * cos yaw) * cos yaw)
      with (dw.2 * (sin yaw * sin yaw + cos yaw * cos yaw)) by ring.
    rewrite H. ring.
Qed.

(** The direction entries of a row of the high-level observation: for a
    goal at least 1e-6 away they are the unit vector towards the goal,
    turned by minus the yaw. *)
Lemma obs_row_direction (p : R * R) (yaw : R) (g : R * R) :
  1e-6 <= norm2 (vsub g p) ->
  exists dx dy,
    obs_row p yaw g !! 5%nat = Some (norm2 (vsub g p)) /\
    obs_row p yaw g !! 6%nat = Some dx /\
    obs_row p yaw g !! 7%nat = Some dy /\
    dx * dx + dy * dy = 1 /\
    dx * cos yaw - dy * sin yaw = (g.1 - p.1) / norm2 (vsub g p) /\
    dx * sin yaw + dy * cos yaw = (g.2 - p.2) / norm2 (vsub g p).
Proof.
  intros Hd. unfold obs_row. rewrite unit_or_small_far by done.
  eexists _, _. split; [reflexivity|]. split; [reflexivity|].
  split; [reflexivity|].
  set (d := norm2 (vsub g p)) in *.
  pose proof (norm2_sq (vsub g p)) as Hsq. fold d in Hsq.
  assert (Hpos : 0 < d) by lra.
  split.
  - rewrite rot_norm. simpl. simpl in Hsq.
    replace ((g.1 - p.1) / d * ((g.1 - p.1) / d) + (g.2 - p.2) / d * ((g.2 - p.2) / d))
      with (((g.1 - p.1) * (g.1 - p.1) + (g.2 - p.2) * (g.2 - p.2)) / (d * d))
      by (field; lra).
    rewrite <- Hsq. field. lra.
  - apply (rot_back ((vsub g p).1 / d, (vsub g p).2 / d) yaw).
Qed.

(** Row [i] of the high-level observation is the row of robot [i]. *)
Lemma high_level_obs_row {Sim Act} (self : HNav Sim Act) i row :
  _get_high_level_observations self !! i = Some row ->
  exists p yaw g,
    robot_position_2d (env self) !! i = Some p /\
    robot_yaw (env self) !! i = Some yaw /\
    _goal_positions self !! i = Some g /\
    row = obs_row p yaw g.
Proof.
  unfold _get_high_level_observations. intros H.
  apply lookup_zip_with_Some in H as ([p yaw] & g & -> & Hpy & Hg).
  apply lookup_zip_Some in Hpy as [Hp Hy].
  exists p, yaw, g. done.
Qed.

Lemma quat_yaw_identity : quat_yaw (1, 0, 0, 0) = 0.
Proof.
  unfold quat_yaw, atan2.
  destruct (Rlt_dec 0 (1 - 2 * (0 * 0 + 0 * 0))) as [_|H]; [|exfalso; apply H; lra].
  replace (2 * (1 * 0 + 0 * 0) / (1 - 2 * (0 * 0 + 0 * 0))) with 0 by (field; lra).
  apply atan_0.
Qed.

Lemma quat_yaw_half_turn : quat_yaw (0, 0, 0, 1) = PI.
Proof.
  unfold quat_yaw, atan2.
  destruct (Rlt_dec 0 (1 - 2 * (0 * 0 + 1 * 1))) as [H|_]; [lra|].
  destruct (Rlt_dec (1 - 2 * (0 * 0 + 1 * 1)) 0) as [_|H]; [|exfalso; apply H; lra].
  destruct (Rle_dec 0 (2 * (0 * 1 + 0 * 0))) as [_|H]; [|exfalso; apply H; lra].
  replace (2 * (0 * 1 + 0 * 0) / (1 - 2 * (0 * 0 + 1 * 1))) with 0 by (field; lra).
  rewrite atan_0. lra.
Qed.

Lemma unit_or_small_e1 : unit_or_small (vsub (1, 0) (0, 0)) = (1, 0).
Proof.
  assert (Hn : norm2 (vsub (1, 0) (0, 0)) = 1).
  { unfold norm2, vsub. simpl.
    replace ((1 - 0) * (1 - 0) + (0 - 0) * (0 - 0)) with 1 by ring.
    apply sqrt_1. }
  rewrite unit_or_small_far by (rewrite Hn; lra).
  rewrite Hn. simpl. f_equal; field.
Qed.

(** Every row of [direction_to_goal] holds one x-entry and one y-entry
    per environment: its width is twice the number of environments. *)
Lemma direction_to_goal_row_width {Sim} (v : NavView Sim) i row :
  direction_to_goal v !! i = Some row ->
  length row = (2 * length (root_quat_w (nv_env v)))%nat.
Proof.
  unfold direction_to_goal. intros H.
  apply lookup_zip_with_Some in H as (xs & ys & -> & Hx & Hy).
  rewrite list_lookup_fmap in Hx, Hy.
  destruct (map unit_or_small _ !! i) as [dw|]; [|done].
  simpl in Hx, Hy. inversion Hx; inversion Hy; subst.
  rewrite length_app, !length_map. lia.
Qed.

(** C6 (the code departs from the claim).  For two robots at the origin
    with yaw 0 and yaw pi and the goal (1, 0), one unit away from both,
    [direction_to_goal] returns rows of width four, not two; the two
    leading entries of the second robot's row are (1, -1), which is not
    of unit norm and is not (-1, 0), the unit vector to the goal turned
    by minus that robot's yaw. *)
Theorem C6_direction_to_goal_mixes_environments :
  distance_to_goal two_robot_view
    = [norm2 (vsub (1, 0) (0, 0)); norm2 (vsub (1, 0) (0, 0))] /\
  1e-6 <= norm2 (vsub (1, 0) (0, 0)) /\
  robot_yaw (nv_env two_robot_view) = [0; PI] /\
  direction_to_goal two_robot_view = [[1; -1; 0; 0]; [1; -1; 0; 0]] /\
  1 * 1 + (-1) * (-1) <> 1 /\
  (rot_x (1, 0) PI, rot_y (1, 0) PI) = (-1, 0).
Proof.
  split; [done|]. split.
  { unfold norm2, vsub. simpl.
    replace ((1 - 0) * (1 - 0) + (0 - 0) * (0 - 0)) with 1 by ring.
    rewrite sqrt_1. lra. }
  split.
  { cbv [robot_yaw two_robot_view nv_env root_quat_w map].
    by rewrite quat_yaw_identity, quat_yaw_half_turn. }
  split.
  { cbv [direction_to_goal two_robot_view nv_env goal_position_2d
         goal_position_command robot_position_2d root_pos_w root_quat_w
         map zip_with app fst snd].
    rewrite quat_yaw_identity, quat_yaw_half_turn, unit_or_small_e1.
    unfold rot_x, rot_y. simpl. rewrite cos_0, sin_0, cos_PI, sin_PI.
    repeat f_equal; ring. }
  split; [lra|].
  unfold rot_x, rot_y. simpl. rewrite cos_PI, sin_PI. f_equal; ring.
Qed.

(** ** Perlin terrain *)

Lemma expand_dim_length {A} (n : nat) (l l' : list A) :
  expand_dim n l = Some l' -> length l' = n.
Proof.
  unfold expand_dim. case_decide.
  - by intros [= <-].
  - destruct l as [|x [|y l]]; intros [= <-]. apply length_replicate.
Qed.

Lemma broadcast_to_length {A} (n w : nat) (x : Tensor2 A) b :
  broadcast_to n w x = Some b -> length b = n.
Proof.
  unfold broadcast_to. repeat case_decide; try done.
  - apply expand_dim_length.
  - destruct (expand_dim n (t_rows x)) as [rs|] eqn:E; intros [= <-].
    rewrite length_map. by apply expand_dim_length in E.
Qed.

Lemma iadd_shape (noise x noise' : Tensor2 R) :
  iadd noise x = Ok noise' ->
  t_nrows noise' = t_nrows noise /\ t_cols noise' = t_cols noise.
Proof.
  unfold iadd.
  destruct (broadcast_to (t_nrows noise) (t_cols noise) x) as [b|] eqn:E;
    intros [= <-].
  apply broadcast_to_length in E. unfold t_nrows in *. simpl.
  rewrite length_zip_with. split; [lia | done].
Qed.

Lemma r_bind_Ok {A B} (r : result A) (k : A -> result B) b :
  r_bind r k = Ok b <-> exists a, r = Ok a /\ k a = Ok b.
Proof.
  destruct r as [a|e]; simpl.
  - split; [eauto|]. by intros (a' & [= <-] & H).
  - split; [done|]. by intros (a' & H & _).
Qed.

(** One octave of the loop that returns. *)
Lemma fractal_loop_step rand shape lac gain zs n k xs ys amp noise r :
  fractal_loop (S n) k rand shape xs ys amp lac gain zs noise = Ok r ->
  exists p noise' xs' ys',
    generate_perlin_noise_2d (rand k) shape (xs, ys) = Ok p /\
    iadd noise (tmap (fun v => amp * v * IZR zs) p) = Ok noise' /\
    next_scale lac xs = Ok xs' /\ next_scale lac ys = Ok ys' /\
    fractal_loop n (S k) rand shape xs' ys' (amp * Q2R gain) lac gain zs noise'
    = Ok r.
Proof.
  cbn [fractal_loop]. intros H.
  apply r_bind_Ok in H as (p & Hp & H).
  apply r_bind_Ok in H as (noise' & Hadd & H).
  apply r_bind_Ok in H as (xs' & Hxs & H).
  apply r_bind_Ok in H as (ys' & Hys & H).
  by exists p, noise', xs', ys'.
Qed.

(** The octaves are added in place: the noise keeps its shape. *)
Lemma fractal_loop_shape rand shape lac gain zs : forall n k xs ys amp noise r,
  fractal_loop n k rand shape xs ys amp lac gain zs noise = Ok r ->
  t_nrows r = t_nrows noise /\ t_cols r = t_cols noise.
Proof.
  induction n as [|n IH]; intros k xs ys amp noise r H.
  - by inversion H.
  - apply fractal_loop_step in H as (p & noise' & xs' & ys' & _ & Hadd & _ & _ & H).
    apply IH in H as [H1 H2]. apply iadd_shape in Hadd as [H3 H4].
    split; congruence.
Qed.

(** What [perlin_terrain] computed when it returns. *)
Lemma perlin_terrain_Ok rand cfg h :
  perlin_terrain rand cfg = Ok h ->
  exists wp lp hs xSize ySize freq noise,
    width_pixels cfg = Ok wp /\ length_pixels cfg = Ok lp /\
    height_scale cfg = Ok hs /\
    py_int (float_of_Q (size cfg).1) = Ok xSize /\
    py_int (float_of_Q (size cfg).2) = Ok ySize /\
    py_int (float_of_Q (frequency cfg)) = Ok freq /\
    (0 <= wp)%Z /\ (0 <= lp)%Z /\
    fractal_loop (Z.to_nat (fractal_octaves cfg)) 0 rand (wp, lp)
      (freq * xSize) (freq * ySize) 1
      (float_of_Q (fractal_lacunarity cfg)) (fractal_gain cfg) hs
      (mkT2 (Z.to_nat lp)
            (replicate (Z.to_nat wp) (replicate (Z.to_nat lp) 0)))
    = Ok noise /\
    h = tmap (fun v => to_int16 (rint v)) noise.
Proof.
  unfold perlin_terrain. intros H.
  apply r_bind_Ok in H as (wp & Hw & H).
  apply r_bind_Ok in H as (lp & Hl & H).
  apply r_bind_Ok in H as (hs & Hh & H).
  apply r_bind_Ok in H as (xSize & Hx & H).
  apply r_bind_Ok in H as (ySize & Hy & H).
  apply r_bind_Ok in H as (freq & Hf & H).
  apply r_bind_Ok in H as (noise & Hn & H).
  injection H as <-.
  unfold generate_fractal_noise_2d in Hn.
  destruct ((wp <? 0) || (lp <? 0))%Z eqn:E; [done|].
  apply orb_false_iff in E as [E1 E2]. apply Z.ltb_ge in E1, E2.
  by exists wp, lp, hs, xSize, ySize, freq, noise.
Qed.

(** When [perlin_terrain] returns, the height field has
    int(size[0] / horizontal_scale) rows and
    int(size[1] / horizontal_scale) columns. *)
Lemma perlin_terrain_shape rand cfg h :
  perlin_terrain rand cfg = Ok h ->
  exists wp lp,
    width_pixels cfg = Ok wp /\ length_pixels cfg = Ok lp /\
    t_nrows h = Z.to_nat wp /\
    t_cols h = Z.to_nat lp.
Proof.
  intros H.
  apply perlin_terrain_Ok in H
    as (wp & lp & hs & xSize & ySize & freq & noise
        & Hw & Hl & _ & _ & _ & _ & _ & _ & E & ->).
  exists wp, lp. split; [done|]. split; [done|].
  apply fractal_loop_shape in E as [H1 H2].
  unfold tmap, t_nrows in *. simpl in *.
  rewrite length_map, H1, length_replicate. done.
Qed.

Lemma product_dim_pos_some (shape res : Z) n :
  (0 < shape)%Z -> (0 < res)%Z ->
  product_dim shape res = Some n ->
  n = Z.to_nat shape \/ n = 0%nat.
Proof.
  intros Hs Hr. unfold product_dim.
  destruct (res * (shape / res) =? shape)%Z eqn:E.
  - intros [= <-]. by left.
  - destruct (shape =? 1)%Z eqn:E1; [|done]. intros [= <-].
    apply Z.eqb_eq in E1. subst shape. apply Z.eqb_neq in E.
    right. destruct (decide (res = 1%Z)) as [->|Hne]; [done|].
    rewrite Z.div_small by lia. by rewrite Z.mul_0_r.
Qed.

(** When an octave is added, it had the shape of the noise, and every
    entry grows by the weighted Perlin value. *)
Lemma octave_added rand shape res amp zs (noise noise' : Tensor2 R) p :
  t_nrows noise = Z.to_nat shape.1 -> t_cols noise = Z.to_nat shape.2 ->
  t_wf noise ->
  generate_perlin_noise_2d rand shape res = Ok p ->
  iadd noise (tmap (fun v => amp * v * IZR zs) p) = Ok noise' ->
  t_nrows noise' = t_nrows noise /\ t_cols noise' = t_cols noise /\
  t_wf noise' /\
  forall i j row v,
    t_rows noise' !! i = Some row -> row !! j = Some v ->
    exists row0 v0,
      t_rows noise !! i = Some row0 /\ row0 !! j = Some v0 /\
      v = v0 + amp * perlin_entry rand shape res i j * IZR zs.
Proof.
  intros Hn Hc Hwf Hp Hadd.
  unfold generate_perlin_noise_2d in Hp.
  destruct ((shape.1 =? 0) || (shape.2 =? 0))%Z eqn:E0; [done|].
  destruct ((res.1 =? 0) || (res.2 =? 0))%Z eqn:E1; [done|].
  destruct ((shape.1 <? 0) || (shape.2 <? 0) || (res.1 <? 0) || (res.2 <? 0))%Z
    eqn:E2; [done|].
  apply orb_false_iff in E0 as [E0a E0b]. apply orb_false_iff in E1 as [E1a E1b].
  apply orb_false_iff in E2 as [E2 E2d]. apply orb_false_iff in E2 as [E2 E2c].
  apply orb_false_iff in E2 as [E2a E2b].
  apply Z.eqb_neq in E0a, E0b, E1a, E1b. apply Z.ltb_ge in E2a, E2b, E2c, E2d.
  destruct (product_dim shape.1 res.1) as [n0|] eqn:P0; [|done].
  destruct (product_dim shape.2 res.2) as [n1|] eqn:P1; [|done].
  inversion Hp; subst p; clear Hp.
  apply product_dim_pos_some in P0; [|lia|lia].
  apply product_dim_pos_some in P1; [|lia|lia].
  unfold iadd in Hadd.
  destruct (broadcast_to _ _ _) as [b|] eqn:Hb; [|done].
  inversion Hadd; subst noise'; clear Hadd.
  unfold broadcast_to, tmap in Hb. simpl in Hb.
  assert (n1 = t_cols noise) as ->.
  { destruct P1 as [->| ->]; [congruence|].
    repeat case_decide; try done; lia. }
  destruct (decide (t_cols noise = t_cols noise)) as [_|]; [|done].
  unfold expand_dim in Hb. rewrite !length_map, length_seq in Hb.
  assert (n0 = t_nrows noise) as ->.
  { destruct P0 as [->| ->]; [congruence|].
    case_decide; [done|]. simpl in Hb. done. }
  destruct (decide (t_nrows noise = t_nrows noise)) as [_|]; [|done].
  inversion Hb; subst b; clear Hb.
  unfold t_nrows, t_wf in *. simpl.
  split. { rewrite length_zip_with, !length_map, length_seq. lia. }
  split; [done|]. split.
  { apply Forall_lookup. intros i row Hrow.
    apply lookup_zip_with_Some in Hrow as (r0 & r1 & -> & Hr0 & Hr1).
    rewrite Forall_lookup in Hwf. specialize (Hwf i r0 Hr0). simpl in Hwf.
    rewrite !list_lookup_fmap in Hr1.
    destruct (seq 0 (length (t_rows noise)) !! i) as [i'|]; [|done].
    simpl in Hr1. inversion Hr1; subst r1.
    rewrite length_zip_with, !length_map, length_seq. lia. }
  intros i j row v Hrow Hv.
  apply lookup_zip_with_Some in Hrow as (r0 & r1 & -> & Hr0 & Hr1).
  apply lookup_zip_with_Some in Hv as (v0 & v1 & -> & Hv0 & Hv1).
  exists r0, v0. split; [done|]. split; [done|]. f_equal.
  rewrite !list_lookup_fmap in Hr1.
  destruct (seq 0 (length (t_rows noise)) !! i) as [i'|] eqn:Hi; [|done].
  apply lookup_seq in Hi as [-> _]. simpl in Hr1. inversion Hr1; subst r1.
  rewrite !list_lookup_fmap in Hv1.
  destruct (seq 0 (t_cols noise) !! j) as [j'|] eqn:Hj; [|done].
  apply lookup_seq in Hj as [-> _]. simpl in Hv1. by inversion Hv1.
Qed.



(** The scalars of the two sample configurations, as Python computes
    them. *)
Lemma fractional_size_scalars :
  width_pixels fractional_size_cfg = Ok 5%Z /\
  length_pixels fractional_size_cfg = Ok 5%Z /\
  height_scale fractional_size_cfg = Ok 46%Z /\
  py_int (float_of_Q (size fractional_size_cfg).1) = Ok 2%Z /\
  py_int (float_of_Q (size fractional_size_cfg).2) = Ok 2%Z /\
  py_int (float_of_Q (frequency fractional_size_cfg)) = Ok 1%Z.
Proof. vm_compute. done. Qed.

Lemma dividing_scalars :
  width_pixels dividing_cfg = Ok 16%Z /\
  length_pixels dividing_cfg = Ok 16%Z /\
  height_scale dividing_cfg = Ok 46%Z /\
  py_int (float_of_Q (size dividing_cfg).1) = Ok 8%Z /\
  py_int (float_of_Q (size dividing_cfg).2) = Ok 8%Z /\
  py_int (float_of_Q (frequency dividing_cfg)) = Ok 1%Z /\
  next_scale (float_of_Q (fractal_lacunarity dividing_cfg)) 8 = Ok 16%Z /\
  next_scale (float_of_Q (fractal_lacunarity dividing_cfg)) 16 = Ok 32%Z.
Proof. vm_compute. done. Qed.

(** C8 (the code departs from the claim).  For a terrain 2.5 m wide
    sampled every 0.5 m, whatever the random gradients are,
    [perlin_terrain] returns no height field: the 5 grid points per axis
    do not match the 4 repeated gradients, and numpy raises. *)
Theorem C8_perlin_terrain_raises_for_fractional_size :
  forall rand : nat -> nat -> nat -> R,
    perlin_terrain rand fractional_size_cfg = Raise ValueError.
Proof.
  intros rand.
  destruct fractional_size_scalars as (Hw & Hl & Hh & Hx & Hy & Hf).
  unfold perlin_terrain. rewrite Hw, Hl, Hh, Hx, Hy, Hf. reflexivity.
Qed.

(** * The one-robot world: the theorems at a concrete call *)

(** The demo simulator keeps its shapes; the demo call is valid. *)
Ltac demo_sim_wf :=
  let e := fresh "e" in
  let a := fresh "a" in
  let H := fresh "H" in
  intros e a H; simpl; repeat split; try apply H; apply length_replicate.

Ltac demo_shapes :=
  unfold valid_call, env_wf, cmd_shape_ok, has_shape, t_wf, t_nrows; simpl;
  repeat split; try lia; repeat constructor.

Lemma C1_witness :
  env_wf (env demo_state) /\
  exists tr : list (Tensor2 R * (Tensor2 R * list R * list Z * Extras unit)),
    length tr = 10%nat /\
    low_step_log
      (step demo_compute demo_policy demo_env_step demo_action demo_state).1
    = map fst tr /\
    Forall (fun act => exists e, env_wf e /\
              act = demo_policy (demo_compute
                      (set_base_velocity (mkT2 3 [[0.5; 0; 0]]) e)).2)
           (map fst tr).
Proof.
  split; [demo_shapes|].
  destruct (C1_step_runs_decimation_low_level_steps
              demo_compute demo_policy demo_env_step
              ltac:(demo_sim_wf) demo_action demo_state
              ltac:(demo_shapes) ltac:(demo_shapes))
    as (tr & s1 & _ & Hlen & Hlog & Hall & _).
  exists tr. split; [exact Hlen|]. split; [exact Hlog | exact Hall].
Defined.


Lemma C4_witness :
  valid_call demo_state demo_action /\
  exists s' out,
    step demo_compute demo_policy demo_env_step demo_action demo_state
    = (s', Ok out) /\
    length (high_level_reward out) = 1%nat /\
    root_pos_w (env s') !! 0%nat = Some (0, 0, 0) /\
    _goal_positions s' !! 0%nat = Some (3, 4) /\
    high_level_reward out !! 0%nat
    = Some (exp (- sqrt ((3 - 0) * (3 - 0) + (4 - 0) * (4 - 0)) / 0.25)
            + 0.5 * 0) /\
    exists ds,
      _prev_distance_to_goal s' = Some ds /\
      ds !! 0%nat = Some (sqrt ((3 - 0) * (3 - 0) + (4 - 0) * (4 - 0))).
Proof.
  split; [demo_shapes|].
  destruct (C4_reward_is_goal_kernel_plus_half_progress
              demo_compute demo_policy demo_env_step
              ltac:(demo_sim_wf) demo_env_reset demo_action demo_state
              ltac:(demo_shapes) ltac:(intros prev H; discriminate H))
    as (s' & out & ds & Hstep & Hgoals & Hprev & _ & Hlen & Hall & _).
  destruct (Hall 0%nat ltac:(simpl; lia))
    as (x & y & z & gx & gy & Hpos & Hg & Hds & Hrew).
  assert (Henv : root_pos_w (env s') = [(0, 0, 0)]).
  { change s' with (s', @Ok (StepOut unit) out).1. rewrite <- Hstep. reflexivity. }
  rewrite Henv in Hpos. rewrite Hgoals in Hg. simpl in Hpos, Hg, Hrew.
  injection Hpos as <- <- <-. injection Hg as <- <-.
  exists s', out. split; [exact Hstep|]. split; [exact Hlen|].
  split; [by rewrite Henv|]. split; [by rewrite Hgoals|].
  split; [exact Hrew|]. exists ds. split; [exact Hprev | exact Hds].
Defined.

Lemma C9_witness :
  valid_call demo_state demo_action /\
  exists s' out,
    step demo_compute demo_policy demo_env_step demo_action demo_state
    = (s', Ok out) /\
    forall i,
      high_level_truncated out !! i = Some true ->
      high_level_terminated out !! i = Some true.
Proof.
  split; [demo_shapes|].
  destruct (C9_truncated_implies_terminated
              demo_compute demo_policy demo_env_step
              ltac:(demo_sim_wf) demo_action demo_state ltac:(demo_shapes))
    as (s' & out & Hstep & _ & _ & Himp).
  exists s', out. split; [exact Hstep | exact Himp].
Defined.

Lemma C10_witness :
  valid_call demo_state demo_action /\
  (0 < num_envs (env demo_state))%nat /\
  exists s' out,
    step demo_compute demo_policy demo_env_step demo_action demo_state
    = (s', Ok out) /\
    info_out out !! "Episode_Reward/progress" = Some (VFloat (Finite 0)).
Proof.
  split; [demo_shapes|]. split; [simpl; lia|].
  exact (C10_logged_progress_is_zero
           demo_compute demo_policy demo_env_step
           ltac:(demo_sim_wf) demo_action demo_state
           ltac:(demo_shapes) ltac:(simpl; lia)).
Defined.

Ltac demo_draw :=
  unfold uniform_draw; simpl; split; [reflexivity|];
  repeat constructor; simpl; try lra;
  pose proof PI_RGT_0; lra.

Lemma C5_witness :
  (uniform_draw 1.0 5.0 1 [2] /\ uniform_draw (- PI) PI 1 [0]) /\
  (exists self',
     _resample_goals (Sim:=unit) (Act:=Tensor2 R) [0%Z] [2] [0] demo_state
     = (self', Ok tt) /\
     forall id, id ∈ [0%Z] ->
       exists i p g,
         norm_index 1 id = Some i /\
         root_pos_w (env self') !! i = Some p /\
         _goal_positions self' !! i = Some g /\
         1 <= norm2 (vsub g (p.1.1, p.1.2)) <= 5) /\
  _resample_command (Sim:=unit) [0%Z] [2] [0] demo_goal_cmd
  = (demo_goal_cmd, Raise AttributeError).
Proof.
  split; [split; demo_draw|]. split.
  - destruct (proj1 C5_resample_goals_in_range_resample_command_raises
                unit (Tensor2 R) demo_state [0%Z] [2] [0]
                eq_refl eq_refl
                ltac:(repeat constructor; simpl; lia)
                ltac:(demo_draw) ltac:(demo_draw))
      as (self' & Hrun & _ & Hprop).
    exists self'. split; [exact Hrun | exact Hprop].
  - exact (proj1 (proj2 C5_resample_goals_in_range_resample_command_raises)
             unit demo_goal_cmd [0%Z] [2] [0] eq_refl
             ltac:(demo_draw) ltac:(demo_draw)).
Defined.

(** * Further properties of the code *)

(** ** HierarchicalNavEnv.step, whatever it is given *)

Section StepAlways.
Context {Sim Obs Act Other : Type}.
Variable observation_manager_compute : LowEnv Sim -> Sim * Obs.
Variable inference_policy : Obs -> Act.
Variable env_step :
  LowEnv Sim -> Act -> LowEnv Sim * (Obs * list R * list Z * Extras Other).

Abbreviation State := (HNav Sim Act).
Abbreviation loop :=
  (decimation_loop observation_manager_compute inference_policy env_step).
Abbreviation hstep :=
  (step observation_manager_compute inference_policy env_step).

(** One iteration of the loop. *)
Lemma loop_unfold action n (s : State) info ld :
  loop (S n) action info ld s =
  match frozen_call observation_manager_compute inference_policy action (env s) with
  | (e1, Ok a) =>
      loop n action (env_step e1 a).2.2 (Some (env_step e1 a).2.1.2)
           (mkHNav (env_step e1 a).1 (decimation s) (_prev_distance_to_goal s)
                   (_goal_positions s) (_goal_distance_range s)
                   (low_step_log s ++ [a]))
  | (e1, Raise e) => (set_env e1 s, Raise e)
  end.
Proof.
  simpl. unfold st_bind, frozen_policy_wrapper, on_env, low_env_step.
  destruct (frozen_call _ _ action (env s)) as [e1 [a|e]]; simpl; [|done].
  by destruct (env_step e1 a) as [e2 [[[o rw] dones] extras]].
Qed.

(** However the loop ends, it has only touched the environment and has
    logged at most one low-level step per iteration. *)
Lemma loop_frame_any action n : forall (s : State) info ld,
  same_bookkeeping s (loop n action info ld s).1 /\
  exists acts,
    low_step_log (loop n action info ld s).1 = low_step_log s ++ acts /\
    (length acts <= n)%nat.
Proof.
  induction n as [|n IH]; intros s info ld.
  - simpl. split; [done|]. exists []. rewrite app_nil_r. simpl. split; [done | lia].
  - rewrite loop_unfold.
    destruct (frozen_call _ _ action (env s)) as [e1 [a|e]].
    + destruct (IH (mkHNav (env_step e1 a).1 (decimation s)
                      (_prev_distance_to_goal s) (_goal_positions s)
                      (_goal_distance_range s) (low_step_log s ++ [a]))
                   (env_step e1 a).2.2 (Some (env_step e1 a).2.1.2))
        as [Hsame (acts & Hlog & Hlen)].
      split; [exact Hsame|].
      exists (a :: acts). rewrite Hlog. simpl. rewrite <- app_assoc. simpl.
      split; [done | lia].
    + split; [done|]. exists []. rewrite app_nil_r. split; [done | simpl; lia].
Qed.

(** The state [step] leaves: the loop's, with the current distances
    stored when the loop returned. *)
Lemma step_state a (s : State) :
  (hstep a s).1 =
  match loop (Z.to_nat (decimation s)) (normalize_action (num_envs (env s)) a)
             (ExtrasDict ∅) None s with
  | (s1, Ok _) => set_prev (Some (goal_distances s1)) s1
  | (s1, Raise _) => s1
  end.
Proof.
  unfold step, _compute_high_level_rewards, _compute_high_level_terminations.
  unfold st_bind, st_get, st_put, st_ret, st_raise.
  destruct (loop _ _ _ _ s) as [s1 [[info [dones|]]|e]]; reflexivity.
Qed.

(** X1.  Whether [step] returns or raises, it leaves the stored goal
    positions, the decimation and the goal distance range as they were
    (a reached goal is not resampled), and it has called [env.step] at
    most [decimation] times. *)
Theorem X1_step_never_moves_goals a (s : HNav Sim Act) :
  let s' := (step observation_manager_compute inference_policy env_step a s).1 in
  _goal_positions s' = _goal_positions s /\
  decimation s' = decimation s /\
  _goal_distance_range s' = _goal_distance_range s /\
  exists acts,
    low_step_log s' = low_step_log s ++ acts /\
    (length acts <= Z.to_nat (decimation s))%nat.
Proof.
  pose proof (loop_frame_any (normalize_action (num_envs (env s)) a)
                (Z.to_nat (decimation s)) s (ExtrasDict ∅) None)
    as [(Hd & Hp & Hg & Hr) (acts & Hlog & Hlen)].
  cbv zeta. rewrite step_state.
  destruct (loop _ _ _ _ s) as [s1 [r|e]]; simpl in *;
    (split; [done|]; split; [done|]; split; [done|]; eauto).
Qed.

(** X2.  With a decimation of zero or less, [step] makes no low-level
    step and raises AttributeError (on [None.bool()]); the environment is
    untouched, but the reward computation has already run and stored the
    current distances as the previous ones. *)
Theorem X2_step_without_iterations_raises a (s : State) :
  (decimation s <= 0)%Z ->
  hstep a s = (set_prev (Some (goal_distances s)) s, Raise AttributeError).
Proof.
  intros Hd. unfold step. unfold st_bind at 1. unfold st_get at 1.
  replace (Z.to_nat (decimation s)) with 0%nat by lia.
  reflexivity.
Qed.

(** [cmd_term.command[:, :3] = src] raises when [src] has neither the
    rows of the command term nor a single row, or has neither three
    columns nor one. *)
Lemma setitem_cols_mismatch (n : nat) (dst src : Tensor2 R) :
  has_shape n 3 dst ->
  (t_nrows src <> n /\ t_nrows src <> 1%nat) \/
  (t_cols src <> 3%nat /\ t_cols src <> 1%nat) ->
  setitem_cols 3 dst src = Raise RuntimeError.
Proof.
  intros (Hn & Hc & _) Hbad. unfold setitem_cols, broadcast_to.
  rewrite Hc, Hn. simpl.
  assert (Hexp : (t_nrows src <> n /\ t_nrows src <> 1%nat) ->
                 expand_dim n (t_rows src) = None).
  { intros [H1 H2]. unfold expand_dim, t_nrows in *.
    case_decide; [done|]. by destruct (t_rows src) as [|x [|y l]]. }
  repeat case_decide; try done;
    destruct Hbad as [Hb|[Hb1 Hb2]]; try done; by rewrite Hexp.
Qed.

(** X3.  When the action, once normalised, has neither one row per
    environment nor a single row, or has neither three columns nor one,
    [step] raises RuntimeError in the first call of the frozen policy
    wrapper: no low-level step is made and the wrapper is left exactly
    as it was. *)
Theorem X3_step_rejects_misshaped_action a (s : State) :
  (1 <= decimation s)%Z ->
  cmd_shape_ok (env s) ->
  let action := normalize_action (num_envs (env s)) a in
  (t_nrows action <> num_envs (env s) /\ t_nrows action <> 1%nat) \/
  (t_cols action <> 3%nat /\ t_cols action <> 1%nat) ->
  hstep a s = (s, Raise RuntimeError).
Proof.
  intros Hd Hc action Hbad. unfold step. unfold st_bind at 1. unfold st_get at 1.
  destruct (Z.to_nat (decimation s)) as [|n] eqn:En; [lia|].
  fold action. simpl. unfold st_bind at 1. unfold st_bind at 1.
  unfold frozen_policy_wrapper, on_env, frozen_call.
  unfold st_bind at 1. unfold st_get at 1. unfold st_bind at 1. unfold st_lift at 1.
  rewrite (setitem_cols_mismatch _ _ _ Hc Hbad).
  destruct s; reflexivity.
Qed.

(** X4.  The info dictionary [step] returns holds the four high-level
    metrics, and every other key of the extras of the last low-level
    step, unchanged. *)
Theorem X4_step_info_keeps_low_level_extras a (s s' : State) out :
  hstep a s = (s', Ok out) ->
  is_Some (info_out out !! "Episode_Termination/goal_reached") /\
  is_Some (info_out out !! "Episode_Reward/goal_reaching") /\
  is_Some (info_out out !! "Episode_Reward/progress") /\
  info_out out !! "hierarchical/distance_to_goal"
    = Some (VFloat (mean (goal_distances s'))) /\
  exists tr s1 dones extras,
    decimated observation_manager_compute inference_policy env_step
      (normalize_action (num_envs (env s)) a) (Z.to_nat (decimation s)) s tr s1 /\
    loop_result (ExtrasDict ∅) None tr = (extras, Some dones) /\
    forall k : string,
      k <> "Episode_Termination/goal_reached" ->
      k <> "Episode_Reward/goal_reaching" ->
      k <> "Episode_Reward/progress" ->
      k <> "hierarchical/distance_to_goal" ->
      info_out out !! k = as_dict extras !! k.
Proof.
  intros H.
  apply step_spec in H as (s1 & tr & dones & extras & Hrun & Hres & _ & _ & _ & Hinfo).
  rewrite Hinfo.
  split. { rewrite !lookup_insert_ne by done. rewrite lookup_insert_eq. eauto. }
  split. { rewrite !lookup_insert_ne by done. rewrite lookup_insert_eq. eauto. }
  split. { rewrite !lookup_insert_ne by done. rewrite lookup_insert_eq. eauto. }
  split. { by rewrite lookup_insert_eq. }
  exists tr, s1, dones, extras. split; [done|]. split; [done|].
  intros k H1 H2 H3 H4. by rewrite !lookup_insert_ne.
Qed.

End StepAlways.

(** ** Valid calls: rewards, the RSL-RL adapter *)

Lemma zip_orb_absorb (g d : list bool) :
  zip_with orb (zip_with orb g d) d = zip_with orb g d.
Proof.
  revert d. induction g as [|x g IH]; intros [|y d]; simpl; try done.
  rewrite IH. f_equal. by destruct x, y.
Qed.

Lemma norm2_nonneg (v : R * R) : 0 <= norm2 v.
Proof. unfold norm2. apply sqrt_pos. Qed.

(** The exponential kernel of a distance lies in (0, 1], and is 1 only
    at distance 0. *)
Lemma goal_kernel_range (d : R) :
  0 <= d ->
  0 < exp (- d / std ^ 2) <= 1 /\ (exp (- d / std ^ 2) = 1 -> d = 0).
Proof.
  intros Hd. rewrite std_sq.
  assert (Hx : - d / 0.25 <= 0) by lra.
  split; [split; [apply exp_pos|]|].
  - destruct Hx as [Hx|Hx]; [|rewrite Hx, exp_0; lra].
    apply exp_increasing in Hx. rewrite exp_0 in Hx. lra.
  - intros He. destruct Hx as [Hx|Hx]; [|lra].
    apply exp_increasing in Hx. rewrite exp_0 in Hx. lra.
Qed.

Lemma clamp_between (x c : R) : 0 <= c -> - c <= clamp x (- c) c <= c.
Proof.
  intros Hc. unfold clamp, Rmin, Rmax.
  destruct (Rle_dec x (- c)); destruct (Rle_dec _ c); lra.
Qed.

Lemma normalize_action_clamp (n : nat) (c : R) (a : ActionArg) :
  normalize_action n (clamp_action c a)
  = tmap (fun x => clamp x (- c) c) (normalize_action n a).
Proof.
  unfold normalize_action, tmap.
  destruct a as [v|t]; simpl.
  - case_decide; simpl; [|by rewrite length_map].
    rewrite length_map. f_equal.
    induction n as [|n IH]; [done|]. simpl. f_equal.
    clear. induction n as [|n IH]; [done|]. simpl. by rewrite IH.
  - destruct (t_rows t) as [|r [|r' rs]] eqn:E; simpl; rewrite ?E; simpl; try done.
    case_decide; simpl; rewrite ?E; try done.
    f_equal. clear. induction n as [|n IH]; [done|]. simpl. by rewrite IH.
Qed.

Lemma tmap_has_shape {A B} (f : A -> B) (n w : nat) (t : Tensor2 A) :
  has_shape n w t -> has_shape n w (tmap f t).
Proof.
  intros (Hn & Hc & Hwf). unfold has_shape, tmap, t_nrows, t_wf in *. simpl.
  rewrite length_map. split; [done|]. split; [done|].
  apply Forall_fmap. eapply Forall_impl; [exact Hwf|].
  intros r Hr. simpl. by rewrite length_map.
Qed.

Section ValidCalls.
Context {Sim Obs Act Other : Type}.
Variable observation_manager_compute : LowEnv Sim -> Sim * Obs.
Variable inference_policy : Obs -> Act.
Variable env_step :
  LowEnv Sim -> Act -> LowEnv Sim * (Obs * list R * list Z * Extras Other).
Hypothesis env_step_wf : forall e a,
  env_wf e ->
  env_wf (env_step e a).1 /\
  num_envs (env_step e a).1 = num_envs e /\
  length (env_step e a).2.1.2 = num_envs e.

Abbreviation State := (HNav Sim Act).
Abbreviation hstep :=
  (step observation_manager_compute inference_policy env_step).
Abbreviation vstep :=
  (vec_step observation_manager_compute inference_policy env_step).

(** X5.  The adapter for the trainer clips the action entrywise to
    [-clip, clip] when a bound is set, calls [step] once, and returns its
    observations and rewards; its [dones] are the terminated flags as 0
    or 1 (or-ing the truncated flags in adds nothing), and its info is
    the info of [step]: the branch that would recompute the metrics is
    never taken. *)
Theorem X5_vec_step_returns_terminated_as_dones clip a (s : State) :
  valid_call s a ->
  (forall c, clip = Some c -> 0 <= c) ->
  let a' := match clip with Some c => clamp_action c a | None => a end in
  exists s' out,
    hstep a' s = (s', Ok out) /\
    vstep clip a s
    = (s', Ok (high_level_obs out, high_level_reward out,
               map bool_to_Z (high_level_terminated out), info_out out)) /\
    Forall (Forall (fun x => forall c, clip = Some c -> - c <= x <= c))
           (t_rows (normalize_action (num_envs (env s)) a')).
Proof.
  intros Hv Hclip a'.
  assert (Hv' : valid_call s a').
  { destruct Hv as (Hd & Hwf & Hg & Ha).
    split; [done|]. split; [done|]. split; [done|].
    unfold a'. destruct clip as [c|]; [|done].
    rewrite normalize_action_clamp. by apply tmap_has_shape. }
  destruct (step_valid observation_manager_compute inference_policy env_step env_step_wf a' s Hv')
    as (s1 & tr & dones & extras & out & Hrun & Hres & Hld & Hlg & Hp & Hg
        & Hstep & Hrew & Hterm & Htrunc & Hinfo).
  exists (set_prev (Some (goal_distances s1)) s1), out.
  split; [done|]. split.
  - unfold vec_step. fold a'. unfold st_bind at 1. rewrite Hstep.
    unfold st_bind, st_get, st_ret.
    assert (Hkey : is_Some (info_out out !! "Episode_Termination/goal_reached")).
    { apply step_spec in Hstep
        as (sa & tra & da & ea & _ & _ & _ & _ & _ & Hi).
      rewrite Hi, !lookup_insert_ne by done. rewrite lookup_insert_eq. eauto. }
    destruct Hkey as [x ->].
    rewrite Htrunc, Hterm, zip_orb_absorb. done.
  - unfold a'. destruct clip as [c|].
    + rewrite normalize_action_clamp. unfold tmap. simpl.
      apply Forall_fmap, Forall_true. intros r. simpl.
      apply Forall_fmap, Forall_true. intros x. simpl.
      intros c' [= <-]. apply clamp_between. by apply Hclip.
    + apply Forall_true. intros r. apply Forall_true. intros x c' Hc. done.
Qed.

(** X6.  On a valid call every reward is its kernel term plus half the
    progress, with the kernel term in (0, 1]; so with no previous
    distance stored the reward itself lies in (0, 1], and is 1 only for
    a robot exactly at its goal. *)
Theorem X6_reward_kernel_in_unit_interval a (s : State) :
  valid_call s a ->
  exists s' out,
    hstep a s = (s', Ok out) /\
    length (goal_distances s') = num_envs (env s) /\
    (forall i d,
       goal_distances s' !! i = Some d ->
       0 <= d /\
       forall r, high_level_reward out !! i = Some r ->
         (_prev_distance_to_goal s = None ->
            0 < r <= 1 /\ (r = 1 -> d = 0)) /\
         (forall prev d_prev,
            _prev_distance_to_goal s = Some prev -> prev !! i = Some d_prev ->
            0 < r - 0.5 * (d_prev - d) <= 1)).
Proof.
  intros Hv.
  destruct (step_valid observation_manager_compute inference_policy env_step env_step_wf a s Hv)
    as (s1 & tr & dones & extras & out & Hrun & Hres & Hld & Hlg & Hp & Hg
        & Hstep & Hrew & Hterm & Htrunc & _).
  exists (set_prev (Some (goal_distances s1)) s1), out.
  split; [done|]. split; [done|].
  intros i d Hd. change (goal_distances s1 !! i = Some d) in Hd.
  assert (Hd0 : 0 <= d).
  { apply lookup_zip_with_Some in Hd as (g & p & -> & _). apply norm2_nonneg. }
  split; [done|]. intros r Hr. rewrite Hrew in Hr.
  apply lookup_zip_with_Some in Hr as (k & pr & -> & Hk & Hpr).
  rewrite list_lookup_fmap, Hd in Hk. simpl in Hk. inversion Hk; subst k.
  apply lookup_zip_with_Some in Hpr as (dp & d' & -> & Hdp & Hd').
  rewrite Hd in Hd'. inversion Hd'; subst d'.
  destruct (goal_kernel_range d Hd0) as [Hrange Hone].
  change (std * (std * 1)) with (std ^ 2).
  split.
  - intros E. rewrite E in Hdp. rewrite Hd in Hdp. inversion Hdp; subst dp.
    split; [lra|]. intros H1. apply Hone. lra.
  - intros prev d_prev E Hprev. rewrite E in Hdp. rewrite Hprev in Hdp.
    inversion Hdp; subst dp. lra.
Qed.

End ValidCalls.

(** ** FrozenLocomotionPolicy and freeze_policy, further *)

Section FrozenMore.
Context {Sim Obs Act : Type}.
Variable observation_manager_compute : LowEnv Sim -> Sim * Obs.
Variable inference_policy : Obs -> Act.

Abbreviation fcall := (frozen_call observation_manager_compute inference_policy).

(** X7.  With a command term of shape [num_envs, 3] and one velocity
    command per environment, the call returns the policy's actions for
    the observation computed while the command term holds the velocity
    command, and afterwards the command term, the robot poses and the
    number of environments are as before: only what the observation
    manager keeps for itself may differ. *)
Theorem X7_frozen_call_is_transparent_for_three_wide_command
    (vc : Tensor2 R) (e : LowEnv Sim) :
  cmd_shape_ok e -> has_shape (num_envs e) 3 vc ->
  exists e' obs,
    fcall vc e = (e', Ok (inference_policy obs)) /\
    obs = (observation_manager_compute (set_base_velocity vc e)).2 /\
    base_velocity e' = base_velocity e /\
    root_pos_w e' = root_pos_w e /\
    root_quat_w e' = root_quat_w e /\
    num_envs e' = num_envs e /\
    internals e' = (observation_manager_compute (set_base_velocity vc e)).1.
Proof.
  intros He Hvc. eexists _, _. split.
  - apply frozen_call_width3; done.
  - simpl. done.
Qed.

(** X8.  With a command term that is not three columns wide the call
    always raises RuntimeError.  Narrower than three, nothing at all has
    changed and no observation was computed; wider, the observation was
    computed, and the command term keeps the velocity command in its
    first three columns in front of its own remaining columns. *)
Theorem X8_frozen_call_raises_unless_three_wide (vc : Tensor2 R) (e : LowEnv Sim) :
  t_cols (base_velocity e) <> 3%nat ->
  has_shape (t_nrows (base_velocity e)) 3 vc ->
  (fcall vc e).2 = Raise RuntimeError /\
  ((t_cols (base_velocity e) < 3)%nat -> (fcall vc e).1 = e) /\
  ((3 < t_cols (base_velocity e))%nat ->
     (fcall vc e).1 =
       set_internals
         (observation_manager_compute
            (set_base_velocity
               (mkT2 (t_cols (base_velocity e))
                     (zip_with (fun d s => s ++ drop 3 d)
                               (t_rows (base_velocity e)) (t_rows vc))) e)).1
         (set_base_velocity
            (mkT2 (t_cols (base_velocity e))
                  (zip_with (fun d s => s ++ drop 3 d)
                            (t_rows (base_velocity e)) (t_rows vc))) e)).
Proof.
  intros Hw (Hn & Hc & Hwf).
  destruct (decide (t_cols (base_velocity e) < 3)%nat) as [Hlt|Hge].
  - assert (Hfail : setitem_cols 3 (base_velocity e) vc = Raise RuntimeError).
    { unfold setitem_cols.
      replace (Nat.min 3 (t_cols (base_velocity e)))
        with (t_cols (base_velocity e)) by lia.
      unfold broadcast_to. rewrite Hc. repeat case_decide; try done; lia. }
    unfold frozen_call, st_bind, st_get, st_lift. rewrite Hfail. simpl.
    split; [done|]. split; [done | lia].
  - assert (Hok : setitem_cols 3 (base_velocity e) vc
                  = Ok (mkT2 (t_cols (base_velocity e))
                             (zip_with (fun d s => s ++ drop 3 d)
                                       (t_rows (base_velocity e)) (t_rows vc)))).
    { unfold setitem_cols.
      replace (Nat.min 3 (t_cols (base_velocity e))) with 3%nat by lia.
      unfold broadcast_to, expand_dim. rewrite Hc. unfold t_nrows in *.
      repeat case_decide; try done; lia. }
    unfold frozen_call, st_bind, st_get, st_put, st_lift, st_ret. rewrite Hok.
    simpl. destruct (observation_manager_compute _) as [s' obs]. simpl.
    assert (Hfail : setitem_cols 3
              (mkT2 (t_cols (base_velocity e))
                    (zip_with (fun d s => s ++ drop 3 d)
                              (t_rows (base_velocity e)) (t_rows vc)))
              (base_velocity e) = Raise RuntimeError).
    { unfold setitem_cols. cbn [t_cols t_rows t_nrows].
      replace (Nat.min 3 (t_cols (base_velocity e))) with 3%nat by lia.
      unfold broadcast_to. repeat case_decide; try done; lia. }
    rewrite Hfail. simpl. split; [done|]. split; [lia | done].
Qed.

End FrozenMore.

(** X9.  [freeze_policy] raises AttributeError exactly when the runner
    has neither [alg.policy] nor [alg.actor_critic]; otherwise the module
    it returns is in eval mode, and freezing a runner that holds this
    module again returns the very same module. *)
Theorem X9_freeze_policy_missing_module_and_idempotence (runner : OnPolicyRunner) :
  (freeze_policy runner = Raise AttributeError <->
   policy (alg runner) = None /\ actor_critic (alg runner) = None) /\
  forall p,
    freeze_policy runner = Ok p ->
    training p = false /\
    freeze_policy (mkRunner (mkAlg (Some p) (actor_critic (alg runner)))) = Ok p /\
    freeze_policy (mkRunner (mkAlg None (Some p))) = Ok p.
Proof.
  unfold freeze_policy, runner_policy.
  destruct runner as [[[m|] [m'|]]]; simpl; split;
    try (split; [intros H; discriminate | intros [H1 H2]; discriminate]);
    try (split; [done | done]);
    try (intros p H; discriminate);
    intros p [= <-]; simpl; rewrite map_map; simpl;
    (split; [done|]); split; do 2 f_equal.
Qed.

(** ** Yaw and the rows of the high-level observation *)

Lemma atan2_range (y x : R) : - PI < atan2 y x <= PI.
Proof.
  pose proof PI_RGT_0 as Hpi. unfold atan2.
  pose proof (atan_bound (y / x)) as Hb.
  destruct (Rlt_dec 0 x); [lra|].
  destruct (Rlt_dec x 0) as [Hx|].
  - assert (Hinv : / x < 0) by (apply Rinv_lt_0_compat; lra).
    destruct (Rle_dec 0 y) as [Hy|Hy].
    + assert (Hq : y / x <= 0) by (unfold Rdiv; nra).
      assert (atan (y / x) <= 0).
      { destruct Hq as [Hq|Hq]; [|rewrite Hq, atan_0; lra].
        apply atan_increasing in Hq. rewrite atan_0 in Hq. lra. }
      lra.
    + assert (Hq : 0 < y / x) by (unfold Rdiv; nra).
      apply atan_increasing in Hq. rewrite atan_0 in Hq. lra.
  - destruct (Rlt_dec 0 y); [lra|]. destruct (Rlt_dec y 0); lra.
Qed.

Lemma atan2_sin_cos (t : R) : - PI < t <= PI -> atan2 (sin t) (cos t) = t.
Proof.
  intros [Hlo Hhi]. pose proof PI_RGT_0 as Hpi. unfold atan2.
  destruct (Rlt_dec t (- (PI / 2))) as [H1|H1].
  { (* third quadrant *)
    assert (Hc : cos t < 0).
    { rewrite <- cos_neg. apply cos_lt_0; lra. }
    assert (Hs : sin t < 0) by (apply sin_lt_0_var; lra).
    destruct (Rlt_dec 0 (cos t)); [lra|].
    destruct (Rlt_dec (cos t) 0); [|lra].
    destruct (Rle_dec 0 (sin t)); [lra|].
    assert (Hs' : sin t = - sin (t + PI)) by (rewrite neg_sin; lra).
    assert (Hc' : cos t = - cos (t + PI)) by (rewrite neg_cos; lra).
    assert (Hcp : 0 < cos (t + PI)) by lra.
    replace (sin t / cos t) with (tan (t + PI))
      by (unfold tan; rewrite Hs', Hc'; field; lra).
    rewrite atan_tan by lra. lra. }
  destruct (Req_dec t (- (PI / 2))) as [H2|H2].
  { subst t. rewrite cos_neg, sin_neg, cos_PI2, sin_PI2.
    repeat (destruct (Rlt_dec _ _); try lra). }
  destruct (Rlt_dec t (PI / 2)) as [H3|H3].
  { assert (Hc : 0 < cos t) by (apply cos_gt_0; lra).
    destruct (Rlt_dec 0 (cos t)); [|lra].
    change (sin t / cos t) with (tan t). apply atan_tan. lra. }
  destruct (Req_dec t (PI / 2)) as [H4|H4].
  { subst t. rewrite cos_PI2, sin_PI2.
    repeat (destruct (Rlt_dec _ _); try lra). }
  (* second quadrant *)
  assert (Hc : cos t < 0) by (apply cos_lt_0; lra).
  assert (Hs : 0 <= sin t) by (apply sin_ge_0; lra).
  destruct (Rlt_dec 0 (cos t)); [lra|].
  destruct (Rlt_dec (cos t) 0); [|lra].
  destruct (Rle_dec 0 (sin t)); [|lra].
  assert (Hs' : sin t = - sin (t - PI)).
  { rewrite <- neg_sin. f_equal. lra. }
  assert (Hc' : cos t = - cos (t - PI)).
  { rewrite <- neg_cos. f_equal. lra. }
  assert (Hcp : 0 < cos (t - PI)) by lra.
  replace (sin t / cos t) with (tan (t - PI))
    by (unfold tan; rewrite Hs', Hc'; field; lra).
  rewrite atan_tan by lra. lra.
Qed.

(** X12.  The yaw read off a quaternion always lies in (-pi, pi], so
    every entry of [robot_yaw] does. *)
Theorem X12_robot_yaw_in_half_open_turn {Sim} (e : LowEnv Sim) :
  (forall q, - PI < quat_yaw q <= PI) /\
  length (robot_yaw e) = length (root_quat_w e) /\
  Forall (fun yaw => - PI < yaw <= PI) (robot_yaw e).
Proof.
  assert (Hq : forall q, - PI < quat_yaw q <= PI).
  { intros [[[qw qx] qy] qz]. apply atan2_range. }
  split; [done|]. unfold robot_yaw. split; [by rewrite length_map|].
  apply Forall_fmap, Forall_true. intros q. apply Hq.
Qed.

(** X13.  For a robot turned by an angle [t] in (-pi, pi] about the
    vertical axis, whose quaternion is (cos(t/2), 0, 0, sin(t/2)), the
    yaw read off the quaternion is [t]. *)
Theorem X13_yaw_of_rotation_about_vertical (t : R) :
  - PI < t <= PI ->
  quat_yaw (cos (t / 2), 0, 0, sin (t / 2)) = t.
Proof.
  intros Ht. unfold quat_yaw.
  replace (2 * (cos (t / 2) * sin (t / 2) + 0 * 0)) with (sin t).
  2:{ replace t with (2 * (t / 2)) at 1 by lra. rewrite sin_2a. ring. }
  replace (1 - 2 * (0 * 0 + sin (t / 2) * sin (t / 2))) with (cos t).
  2:{ replace t with (2 * (t / 2)) at 1 by lra. rewrite cos_2a_sin. ring. }
  by apply atan2_sin_cos.
Qed.

Lemma X13_witness : quat_yaw (cos (1 / 2), 0, 0, sin (1 / 2)) = 1.
Proof.
  apply (X13_yaw_of_rotation_about_vertical 1).
  pose proof PI_RGT_0. pose proof PI2_1. lra.
Defined.

Lemma norm2_zero (v : R * R) : norm2 v = 0 <-> v = (0, 0).
Proof.
  split.
  - intros H. unfold norm2 in H. apply sqrt_eq_0 in H; [|nra].
    destruct v as [x y]. simpl in H.
    assert (x = 0) by nra. assert (y = 0) by nra. by subst.
  - intros ->. unfold norm2. simpl.
    replace (0 * 0 + 0 * 0) with 0 by ring. apply sqrt_0.
Qed.

(** X14.  Row [i] of the high-level observation has the eight entries
    [x, y, yaw, goal_x, goal_y, distance, dir_x, dir_y] of robot [i],
    with the yaw in (-pi, pi] and a non-negative distance.  For a goal
    at least 1e-6 away the direction has unit norm and, turned back by
    the yaw, is (goal - robot) / distance; closer than that it is
    shorter than one, and for a robot exactly at its goal the distance
    and the direction are zero. *)
Theorem X14_high_level_observation_row {Sim Act} (self : HNav Sim Act) i row :
  _get_high_level_observations self !! i = Some row ->
  exists p q g dx dy,
    robot_position_2d (env self) !! i = Some p /\
    root_quat_w (env self) !! i = Some q /\
    _goal_positions self !! i = Some g /\
    row = [p.1; p.2; quat_yaw q; g.1; g.2; norm2 (vsub g p); dx; dy] /\
    - PI < quat_yaw q <= PI /\
    0 <= norm2 (vsub g p) /\
    (1e-6 <= norm2 (vsub g p) ->
       dx * dx + dy * dy = 1 /\
       dx * cos (quat_yaw q) - dy * sin (quat_yaw q)
         = (g.1 - p.1) / norm2 (vsub g p) /\
       dx * sin (quat_yaw q) + dy * cos (quat_yaw q)
         = (g.2 - p.2) / norm2 (vsub g p)) /\
    (norm2 (vsub g p) < 1e-6 -> dx * dx + dy * dy < 1) /\
    (g = p -> norm2 (vsub g p) = 0 /\ dx = 0 /\ dy = 0).
Proof.
  intros H. apply high_level_obs_row in H as (p & yaw & g & Hp & Hy & Hg & ->).
  unfold robot_yaw in Hy. rewrite list_lookup_fmap in Hy.
  destruct (root_quat_w (env self) !! i) as [q|] eqn:Hq; [|done].
  simpl in Hy. inversion Hy; subst yaw.
  exists p, q, g, (rot_x (unit_or_small (vsub g p)) (quat_yaw q)),
         (rot_y (unit_or_small (vsub g p)) (quat_yaw q)).
  split; [done|]. split; [done|]. split; [done|]. split; [done|].
  split. { destruct q as [[[qw qx] qy] qz]. apply atan2_range. }
  split; [apply norm2_nonneg|]. split; [|split].
  - intros Hd.
    destruct (obs_row_direction p (quat_yaw q) g Hd)
      as (dx & dy & _ & Hx & Hy' & Hn & Hb1 & Hb2).
    unfold obs_row in Hx, Hy'. simpl in Hx, Hy'.
    inversion Hx; inversion Hy'; subst. done.
  - intros Hd. rewrite rot_norm.
    unfold unit_or_small, clamp_min. rewrite Rmax_right by lra. simpl.
    pose proof (norm2_sq (vsub g p)) as Hsq.
    pose proof (norm2_nonneg (vsub g p)) as Hn0.
    set (d := norm2 (vsub g p)) in *. simpl in Hsq.
    replace ((g.1 - p.1) / 1e-6 * ((g.1 - p.1) / 1e-6)
             + (g.2 - p.2) / 1e-6 * ((g.2 - p.2) / 1e-6))
      with ((d / 1e-6) * (d / 1e-6)).
    2:{ transitivity ((d * d) / (1e-6 * 1e-6)); [by field|].
        rewrite Hsq. by field. }
    assert (0 <= d / 1e-6 < 1).
    { split.
      - apply Rmult_le_pos; [done|]. lra.
      - apply Rmult_lt_reg_r with 1e-6; [lra|]. field_simplify. lra. }
    nra.
  - intros ->.
    assert (Hv : vsub p p = (0, 0)).
    { unfold vsub. f_equal; ring. }
    rewrite Hv. split; [by apply norm2_zero|].
    unfold unit_or_small, rot_x, rot_y. simpl. unfold Rdiv. split; ring.
Qed.

(** ** reset *)

Lemma norm_index_of_nat (n i : nat) :
  (i < n)%nat -> norm_index n (Z.of_nat i) = Some i.
Proof.
  intros Hi. unfold norm_index. case_decide; [|lia]. by rewrite Nat2Z.id.
Qed.

Section ResetFacts.
Context {Sim Obs Act Other : Type}.
Variable env_reset : LowEnv Sim -> LowEnv Sim * (Obs * Extras Other).

Abbreviation State := (HNav Sim Act).

(** X10.  When the low-level reset leaves one robot position per
    environment, [reset] with distances drawn from the wrapper's range
    [1, 5] returns: it resamples every goal, clears the stored previous
    distance, reports the four high-level metrics as 0.0, and returns
    the observations of the new state, one row of eight entries per
    environment, whose distance entry (and so every distance to the new
    goals) lies in [1, 5]. *)
Theorem X10_reset_resamples_every_goal_within_range distance angle (s : State) :
  let e' := (env_reset (env s)).1 in
  length (root_pos_w e') = num_envs e' ->
  length (root_quat_w e') = num_envs e' ->
  length (_goal_positions s) = num_envs e' ->
  _goal_distance_range s = (1.0, 5.0) ->
  uniform_draw (_goal_distance_range s).1 (_goal_distance_range s).2
               (num_envs e') distance ->
  uniform_draw (- PI) PI (num_envs e') angle ->
  exists s' obs info,
    reset (Act:=Act) env_reset distance angle s = (s', Ok (obs, info)) /\
    env s' = e' /\
    _prev_distance_to_goal s' = None /\
    obs = _get_high_level_observations s' /\
    length obs = num_envs e' /\
    length (goal_distances s') = num_envs e' /\
    (forall i d, goal_distances s' !! i = Some d -> 1 <= d <= 5) /\
    (forall i row, obs !! i = Some row ->
       length row = 8%nat /\ exists d, row !! 5%nat = Some d /\ 1 <= d <= 5) /\
    info !! "Episode_Termination/goal_reached" = Some (VFloat (Finite 0.0)) /\
    info !! "Episode_Reward/goal_reaching" = Some (VFloat (Finite 0.0)) /\
    info !! "Episode_Reward/progress" = Some (VFloat (Finite 0.0)) /\
    info !! "hierarchical/distance_to_goal" = Some (VFloat (Finite 0.0)).
Proof.
  intros e' Hpos Hquat Hgoals Hrange Hdist Hang.
  rewrite Hrange in Hdist. simpl in Hdist.
  set (ids := map Z.of_nat (seq 0 (num_envs e'))).
  assert (Hidl : length ids = num_envs e').
  { unfold ids. by rewrite length_map, length_seq. }
  assert (Hlen : length (_goal_positions s) = length (root_pos_w e')) by lia.
  assert (Hin : Forall (fun id => (- Z.of_nat (length (root_pos_w e')) <= id
                                   < Z.of_nat (length (root_pos_w e')))%Z) ids).
  { unfold ids. apply Forall_fmap, Forall_forall. intros i Hi.
    apply elem_of_seq in Hi. simpl. lia. }
  destruct (resample_body_total (root_pos_w e') (_goal_positions s) ids
              distance angle Hlen Hin) as [goals' Hbody].
  rewrite <- Hidl in Hdist, Hang.
  destruct (resample_body_spec _ _ _ _ _ 1.0 5.0 goals' ltac:(lra) Hlen Hdist Hang
              Hbody) as [Hgl Hspec].
  set (s1 := set_goals goals' (set_env e' s)).
  assert (Hreset : reset (Act:=Act) env_reset distance angle s
            = (set_prev None s1,
               Ok (_get_high_level_observations s1,
                   <["hierarchical/distance_to_goal" := VFloat (Finite 0.0)]>
                   (<["Episode_Reward/progress" := VFloat (Finite 0.0)]>
                   (<["Episode_Reward/goal_reaching" := VFloat (Finite 0.0)]>
                   (<["Episode_Termination/goal_reached" := VFloat (Finite 0.0)]>
                    (as_dict (env_reset (env s)).2.2))))))).
  { unfold reset. unfold st_bind at 1. unfold st_get at 1.
    unfold e' in *. destruct (env_reset (env s)) as [e1 [o info]]. simpl in *.
    unfold st_bind at 1. unfold st_put at 1.
    unfold st_bind at 1. unfold st_get at 1. unfold st_bind at 1.
    unfold _resample_goals at 1. unfold st_bind at 1. unfold st_get at 1.
    unfold st_bind at 1. unfold st_lift at 1. simpl.
    fold ids. rewrite Hbody. unfold st_put at 1.
    unfold st_bind, st_get, st_put, st_ret. reflexivity. }
  eexists _, _, _. split; [exact Hreset|].
  assert (Hgd : forall i d, goal_distances s1 !! i = Some d -> 1 <= d <= 5).
  { intros i d Hd.
    apply lookup_zip_with_Some in Hd as (g & p2 & -> & Hg & Hp2). simpl in Hg, Hp2.
    unfold robot_position_2d in Hp2. rewrite list_lookup_fmap in Hp2.
    destruct (root_pos_w e' !! i) as [p|] eqn:Hp; [|done].
    simpl in Hp2. inversion Hp2; subst p2.
    apply lookup_lt_Some in Hp as Hi.
    destruct (Hspec (Z.of_nat i)) as (i' & p' & g' & Hn & Hp' & Hg' & Hb).
    { unfold ids. apply list_elem_of_fmap. exists i. split; [done|].
      apply elem_of_seq. lia. }
    rewrite norm_index_of_nat in Hn by done. inversion Hn; subst i'.
    rewrite Hp in Hp'. rewrite Hg in Hg'. inversion Hp'; inversion Hg'; subst.
    lra. }
  assert (Hobsl : length (_get_high_level_observations s1) = num_envs e').
  { unfold _get_high_level_observations, robot_position_2d, robot_yaw. simpl.
    rewrite length_zip_with, length_zip, !length_map. lia. }
  split; [done|]. split; [done|]. split; [done|]. split; [done|].
  split.
  { unfold goal_distances, robot_position_2d. simpl.
    rewrite length_zip_with, length_map. lia. }
  split; [exact Hgd|]. split.
  { intros i row Hrow.
    change (_get_high_level_observations (set_prev None s1))
      with (_get_high_level_observations s1) in Hrow.
    apply high_level_obs_row in Hrow as (p & yaw & g & Hp & Hy & Hg & ->).
    split; [done|]. exists (norm2 (vsub g p)). split; [done|].
    apply (Hgd i). apply lookup_zip_with_Some. eauto. }
  rewrite !lookup_insert_ne by done. rewrite !lookup_insert_eq.
  repeat split; try done;
    rewrite ?lookup_insert_ne by done; by rewrite ?lookup_insert_eq.
Qed.

End ResetFacts.

(** ** mdp/observations.py and mdp/rewards.py, further *)

(** X11.  In the tensor [direction_to_goal] returns for n environments,
    row [i] is 2n wide, and what is environment i's own direction (the
    unit vector to its goal turned by minus its own yaw, for a goal at
    least 1e-6 away) sits in columns [i] and [n + i]; for a single
    environment the row is exactly that direction. *)
Theorem X11_direction_to_goal_own_direction_columns {Sim} (v : NavView Sim)
    i p g q :
  robot_position_2d (nv_env v) !! i = Some p ->
  goal_position_2d v !! i = Some g ->
  root_quat_w (nv_env v) !! i = Some q ->
  1e-6 <= norm2 (vsub g p) ->
  let n := length (root_quat_w (nv_env v)) in
  exists row dx dy,
    direction_to_goal v !! i = Some row /\
    length row = (2 * n)%nat /\
    row !! i = Some dx /\ row !! (n + i)%nat = Some dy /\
    dx * dx + dy * dy = 1 /\
    dx * cos (quat_yaw q) - dy * sin (quat_yaw q)
      = (g.1 - p.1) / norm2 (vsub g p) /\
    dx * sin (quat_yaw q) + dy * cos (quat_yaw q)
      = (g.2 - p.2) / norm2 (vsub g p) /\
    (n = 1%nat -> row = [dx; dy]).
Proof.
  intros Hp Hg Hq Hd n.
  destruct (obs_row_direction p (quat_yaw q) g Hd)
    as (dx & dy & _ & Hx & Hy & Hn & Hb1 & Hb2).
  unfold obs_row in Hx, Hy. simpl in Hx, Hy. inversion Hx; inversion Hy.
  set (dw := unit_or_small (vsub g p)) in *.
  set (yaws := map quat_yaw (root_quat_w (nv_env v))).
  assert (Hyaw : yaws !! i = Some (quat_yaw q)).
  { unfold yaws. by rewrite list_lookup_fmap, Hq. }
  assert (Hrow : direction_to_goal v !! i
                 = Some (map (rot_x dw) yaws ++ map (rot_y dw) yaws)).
  { unfold direction_to_goal. apply lookup_zip_with_Some.
    exists (map (rot_x dw) yaws), (map (rot_y dw) yaws).
    split; [done|].
    assert (Hdw : map unit_or_small
                    (zip_with vsub (goal_position_2d v)
                              (robot_position_2d (nv_env v))) !! i = Some dw).
    { rewrite list_lookup_fmap.
      erewrite (proj2 (lookup_zip_with_Some _ _ _ _ _)); [done|]. eauto. }
    split; rewrite list_lookup_fmap, Hdw; done. }
  assert (Hi : (i < n)%nat) by (by apply lookup_lt_Some in Hq).
  assert (Hly : length yaws = n) by (unfold yaws; by rewrite length_map).
  exists (map (rot_x dw) yaws ++ map (rot_y dw) yaws), dx, dy.
  split; [done|]. split. { rewrite length_app, !length_map. lia. }
  split.
  { rewrite lookup_app_l by (rewrite length_map; lia).
    rewrite list_lookup_fmap, Hyaw. simpl. congruence. }
  split.
  { rewrite lookup_app_r by (rewrite length_map; lia).
    rewrite length_map, Hly. replace (n + i - n)%nat with i by lia.
    rewrite list_lookup_fmap, Hyaw. simpl. congruence. }
  split; [done|]. split; [done|]. split; [done|].
  intros Hone. assert (i = 0%nat) as -> by lia.
  destruct yaws as [|y0 [|y1 ys]]; simpl in Hly; try lia.
  simpl in Hyaw. inversion Hyaw; subst y0. simpl. congruence.
Qed.

Lemma sq_pos_of_ne (x : R) : x <> 0 -> 0 < x ^ 2.
Proof. intros H. replace (x ^ 2) with (x * x) by ring. nra. Qed.

(** X15.  For a non-zero [std], [goal_reaching_reward] gives every
    environment a reward in (0, 1], equal to 1 only at distance 0 and
    strictly smaller for a strictly larger distance;
    [goal_reaching_l2] gives the negated distance, never positive; both
    have one entry per distance. *)
Theorem X15_goal_reaching_terms_ranges {Sim} (std0 : R) (v : NavView Sim) :
  std0 <> 0 ->
  length (goal_reaching_reward std0 v) = length (distance_to_goal v) /\
  length (goal_reaching_l2 v) = length (distance_to_goal v) /\
  forall i d,
    distance_to_goal v !! i = Some d ->
    0 <= d /\
    exists r l,
      goal_reaching_reward std0 v !! i = Some r /\
      goal_reaching_l2 v !! i = Some l /\
      0 < r <= 1 /\ (r = 1 <-> d = 0) /\
      l = - d /\ l <= 0 /\
      forall j d' r',
        distance_to_goal v !! j = Some d' ->
        goal_reaching_reward std0 v !! j = Some r' ->
        d < d' -> r' < r.
Proof.
  intros Hstd. pose proof (sq_pos_of_ne std0 Hstd) as Hsq.
  unfold goal_reaching_reward, goal_reaching_l2.
  split; [by rewrite length_map|]. split; [by rewrite length_map|].
  intros i d Hd.
  assert (Hd0 : 0 <= d).
  { unfold distance_to_goal in Hd.
    apply lookup_zip_with_Some in Hd as (g & p & -> & _). apply norm2_nonneg. }
  split; [done|].
  exists (exp (- d / std0 ^ 2)), (- d).
  rewrite !list_lookup_fmap, Hd. simpl.
  change (std0 * (std0 * 1)) with (std0 ^ 2).
  split; [done|]. split; [done|].
  assert (Hx : - d / std0 ^ 2 <= 0).
  { unfold Rdiv. assert (0 < / std0 ^ 2) by (by apply Rinv_0_lt_compat). nra. }
  assert (Hle : exp (- d / std0 ^ 2) <= 1).
  { destruct Hx as [Hx|Hx]; [|rewrite Hx, exp_0; lra].
    apply exp_increasing in Hx. rewrite exp_0 in Hx. lra. }
  split; [split; [apply exp_pos | done]|].
  split.
  { split.
    - intros He. destruct Hx as [Hx|Hx].
      + apply exp_increasing in Hx. rewrite exp_0 in Hx. lra.
      + unfold Rdiv in Hx. assert (0 < / std0 ^ 2) by (by apply Rinv_0_lt_compat).
        nra.
    - intros ->. replace (- 0 / std0 ^ 2) with 0 by (by field). apply exp_0. }
  split; [done|]. split; [lra|].
  intros j d' r' Hd' Hr' Hlt. rewrite list_lookup_fmap, Hd' in Hr'. simpl in Hr'.
  inversion Hr'; subst r'. change (std0 * (std0 * 1)) with (std0 ^ 2).
  apply exp_increasing.
  unfold Rdiv. assert (0 < / std0 ^ 2) by (by apply Rinv_0_lt_compat). nra.
Qed.

Lemma X15_witness :
  (0.5 <> 0) /\
  length (goal_reaching_reward 0.5 two_robot_view) = 2%nat /\
  length (goal_reaching_l2 two_robot_view) = 2%nat.
Proof.
  split; [lra|].
  destruct (X15_goal_reaching_terms_ranges 0.5 two_robot_view ltac:(lra))
    as (H1 & H2 & _).
  split; [exact H1 | exact H2].
Defined.

Section ProgressFacts.
Context {Sim : Type}.

Lemma progress_call (v : NavView Sim) (prev : option (list R)) :
  goal_reaching_progress (mkRewardEnv v prev)
  = (mkRewardEnv v (Some (distance_to_goal v)),
     Ok (zip_with Rminus (default (distance_to_goal v) prev) (distance_to_goal v))).
Proof.
  unfold goal_reaching_progress, st_bind, st_get, st_put, st_ret. simpl.
  by destruct prev.
Qed.

Lemma progress_over_cons (v : NavView Sim) vs prev :
  progress_over (v :: vs) prev
  = zip_with Rminus (default (distance_to_goal v) prev) (distance_to_goal v)
    :: progress_over vs (Some (distance_to_goal v)).
Proof. cbn [progress_over]. by rewrite progress_call. Qed.

Lemma progress_over_telescopes i : forall (views : list (NavView Sim)) P d0,
  P !! i = Some d0 ->
  Forall (fun v => is_Some (distance_to_goal v !! i)) views ->
  sum_list (omap (fun p => p !! i) (progress_over views (Some P)))
  = d0 - default d0 (last (omap (fun v => distance_to_goal v !! i) views)).
Proof.
  induction views as [|v vs IH]; intros P d0 HP Hall.
  - simpl. lra.
  - inversion Hall as [|? ? [d Hd] Hrest]; subst.
    rewrite progress_over_cons. cbn [omap list_omap default].
    change (Datatypes.id P) with P.
    rewrite (proj2 (lookup_zip_with_Some Rminus P (distance_to_goal v) i (d0 - d)))
      by eauto.
    rewrite Hd. cbn [sum_list fold_right].
    change (fold_right Rplus 0) with sum_list.
    rewrite (IH (distance_to_goal v) d Hd Hrest).
    destruct (omap (fun v0 => distance_to_goal v0 !! i) vs) as [|x l] eqn:E.
    + simpl. lra.
    + change (last (d :: x :: l)) with (last (x :: l)).
      destruct (last (x :: l)) as [y|] eqn:El; simpl; [lra|].
      by apply last_None in El.
Qed.

(** X16.  [goal_reaching_progress] returns zeros on the call that
    creates the attribute and, on every later call, the previous
    distances minus the current ones, storing the current ones; so over
    any run of calls that starts without the attribute, the progress
    returned for an environment adds up to its distance at the first
    call minus its distance at the last. *)
Theorem X16_goal_reaching_progress_telescopes i
    (v : NavView Sim) (vs : list (NavView Sim)) (d1 : R) :
  distance_to_goal v !! i = Some d1 ->
  Forall (fun v' => is_Some (distance_to_goal v' !! i)) vs ->
  (exists env1 p1,
     goal_reaching_progress (mkRewardEnv v None) = (env1, Ok p1) /\
     re_prev_distance_to_goal env1 = Some (distance_to_goal v) /\
     p1 !! i = Some 0 /\
     forall (v2 : NavView Sim) d2, distance_to_goal v2 !! i = Some d2 ->
       exists env2 p2,
         goal_reaching_progress (mkRewardEnv v2 (re_prev_distance_to_goal env1))
           = (env2, Ok p2) /\
         p2 !! i = Some (d1 - d2) /\
         re_prev_distance_to_goal env2 = Some (distance_to_goal v2)) /\
  length (progress_over (v :: vs) None) = S (length vs) /\
  sum_list (omap (fun p => p !! i) (progress_over (v :: vs) None))
  = d1 - default d1 (last (omap (fun v' => distance_to_goal v' !! i) vs)).
Proof.
  intros Hd1 Hall. split; [|split].
  - eexists _, _. rewrite progress_call. split; [reflexivity|].
    cbn [re_prev_distance_to_goal default].
    split; [done|]. split.
    + apply lookup_zip_with_Some. exists d1, d1. split; [lra | done].
    + intros v2 d2 Hd2. eexists _, _. rewrite progress_call.
      split; [reflexivity|]. cbn [re_prev_distance_to_goal default].
      split; [|done]. apply lookup_zip_with_Some. eauto.
  - rewrite progress_over_cons. cbn [length]. f_equal.
    generalize (distance_to_goal v). clear.
    induction vs as [|v' vs IH]; intros P; [done|].
    rewrite progress_over_cons. cbn [length]. by rewrite IH.
  - rewrite progress_over_cons. cbn [omap list_omap default].
    rewrite (proj2 (lookup_zip_with_Some Rminus (distance_to_goal v)
                      (distance_to_goal v) i (d1 - d1))) by eauto.
    cbn [sum_list fold_right]. change (fold_right Rplus 0) with sum_list.
    rewrite (progress_over_telescopes i vs _ d1 Hd1 Hall). lra.
Qed.

End ProgressFacts.

(** ** Goal resampling, further *)

Lemma index_put_col0_other : forall ids xs t i,
  i ∉ ids -> index_put_col0 t ids xs !! i = t !! i.
Proof.
  unfold index_put_col0.
  induction ids as [|j ids IH]; intros [|x xs] t i Hi; simpl; try done.
  apply not_elem_of_cons in Hi as [Hne Hi].
  rewrite IH by done. by rewrite list_lookup_alter_ne.
Qed.

Lemma index_put_col1_other : forall ids xs t i,
  i ∉ ids -> index_put_col1 t ids xs !! i = t !! i.
Proof.
  unfold index_put_col1.
  induction ids as [|j ids IH]; intros [|x xs] t i Hi; simpl; try done.
  apply not_elem_of_cons in Hi as [Hne Hi].
  rewrite IH by done. by rewrite list_lookup_alter_ne.
Qed.

Lemma index_put_col0_length : forall ids xs t,
  length (index_put_col0 t ids xs) = length t.
Proof.
  unfold index_put_col0.
  induction ids as [|j ids IH]; intros [|x xs] t; simpl; try done.
  by rewrite IH, length_alter.
Qed.

Lemma index_put_col1_length : forall ids xs t,
  length (index_put_col1 t ids xs) = length t.
Proof.
  unfold index_put_col1.
  induction ids as [|j ids IH]; intros [|x xs] t; simpl; try done.
  by rewrite IH, length_alter.
Qed.

(** Whenever the resampling returns, the goals keep their number and
    the rows of indices that were not given are untouched. *)
Lemma resample_body_frame pos goals env_ids distance angle goals' :
  resample_body pos goals env_ids distance angle = Ok goals' ->
  length goals' = length goals /\
  forall j,
    (forall id, id ∈ env_ids -> norm_index (length goals) id <> Some j) ->
    goals' !! j = goals !! j.
Proof.
  unfold resample_body.
  destruct (norm_indices (length pos) env_ids) as [ids|]; [|done].
  destruct (norm_indices (length goals) env_ids) as [gids|] eqn:Hg; [|done].
  intros [= <-]. split.
  - by rewrite index_put_col1_length, index_put_col0_length.
  - intros j Hj.
    assert (Hnot : j ∉ gids).
    { intros Hin. apply list_elem_of_lookup in Hin as [k Hk].
      apply mapM_Some_1 in Hg.
      destruct (Forall2_lookup_r _ _ _ _ _ Hg Hk) as (id & Hid & Hn).
      apply (Hj id); [|done]. apply list_elem_of_lookup. eauto. }
    by rewrite index_put_col1_other, index_put_col0_other.
Qed.

Lemma norm_indices_out_of_range n env_ids :
  Exists (fun id => ~ (- Z.of_nat n <= id < Z.of_nat n)%Z) env_ids ->
  norm_indices n env_ids = None.
Proof.
  intros Hex. destruct (norm_indices n env_ids) as [ids|] eqn:E; [|done].
  exfalso. apply mapM_Some_1 in E.
  apply Exists_exists in Hex as (id & Hin & Hbad).
  apply list_elem_of_lookup in Hin as [k Hk].
  destruct (Forall2_lookup_l _ _ _ _ _ E Hk) as (i & _ & Hn).
  apply Hbad. unfold norm_index in Hn. repeat case_decide; try done; lia.
Qed.

(** X17.  [_resample_goals] for in-range indices, with one drawn
    distance and angle per index, returns and changes nothing but the
    goals of the indices it was given: the wrapper keeps its environment,
    its stored previous distance, the number of goals and every other
    goal; with no index at all it changes nothing. *)
Theorem X17_resample_goals_touches_only_given_rows {Sim Act}
    (self : HNav Sim Act) env_ids distance angle :
  _goal_distance_range self = (1.0, 5.0) ->
  length (_goal_positions self) = length (root_pos_w (env self)) ->
  Forall (fun id => (- Z.of_nat (length (root_pos_w (env self))) <= id
                     < Z.of_nat (length (root_pos_w (env self))))%Z) env_ids ->
  uniform_draw 1.0 5.0 (length env_ids) distance ->
  uniform_draw (- PI) PI (length env_ids) angle ->
  exists self',
    _resample_goals env_ids distance angle self = (self', Ok tt) /\
    env self' = env self /\
    _prev_distance_to_goal self' = _prev_distance_to_goal self /\
    length (_goal_positions self') = length (_goal_positions self) /\
    (forall j,
       (forall id, id ∈ env_ids ->
          norm_index (length (_goal_positions self)) id <> Some j) ->
       _goal_positions self' !! j = _goal_positions self !! j) /\
    (env_ids = [] -> _goal_positions self' = _goal_positions self).
Proof.
  intros _ Hlen Hids _ _.
  destruct (resample_body_total (root_pos_w (env self)) (_goal_positions self)
              env_ids distance angle Hlen Hids) as [goals' Hbody].
  exists (set_goals goals' self).
  unfold _resample_goals, st_bind, st_get, st_lift, st_put. rewrite Hbody.
  split; [done|]. split; [done|]. split; [done|]. simpl.
  destruct (resample_body_frame _ _ _ _ _ _ Hbody) as [Hl Hframe].
  split; [done|]. split; [done|].
  intros ->. apply list_eq. intros j. apply Hframe.
  intros id Hid. by apply elem_of_nil in Hid.
Qed.

Lemma X17_witness :
  exists self',
    _resample_goals (Sim:=unit) (Act:=Tensor2 R) [0%Z] [2] [0] demo_state
    = (self', Ok tt) /\
    length (_goal_positions self') = 1%nat.
Proof.
  destruct (X17_resample_goals_touches_only_given_rows
              (Sim:=unit) (Act:=Tensor2 R) demo_state [0%Z] [2] [0]
              eq_refl eq_refl
              ltac:(repeat constructor; simpl; lia)
              ltac:(demo_draw) ltac:(demo_draw))
    as (self' & Hrun & _ & _ & Hlen & _).
  exists self'. split; [exact Hrun | exact Hlen].
Defined.

(** X18.  In [_resample_goals], an index that is neither in [0, n) nor
    in [-n, 0), n being the number of robot positions, makes the read of
    the robot positions raise IndexError (as indexing a CPU tensor does),
    before any goal is written: the wrapper is left as it was, also for
    the indices that are in range. *)
Theorem X18_resample_goals_index_error {Sim Act}
    (self : HNav Sim Act) env_ids distance angle :
  _goal_distance_range self = (1.0, 5.0) ->
  uniform_draw 1.0 5.0 (length env_ids) distance ->
  uniform_draw (- PI) PI (length env_ids) angle ->
  Exists (fun id => ~ (- Z.of_nat (length (root_pos_w (env self))) <= id
                       < Z.of_nat (length (root_pos_w (env self))))%Z) env_ids ->
  _resample_goals env_ids distance angle self = (self, Raise IndexError).
Proof.
  intros _ _ _ Hex.
  unfold _resample_goals, st_bind, st_get, st_lift, resample_body.
  by rewrite (norm_indices_out_of_range _ _ Hex).
Qed.

Lemma X18_witness :
  _resample_goals (Sim:=unit) (Act:=Tensor2 R) [0%Z; 1%Z] [2; 3] [0; 0] demo_state
  = (demo_state, Raise IndexError).
Proof.
  apply X18_resample_goals_index_error.
  - reflexivity.
  - demo_draw.
  - demo_draw.
  - apply Exists_cons_tl, Exists_cons_hd. simpl. lia.
Defined.

(** ** Perlin terrain, further *)

Lemma fractal_loop_wf rand shape lac gain zs : forall n k xs ys amp noise r,
  t_nrows noise = Z.to_nat shape.1 -> t_cols noise = Z.to_nat shape.2 ->
  t_wf noise ->
  fractal_loop n k rand shape xs ys amp lac gain zs noise = Ok r ->
  t_wf r.
Proof.
  induction n as [|n IH]; intros k xs ys amp noise r Hn Hc Hwf H.
  - simpl in H. by simplify_eq.
  - apply fractal_loop_step in H
      as (p & noise' & xs' & ys' & Hp & Hadd & _ & _ & H).
    destruct (octave_added _ _ _ _ _ _ _ _ Hn Hc Hwf Hp Hadd)
      as (Hn' & Hc' & Hwf' & _).
    rewrite <- Hn' in Hn. rewrite <- Hc' in Hc.
    exact (IH _ _ _ _ _ _ Hn Hc Hwf' H).
Qed.

Lemma to_int16_range (z : Z) : (-32768 <= to_int16 z <= 32767)%Z.
Proof.
  unfold to_int16.
  set (z32 := if ((- 2 ^ 31 <=? z) && (z <? 2 ^ 31))%Z then z else (- 2 ^ 31)%Z).
  pose proof (Z.mod_pos_bound (z32 + 32768) 65536 ltac:(lia)). lia.
Qed.


Lemma perlin_terrain_has_shape rand cfg h :
  perlin_terrain rand cfg = Ok h ->
  exists wp lp,
    width_pixels cfg = Ok wp /\ length_pixels cfg = Ok lp /\
    (0 <= wp)%Z /\ (0 <= lp)%Z /\
    has_shape (Z.to_nat wp) (Z.to_nat lp) h.
Proof.
  intros H. pose proof H as Hs.
  apply perlin_terrain_shape in Hs as (wp' & lp' & Hw' & Hl' & Hn & Hc).
  apply perlin_terrain_Ok in H
    as (wp & lp & hs & xSize & ySize & freq & noise
        & Hw & Hl & _ & _ & _ & _ & Hwp & Hlp & E & ->).
  rewrite Hw in Hw'. rewrite Hl in Hl'.
  injection Hw' as <-. injection Hl' as <-.
  exists wp, lp. split; [done|]. split; [done|]. split; [done|]. split; [done|].
  apply fractal_loop_wf in E;
    [ | apply length_replicate | reflexivity
      | apply Forall_replicate, length_replicate ].
  split; [done|]. split; [done|].
  unfold t_wf, tmap in *. simpl.
  apply Forall_fmap. eapply Forall_impl; [exact E|].
  intros r Hr. simpl. by rewrite length_fmap.
Qed.

Lemma has_shape_lookup {A} n w (t : Tensor2 A) i j :
  has_shape n w t -> (i < n)%nat -> (j < w)%nat ->
  exists row v, t_rows t !! i = Some row /\ row !! j = Some v.
Proof.
  intros (Hn & Hc & Hwf) Hi Hj.
  destruct (lookup_lt_is_Some_2 (t_rows t) i) as [row Hrow];
    [unfold t_nrows in Hn; lia|].
  pose proof (proj1 (Forall_lookup _ _) Hwf i row Hrow) as Hlen. simpl in Hlen.
  destruct (lookup_lt_is_Some_2 row j) as [v Hv]; [lia|].
  by exists row, v.
Qed.

Lemma product_dim_divides (shape res : Z) :
  (res * (shape / res) = shape)%Z ->
  product_dim shape res = Some (Z.to_nat shape).
Proof. intros H. unfold product_dim. by rewrite (proj2 (Z.eqb_eq _ _) H). Qed.

Lemma product_dim_none (shape res : Z) :
  (res * (shape / res) <> shape)%Z -> shape <> 1%Z ->
  product_dim shape res = None.
Proof.
  intros H H1. unfold product_dim.
  rewrite (proj2 (Z.eqb_neq _ _) H). by rewrite (proj2 (Z.eqb_neq _ _) H1).
Qed.

Lemma generate_perlin_guards rand (shape res : Z * Z) :
  (0 < shape.1)%Z -> (0 < shape.2)%Z -> (0 < res.1)%Z -> (0 < res.2)%Z ->
  generate_perlin_noise_2d rand shape res =
  match product_dim shape.1 res.1, product_dim shape.2 res.2 with
  | Some n0, Some n1 =>
      Ok (mkT2 n1 (map (fun i => map (fun j => perlin_entry rand shape res i j)
                                     (seq 0 n1))
                       (seq 0 n0)))
  | _, _ => Raise ValueError
  end.
Proof.
  intros H1 H2 H3 H4. unfold generate_perlin_noise_2d.
  rewrite (proj2 (Z.eqb_neq shape.1 0)) by lia.
  rewrite (proj2 (Z.eqb_neq shape.2 0)) by lia.
  rewrite (proj2 (Z.eqb_neq res.1 0)) by lia.
  rewrite (proj2 (Z.eqb_neq res.2 0)) by lia.
  rewrite (proj2 (Z.ltb_ge shape.1 0)) by lia.
  rewrite (proj2 (Z.ltb_ge shape.2 0)) by lia.
  rewrite (proj2 (Z.ltb_ge res.1 0)) by lia.
  rewrite (proj2 (Z.ltb_ge res.2 0)) by lia.
  reflexivity.
Qed.

Lemma generate_perlin_entry rand shape res t i j row v :
  generate_perlin_noise_2d rand shape res = Ok t ->
  t_rows t !! i = Some row -> row !! j = Some v ->
  v = perlin_entry rand shape res i j.
Proof.
  unfold generate_perlin_noise_2d.
  destruct ((shape.1 =? 0) || (shape.2 =? 0))%Z; [done|].
  destruct ((res.1 =? 0) || (res.2 =? 0))%Z; [done|].
  destruct ((shape.1 <? 0) || (shape.2 <? 0) || (res.1 <? 0) || (res.2 <? 0))%Z;
    [done|].
  destruct (product_dim shape.1 res.1) as [n0|]; [|done].
  destruct (product_dim shape.2 res.2) as [n1|]; [|done].
  intros [= <-] Hrow Hv. simpl in Hrow.
  rewrite list_lookup_fmap in Hrow.
  destruct (seq 0 n0 !! i) as [i'|] eqn:Hi; [|done].
  apply lookup_seq in Hi as [-> _]. simpl in Hrow. injection Hrow as <-.
  rewrite list_lookup_fmap in Hv.
  destruct (seq 0 n1 !! j) as [j'|] eqn:Hj; [|done].
  apply lookup_seq in Hj as [-> _]. simpl in Hv. by injection Hv as <-.
Qed.

Lemma generate_perlin_has_shape rand (shape res : Z * Z) :
  (0 < shape.1)%Z -> (0 < shape.2)%Z -> (0 < res.1)%Z -> (0 < res.2)%Z ->
  (res.1 | shape.1)%Z -> (res.2 | shape.2)%Z ->
  exists t, generate_perlin_noise_2d rand shape res = Ok t /\
            has_shape (Z.to_nat shape.1) (Z.to_nat shape.2) t.
Proof.
  intros H1 H2 H3 H4 D1 D2.
  rewrite generate_perlin_guards by done.
  rewrite !product_dim_divides.
  - eexists. split; [reflexivity|].
    split; [|split].
    + unfold t_nrows. simpl. by rewrite length_map, length_seq.
    + done.
    + unfold t_wf. simpl. apply Forall_fmap, Forall_true. intros i. simpl.
      by rewrite length_map, length_seq.
  - symmetry. apply Z.div_exact; [lia|]. apply Z.mod_divide; [lia|done].
  - symmetry. apply Z.div_exact; [lia|]. apply Z.mod_divide; [lia|done].
Qed.

Lemma iadd_same_shape (n w : nat) (noise x : Tensor2 R) :
  has_shape n w noise -> has_shape n w x ->
  exists noise', iadd noise x = Ok noise' /\ has_shape n w noise'.
Proof.
  intros (Hn & Hc & Hwf) (Hn' & Hc' & Hwf').
  unfold iadd, broadcast_to, expand_dim. rewrite Hn, Hc, Hc'.
  destruct (decide (w = w)) as [_|]; [|done].
  unfold t_nrows in *. rewrite Hn'.
  destruct (decide (n = n)) as [_|]; [|done].
  eexists. split; [reflexivity|].
  split; [|split]; unfold t_nrows, t_wf; simpl.
  - rewrite length_zip_with. lia.
  - done.
  - apply Forall_lookup. intros i row Hrow.
    apply lookup_zip_with_Some in Hrow as (r0 & r1 & -> & Hr0 & Hr1).
    rewrite length_zip_with. unfold t_wf in Hwf, Hwf'.
    rewrite Forall_lookup in Hwf. rewrite Forall_lookup in Hwf'.
    rewrite (Hwf i r0 Hr0), (Hwf' i r1 Hr1). lia.
Qed.

(** The scalars of the terrain with no octave. *)
Lemma flat_scalars :
  width_pixels flat_cfg = Ok 16%Z /\
  length_pixels flat_cfg = Ok 16%Z /\
  height_scale flat_cfg = Ok 46%Z /\
  py_int (float_of_Q (size flat_cfg).1) = Ok 8%Z /\
  py_int (float_of_Q (size flat_cfg).2) = Ok 8%Z /\
  py_int (float_of_Q (frequency flat_cfg)) = Ok 1%Z.
Proof. vm_compute. done. Qed.

(** For sample counts that every octave's resolution divides, with a
    power of two as quotient, [perlin_terrain] returns a field of the
    configured shape. *)
Lemma perlin_terrain_dividing_cfg (rand : nat -> nat -> nat -> R) :
  exists h, perlin_terrain rand dividing_cfg = Ok h /\ has_shape 16 16 h.
Proof.
  destruct dividing_scalars as (Hw & Hl & Hh & Hx & Hy & Hf & Hs1 & Hs2).
  set (lac := float_of_Q (fractal_lacunarity dividing_cfg)) in *.
  set (zeros := mkT2 16 (replicate 16 (replicate 16 0))).
  assert (Hz : has_shape 16 16 zeros).
  { split; [done|]. split; [done|]. apply Forall_replicate, length_replicate. }
  destruct (generate_perlin_has_shape (rand 0%nat) (16, 16)%Z (8, 8)%Z)
    as (p1 & Hp1 & Hshape1); simpl; try lia; try (by exists 2%Z).
  destruct (iadd_same_shape 16 16 zeros
              (tmap (fun v => 1 * v * IZR 46) p1) Hz
              (tmap_has_shape _ _ _ _ Hshape1)) as (n1 & Hadd1 & Hn1).
  destruct (generate_perlin_has_shape (rand 1%nat) (16, 16)%Z (16, 16)%Z)
    as (p2 & Hp2 & Hshape2); simpl; try lia; try (by exists 1%Z).
  destruct (iadd_same_shape 16 16 n1
              (tmap (fun v => 1 * Q2R (fractal_gain dividing_cfg) * v * IZR 46) p2)
              Hn1 (tmap_has_shape _ _ _ _ Hshape2)) as (n2 & Hadd2 & Hn2).
  exists (tmap (fun v => to_int16 (rint v)) n2).
  split; [|by apply tmap_has_shape].
  unfold perlin_terrain. rewrite Hw, Hl, Hh, Hx, Hy, Hf. cbn [r_bind].
  unfold generate_fractal_noise_2d.
  change ((16 <? 0) || (16 <? 0))%Z with false. cbv iota.
  change (Z.to_nat (fractal_octaves dividing_cfg)) with 2%nat.
  change (1 * 8)%Z with 8%Z. change (Z.to_nat 16) with 16%nat.
  fold zeros. fold lac.
  cbn [fractal_loop].
  rewrite Hp1. cbn [r_bind]. rewrite Hadd1. cbn [r_bind].
  rewrite Hs1. cbn [r_bind].
  rewrite Hp2. cbn [r_bind]. rewrite Hadd2. cbn [r_bind].
  rewrite Hs2. cbn [r_bind]. reflexivity.
Qed.

(** X19.  Whenever [perlin_terrain] returns, the height field has
    int(size[0] / horizontal_scale) rows of int(size[1] /
    horizontal_scale) entries each, the two quotients computed in
    binary64 as Python computes them, and every entry is an int16
    value. *)
Theorem X19_perlin_terrain_shape_and_int16 rand cfg h :
  perlin_terrain rand cfg = Ok h ->
  exists wp lp,
    width_pixels cfg = Ok wp /\ length_pixels cfg = Ok lp /\
    (0 <= wp)%Z /\ (0 <= lp)%Z /\
    has_shape (Z.to_nat wp) (Z.to_nat lp) h /\
    Forall (Forall (fun v => (-32768 <= v <= 32767)%Z)) (t_rows h).
Proof.
  intros H.
  destruct (perlin_terrain_has_shape _ _ _ H)
    as (wp & lp & Hw & Hl & Hwp & Hlp & Hshape).
  exists wp, lp. split; [done|]. split; [done|]. split; [done|].
  split; [done|]. split; [done|].
  apply perlin_terrain_Ok in H
    as (_ & _ & _ & _ & _ & _ & noise & _ & _ & _ & _ & _ & _ & _ & _ & _ & ->).
  unfold tmap. simpl. apply Forall_fmap, Forall_true. intros r. simpl.
  apply Forall_fmap, Forall_true. intros v. apply to_int16_range.
Qed.

Lemma X19_witness :
  exists h, perlin_terrain (fun _ _ _ => 0) dividing_cfg = Ok h /\
            has_shape 16 16 h /\
            Forall (Forall (fun v => (-32768 <= v <= 32767)%Z)) (t_rows h).
Proof.
  destruct dividing_scalars as (Hw & Hl & _).
  destruct (perlin_terrain_dividing_cfg (fun _ _ _ => 0)) as (h & Hh & _).
  exists h. split; [exact Hh|].
  destruct (X19_perlin_terrain_shape_and_int16 _ _ _ Hh)
    as (wp & lp & Hw' & Hl' & _ & _ & Hshape & Hrange).
  rewrite Hw in Hw'. rewrite Hl in Hl'.
  injection Hw' as <-. injection Hl' as <-.
  split; [exact Hshape | exact Hrange].
Defined.



(** X21.  For a positive resolution and sample counts that are the
    resolution times a power of two (below 2^53) on both axes,
    [generate_perlin_noise_2d] returns an array of shape[0] rows and
    shape[1] columns whose entry (i, j) is the interpolated noise value
    of grid point (i, j).  The grid step res / shape is then a power of
    two, exact in binary64, so that [np.mgrid] yields exactly shape
    points per axis. *)
Theorem X21_perlin_noise_shape_when_grid_step_is_exact rand (shape res : Z * Z)
    (a b : nat) :
  (0 < res.1)%Z -> (0 < res.2)%Z ->
  shape.1 = (res.1 * 2 ^ Z.of_nat a)%Z -> shape.2 = (res.2 * 2 ^ Z.of_nat b)%Z ->
  (shape.1 < 2 ^ 53)%Z -> (shape.2 < 2 ^ 53)%Z ->
  exists t, generate_perlin_noise_2d rand shape res = Ok t /\
            has_shape (Z.to_nat shape.1) (Z.to_nat shape.2) t /\
            forall i j, (i < Z.to_nat shape.1)%nat -> (j < Z.to_nat shape.2)%nat ->
              exists row, t_rows t !! i = Some row /\
                          row !! j = Some (perlin_entry rand shape res i j).
Proof.
  intros H3 H4 E1 E2 _ _.
  assert (H1 : (0 < shape.1)%Z) by (rewrite E1; nia).
  assert (H2 : (0 < shape.2)%Z) by (rewrite E2; nia).
  assert (D1 : (res.1 | shape.1)%Z)
    by (exists (2 ^ Z.of_nat a)%Z; rewrite E1; lia).
  assert (D2 : (res.2 | shape.2)%Z)
    by (exists (2 ^ Z.of_nat b)%Z; rewrite E2; lia).
  destruct (generate_perlin_has_shape rand shape res H1 H2 H3 H4 D1 D2)
    as (t & Ht & Hshape).
  exists t. split; [done|]. split; [done|].
  intros i j Hi Hj.
  destruct (has_shape_lookup _ _ t i j Hshape Hi Hj) as (row & v & Hrow & Hv).
  exists row. split; [done|].
  by rewrite <- (generate_perlin_entry _ _ _ _ _ _ _ _ Ht Hrow Hv).
Qed.

Lemma X21_witness :
  exists t, generate_perlin_noise_2d (fun _ _ => 0) (16, 16)%Z (8, 8)%Z = Ok t /\
            has_shape 16 16 t /\
            forall i j, (i < 16)%nat -> (j < 16)%nat ->
              exists row, t_rows t !! i = Some row /\
                row !! j = Some (perlin_entry (fun _ _ => 0) (16, 16)%Z (8, 8)%Z i j).
Proof.
  apply (X21_perlin_noise_shape_when_grid_step_is_exact
           (fun _ _ => 0) (16, 16)%Z (8, 8)%Z 1 1); simpl; lia.
Defined.

(** X22.  For positive sample counts and a positive resolution,
    [generate_perlin_noise_2d] raises ValueError as soon as, on one
    axis, the resolution does not divide the sample count and the
    sample count is not 1: the coordinate grid and the repeated
    gradients then differ in size and cannot be multiplied. *)
Theorem X22_perlin_noise_rejects_non_dividing_resolution rand (shape res : Z * Z) :
  (0 < shape.1)%Z -> (0 < shape.2)%Z -> (0 < res.1)%Z -> (0 < res.2)%Z ->
  (~ (res.1 | shape.1)%Z /\ shape.1 <> 1%Z) \/
  (~ (res.2 | shape.2)%Z /\ shape.2 <> 1%Z) ->
  generate_perlin_noise_2d rand shape res = Raise ValueError.
Proof.
  intros H1 H2 H3 H4 Hbad.
  rewrite generate_perlin_guards by done.
  destruct Hbad as [[Hd Hne]|[Hd Hne]].
  - rewrite product_dim_none; [done| |done].
    intros E. apply Hd. exists (shape.1 / res.1)%Z. lia.
  - rewrite (product_dim_none shape.2); [by destruct (product_dim shape.1 _)| |done].
    intros E. apply Hd. exists (shape.2 / res.2)%Z. lia.
Qed.

Lemma X22_witness :
  generate_perlin_noise_2d (fun _ _ => 0) (17, 16)%Z (8, 8)%Z = Raise ValueError.
Proof.
  apply X22_perlin_noise_rejects_non_dividing_resolution; simpl; try lia.
  left. split; [|lia]. intros [k Hk]. lia.
Defined.

Lemma frac_part_INR (a : nat) : frac_part (INR a) = 0.
Proof.
  unfold frac_part. rewrite Int_part_INR, <- INR_IZR_INZ. ring.
Qed.

Lemma lattice_coordinate (shape res : Z) n a :
  (0 < shape)%Z -> (0 < res)%Z ->
  product_dim shape res = Some n ->
  frac_part (INR (a * Z.to_nat (shape / res)) * (IZR res / IZR shape)) = 0.
Proof.
  intros Hs Hr. unfold product_dim.
  destruct (res * (shape / res) =? shape)%Z eqn:E.
  - intros _. apply Z.eqb_eq in E.
    assert (Hq : (0 < shape / res)%Z) by nia.
    rewrite mult_INR, (INR_IZR_INZ (Z.to_nat _)), Z2Nat.id by lia.
    rewrite <- E at 2. rewrite mult_IZR.
    replace (INR a * IZR (shape / res) *
             (IZR res / (IZR res * IZR (shape / res)))) with (INR a).
    + apply frac_part_INR.
    + field. split; apply not_0_IZR; lia.
  - destruct (shape =? 1)%Z eqn:E1; [|done]. intros _.
    apply Z.eqb_eq in E1. subst shape. apply Z.eqb_neq in E.
    assert (res <> 1%Z) by (intros ->; by apply E).
    rewrite Z.div_small by lia. simpl. rewrite Nat.mul_0_r. simpl.
    rewrite Rmult_0_l. apply fp_R0.
Qed.

(** X23.  Whatever the random gradients, the array returned by
    [generate_perlin_noise_2d] is exactly 0.5 at every lattice point,
    that is at every entry whose row index is a multiple of
    shape[0] // res[0] and whose column index is a multiple of
    shape[1] // res[1]. *)
Theorem X23_perlin_noise_is_half_on_the_lattice rand (shape res : Z * Z)
    t a b row v :
  generate_perlin_noise_2d rand shape res = Ok t ->
  t_rows t !! (a * Z.to_nat (shape.1 / res.1))%nat = Some row ->
  row !! (b * Z.to_nat (shape.2 / res.2))%nat = Some v ->
  v = 0.5.
Proof.
  intros Hgen Hrow Hv.
  rewrite (generate_perlin_entry _ _ _ _ _ _ _ _ Hgen Hrow Hv).
  revert Hgen. unfold generate_perlin_noise_2d.
  destruct ((shape.1 =? 0) || (shape.2 =? 0))%Z eqn:E1; [done|].
  destruct ((res.1 =? 0) || (res.2 =? 0))%Z eqn:E2; [done|].
  destruct ((shape.1 <? 0) || (shape.2 <? 0) || (res.1 <? 0) || (res.2 <? 0))%Z
    eqn:E3; [done|].
  destruct (product_dim shape.1 res.1) as [n0|] eqn:P0; [|done].
  destruct (product_dim shape.2 res.2) as [n1|] eqn:P1; [|done].
  intros _.
  apply orb_false_iff in E1 as [E1a E1b].
  apply orb_false_iff in E2 as [E2a E2b].
  apply orb_false_iff in E3 as [E3 E3d].
  apply orb_false_iff in E3 as [E3 E3c].
  apply orb_false_iff in E3 as [E3a E3b].
  assert (Hgx := lattice_coordinate shape.1 res.1 n0 a ltac:(lia) ltac:(lia) P0).
  assert (Hgy := lattice_coordinate shape.2 res.2 n1 b ltac:(lia) ltac:(lia) P1).
  unfold perlin_entry. cbv zeta. cbn [fst snd].
  rewrite Hgx, Hgy. unfold dot2, fade. cbn [fst snd]. lra.
Qed.

Lemma X23_witness :
  exists t row v,
    generate_perlin_noise_2d (fun _ _ => 0.3) (16, 16)%Z (8, 8)%Z = Ok t /\
    t_rows t !! 6%nat = Some row /\ row !! 10%nat = Some v /\ v = 0.5.
Proof.
  destruct (generate_perlin_has_shape (fun _ _ => 0.3) (16, 16)%Z (8, 8)%Z)
    as (t & Ht & Hshape); simpl; try lia; try (by exists 2%Z).
  destruct (has_shape_lookup _ _ t 6 10 Hshape ltac:(simpl; lia) ltac:(simpl; lia))
    as (row & v & Hrow & Hv).
  exists t, row, v. split; [exact Ht|]. split; [exact Hrow|]. split; [exact Hv|].
  exact (X23_perlin_noise_is_half_on_the_lattice
           _ (16, 16)%Z (8, 8)%Z t 3 5 row v Ht Hrow Hv).
Defined.

Lemma rint_0 : rint 0 = 0%Z.
Proof.
  unfold rint.
  assert (H : Int_part 0 = 0%Z) by exact (Int_part_INR 0).
  rewrite H. destruct (Rlt_dec (0 - 0) (1 / 2)) as [_|Hn]; [done|].
  exfalso. apply Hn. lra.
Qed.

(** X24.  With no octaves to add ([fractal_octaves] zero or negative),
    when the scalars the function computes from the configuration exist
    (no division by zero, no conversion of an infinity) and the pixel
    counts are not negative, [perlin_terrain] returns the flat height
    field of int(size[0] / horizontal_scale) rows and
    int(size[1] / horizontal_scale) columns: every entry is 0. *)
Theorem X24_perlin_terrain_without_octaves_is_flat rand cfg
    (wp lp hs xSize ySize freq : Z) :
  (fractal_octaves cfg <= 0)%Z ->
  width_pixels cfg = Ok wp -> length_pixels cfg = Ok lp ->
  height_scale cfg = Ok hs ->
  py_int (float_of_Q (size cfg).1) = Ok xSize ->
  py_int (float_of_Q (size cfg).2) = Ok ySize ->
  py_int (float_of_Q (frequency cfg)) = Ok freq ->
  (0 <= wp)%Z -> (0 <= lp)%Z ->
  perlin_terrain rand cfg =
  Ok (mkT2 (Z.to_nat lp)
        (replicate (Z.to_nat wp) (replicate (Z.to_nat lp) 0%Z))).
Proof.
  intros Hoct Hw Hl Hh Hx Hy Hf Hwp Hlp. unfold perlin_terrain.
  rewrite Hw, Hl, Hh, Hx, Hy, Hf. cbn [r_bind].
  unfold generate_fractal_noise_2d.
  rewrite (proj2 (Z.ltb_ge _ 0) Hwp), (proj2 (Z.ltb_ge _ 0) Hlp).
  replace (Z.to_nat (fractal_octaves cfg)) with 0%nat by lia.
  cbn [orb fractal_loop r_bind]. unfold tmap. cbn [t_cols t_rows].
  do 2 f_equal. rewrite !fmap_replicate.
  rewrite rint_0. reflexivity.
Qed.

(** X25.  The interpolation weight f(t) = 6 t^5 - 15 t^4 + 10 t^3 of
    [generate_perlin_noise_2d] is 0 at 0 and 1 at 1, stays within
    [0, 1] on [0, 1], and satisfies f(1 - t) = 1 - f(t), so that the
    two weights of an interpolation are both nonnegative and sum to 1. *)
Theorem X25_fade_is_a_smooth_step (t : R) :
  fade 0 = 0 /\ fade 1 = 1 /\ fade (1 - t) = 1 - fade t /\
  (0 <= t <= 1 -> 0 <= fade t <= 1).
Proof.
  assert (Hpos : forall u, 0 <= u -> 0 <= fade u).
  { intros u Hu.
    replace (fade u) with (u * u * u * (6 * u * u - 15 * u + 10))
      by (unfold fade; ring).
    apply Rmult_le_pos.
    - apply Rmult_le_pos; [apply Rmult_le_pos|]; done.
    - replace (6 * u * u - 15 * u + 10)
        with (6 * ((u - 5 / 4) * (u - 5 / 4)) + 5 / 8) by field.
      pose proof (Rle_0_sqr (u - 5 / 4)) as Hsq. unfold Rsqr in Hsq. lra. }
  assert (Hsym : forall u, fade (1 - u) = 1 - fade u)
    by (intros u; unfold fade; ring).
  split; [unfold fade; ring|]. split; [unfold fade; ring|].
  split; [apply Hsym|].
  intros [H0 H1]. split; [by apply Hpos|].
  pose proof (Hpos (1 - t) ltac:(lra)) as H. rewrite Hsym in H. lra.
Qed.

Lemma X24_witness :
  perlin_terrain (fun _ _ _ => 0) flat_cfg
  = Ok (mkT2 16 (replicate 16 (replicate 16 0%Z))).
Proof.
  destruct flat_scalars as (Hw & Hl & Hh & Hx & Hy & Hf).
  exact (X24_perlin_terrain_without_octaves_is_flat (fun _ _ _ => 0) flat_cfg
           16 16 46 8 8 1 ltac:(simpl; lia) Hw Hl Hh Hx Hy Hf
           ltac:(lia) ltac:(lia)).
Defined.

Lemma X25_witness : 0 <= fade (1 / 2) <= 1.
Proof. apply (X25_fade_is_a_smooth_step (1 / 2)). lra. Defined.

(** ** rl_utils.py *)

Lemma forallb_ltb idx w :
  forallb (fun i => i <? w)%nat idx = true <-> Forall (fun i => (i < w)%nat) idx.
Proof.
  induction idx as [|i idx IH]; simpl.
  - split; [constructor|done].
  - rewrite andb_true_iff, IH, Nat.ltb_lt, Forall_cons. done.
Qed.

Lemma take_cols_wide {A} (idx : list nat) (vec : Tensor2 A) :
  Forall (fun i => (i < t_cols vec)%nat) idx ->
  take_cols idx vec
  = Ok (mkT2 (length idx) (map (fun r => omap (fun i => r !! i) idx) (t_rows vec))).
Proof.
  intros H. unfold take_cols. rewrite (proj2 (forallb_ltb _ _) H).
  by destruct (t_rows vec).
Qed.

Lemma take_cols_narrow {A} (idx : list nat) (vec : Tensor2 A) :
  t_rows vec <> [] ->
  Exists (fun i => (t_cols vec <= i)%nat) idx ->
  take_cols idx vec = Raise IndexError.
Proof.
  intros Hrows H. unfold take_cols.
  destruct (t_rows vec) as [|r rows]; [done|].
  destruct (forallb _ idx) eqn:E; [|done].
  apply forallb_ltb in E. apply Exists_exists in H as (i & Hi & Hle).
  rewrite Forall_forall in E. specialize (E i Hi). lia.
Qed.

Lemma take_cols_no_rows {A} (idx : list nat) (vec : Tensor2 A) :
  t_rows vec = [] -> take_cols idx vec = Ok (mkT2 (length idx) []).
Proof. intros H. unfold take_cols. by rewrite H. Qed.

Lemma swap_pairs_twice {A} (r : list A) :
  length r = 4%nat ->
  omap (fun i => omap (fun i => r !! i) [1; 0; 3; 2]%nat !! i) [1; 0; 3; 2]%nat = r.
Proof. do 5 (destruct r as [|? r]; try done). Qed.

Lemma swap_legs_twice {A} (r : list A) :
  length r = 12%nat ->
  omap (fun i => omap (fun i => r !! i)
                   [3; 4; 5; 0; 1; 2; 9; 10; 11; 6; 7; 8]%nat !! i)
       [3; 4; 5; 0; 1; 2; 9; 10; 11; 6; 7; 8]%nat = r.
Proof. do 13 (destruct r as [|? r]; try done). Qed.

Lemma omap_lookup_length {A} (idx : list nat) (r : list A) :
  Forall (fun i => (i < length r)%nat) idx ->
  length (omap (fun i => r !! i) idx) = length idx.
Proof.
  induction 1 as [|i idx Hi _ IH]; [done|].
  cbn [omap list_omap]. destruct (lookup_lt_is_Some_2 r i Hi) as [x ->].
  simpl. by f_equal.
Qed.

Lemma take_cols_twice {A} (idx : list nat) (vec : Tensor2 A) :
  has_shape (t_nrows vec) (length idx) vec ->
  Forall (fun i => (i < length idx)%nat) idx ->
  (forall r : list A, length r = length idx ->
     omap (fun i => omap (fun i => r !! i) idx !! i) idx = r) ->
  exists r, take_cols idx vec = Ok r /\
            has_shape (t_nrows vec) (length idx) r /\
            take_cols idx r = Ok vec.
Proof.
  intros (_ & Hc & Hwf) Hidx Htwice.
  rewrite take_cols_wide by (by rewrite Hc).
  eexists. split; [reflexivity|]. split; [|].
  - split; [|split].
    + unfold t_nrows. simpl. by rewrite length_map.
    + done.
    + unfold t_wf in *. simpl. apply Forall_fmap.
      eapply Forall_impl; [exact Hwf|]. intros r Hr. simpl.
      apply omap_lookup_length. by rewrite Hr, Hc.
  - rewrite take_cols_wide by done. cbn [t_rows].
    destruct vec as [c rows]. simpl in *. subst c. do 2 f_equal.
    rewrite <- list_fmap_compose.
    rewrite <- (list_fmap_id rows) at 2.
    apply Forall_fmap_ext. eapply Forall_impl; [exact Hwf|].
    intros r Hr. simpl. by apply Htwice.
Qed.

(** X26.  On a tensor of four columns [reindex_feet] swaps the columns
    of each pair (0 with 1, 2 with 3) and keeps the shape, so applying
    it twice gives the tensor back; on a tensor with at least one row
    and fewer than four columns it raises IndexError; on a tensor with
    no rows it returns the empty tensor of four columns, whatever the
    width. *)
Theorem X26_reindex_feet_is_an_involution {A} (vec : Tensor2 A) :
  (has_shape (t_nrows vec) 4 vec ->
   exists r, reindex_feet vec = Ok r /\ has_shape (t_nrows vec) 4 r /\
             reindex_feet r = Ok vec /\
             forall i a b c d, t_rows vec !! i = Some [a; b; c; d] ->
                               t_rows r !! i = Some [b; a; d; c]) /\
  ((t_cols vec < 4)%nat -> t_rows vec <> [] ->
     reindex_feet vec = Raise IndexError) /\
  (t_rows vec = [] -> reindex_feet vec = Ok (mkT2 4 [])).
Proof.
  split; [|split].
  - intros Hshape. unfold reindex_feet.
    destruct (take_cols_twice [1; 0; 3; 2]%nat vec Hshape) as (r & Hr & Hs & Hback).
    + repeat constructor; simpl; lia.
    + intros r. apply swap_pairs_twice.
    + exists r. split; [done|]. split; [done|]. split; [done|].
      intros i a b c d Hi. destruct Hshape as (_ & Hc & _).
      rewrite take_cols_wide in Hr by (rewrite Hc; repeat constructor; lia).
      injection Hr as <-. simpl. by rewrite list_lookup_fmap, Hi.
  - intros Hlt Hrows. apply take_cols_narrow; [done|].
    apply Exists_cons_tl, Exists_cons_tl, Exists_cons_hd. lia.
  - apply take_cols_no_rows.
Qed.

Lemma X26_witness :
  (exists r, reindex_feet (mkT2 4 [[1; 2; 3; 4]]) = Ok r /\
             reindex_feet r = Ok (mkT2 4 [[1; 2; 3; 4]]) /\
             t_rows r !! 0%nat = Some [2; 1; 4; 3]) /\
  reindex_feet (mkT2 3 [[1; 2; 3]]) = Raise IndexError /\
  reindex_feet (mkT2 3 ([] : list (list R))) = Ok (mkT2 4 []).
Proof.
  split; [|split].
  - destruct (proj1 (X26_reindex_feet_is_an_involution (mkT2 4 [[1; 2; 3; 4]])))
      as (r & Hr & _ & Hback & Hrows).
    + split; [done|]. split; [done|]. by repeat constructor.
    + exists r. split; [exact Hr|]. split; [exact Hback|].
      by apply (Hrows 0%nat 1 2 3 4).
  - apply (proj1 (proj2 (X26_reindex_feet_is_an_involution (mkT2 3 [[1; 2; 3]])))).
    + simpl. lia.
    + discriminate.
  - by apply (proj2 (proj2 (X26_reindex_feet_is_an_involution
                              (mkT2 3 ([] : list (list R)))))).
Defined.

(** X27.  On a tensor of twelve columns [reindex] swaps the first with
    the second block of three columns and the third with the fourth and
    keeps the shape, so applying it twice gives the tensor back; on a
    tensor with at least one row and fewer than twelve columns it raises
    IndexError; on a tensor with no rows it returns the empty tensor of
    twelve columns, whatever the width. *)
Theorem X27_reindex_is_an_involution {A} (vec : Tensor2 A) :
  (has_shape (t_nrows vec) 12 vec ->
   exists r, reindex vec = Ok r /\ has_shape (t_nrows vec) 12 r /\
             reindex r = Ok vec) /\
  ((t_cols vec < 12)%nat -> t_rows vec <> [] ->
     reindex vec = Raise IndexError) /\
  (t_rows vec = [] -> reindex vec = Ok (mkT2 12 [])).
Proof.
  split; [|split].
  - intros Hshape. unfold reindex.
    apply (take_cols_twice [3; 4; 5; 0; 1; 2; 9; 10; 11; 6; 7; 8]%nat vec Hshape).
    + repeat constructor; simpl; lia.
    + intros r. apply swap_legs_twice.
  - intros Hlt Hrows. apply take_cols_narrow; [done|].
    do 8 apply Exists_cons_tl. apply Exists_cons_hd. lia.
  - apply take_cols_no_rows.
Qed.

Lemma X27_witness :
  (exists r, reindex (mkT2 12 [[1; 2; 3; 4; 5; 6; 7; 8; 9; 10; 11; 12]]) = Ok r /\
             reindex r = Ok (mkT2 12 [[1; 2; 3; 4; 5; 6; 7; 8; 9; 10; 11; 12]])) /\
  reindex (mkT2 4 [[1; 2; 3; 4]]) = Raise IndexError /\
  reindex (mkT2 4 ([] : list (list R))) = Ok (mkT2 12 []).
Proof.
  split; [|split].
  - destruct (proj1 (X27_reindex_is_an_involution
                       (mkT2 12 [[1; 2; 3; 4; 5; 6; 7; 8; 9; 10; 11; 12]])))
      as (r & Hr & _ & Hback).
    + split; [done|]. split; [done|]. by repeat constructor.
    + by exists r.
  - apply (proj1 (proj2 (X27_reindex_is_an_involution (mkT2 4 [[1; 2; 3; 4]])))).
    + simpl. lia.
    + discriminate.
  - by apply (proj2 (proj2 (X27_reindex_is_an_involution
                              (mkT2 4 ([] : list (list R)))))).
Defined.

Section CameraFacts.
Context {Sim : Type}.
Variable transform_points : vec3 -> vec3 -> R * R * R * R -> vec3.
Local Abbreviation follow := (camera_follow transform_points).
Local Abbreviation follow_all := (camera_follow_all transform_points).
Local Abbreviation cam := (camera_pos (Sim:=Sim) transform_points).

Lemma camera_follow_call (env : LowEnv Sim) st c :
  cam env = Some c ->
  (length (default [] (smooth_camera_positions st)) <= window_size)%nat ->
  exists st',
    follow env st = (st', Ok tt) /\
    smooth_camera_positions st'
    = Some (drop (length (default [] (smooth_camera_positions st) ++ [c])
                  - window_size)
                 (default [] (smooth_camera_positions st) ++ [c])) /\
    length (view_updates st') = S (length (view_updates st)).
Proof.
  intros Hc Hlen. unfold camera_pos in Hc. unfold camera_follow.
  unfold st_bind, st_get, st_put. cbn [fst snd].
  destruct (root_pos_w env !! 0%nat) as [p|]; [|done].
  destruct (root_quat_w env !! 0%nat) as [q|]; [|done].
  injection Hc as <-. cbn [smooth_camera_positions view_updates default].
  eexists. split; [reflexivity|]. cbn [smooth_camera_positions view_updates].
  set (old := default [] (smooth_camera_positions st)) in *.
  split.
  - f_equal. case_decide as Hd; rewrite length_app in Hd |- *; simpl in Hd |- *.
    + replace (length old + 1 - window_size)%nat with 1%nat by lia. done.
    + replace (length old + 1 - window_size)%nat with 0%nat by lia. done.
  - rewrite length_app. simpl. lia.
Qed.

Lemma camera_follow_all_window : forall (envs : list (LowEnv Sim)) st cams,
  mapM cam envs = Some cams ->
  (length (default [] (smooth_camera_positions st)) <= window_size)%nat ->
  exists st',
    follow_all envs st = (st', Ok tt) /\
    default [] (smooth_camera_positions st')
    = drop (length (default [] (smooth_camera_positions st) ++ cams)
            - window_size)
           (default [] (smooth_camera_positions st) ++ cams) /\
    length (view_updates st') = (length (view_updates st) + length envs)%nat.
Proof.
  induction envs as [|env envs IH]; intros st cams Hcams Hlen.
  - injection Hcams as <-. exists st. split; [done|]. split; [|simpl; lia].
    rewrite app_nil_r.
    replace (_ - window_size)%nat with 0%nat by lia. done.
  - rewrite mapM_Some in Hcams. apply Forall2_cons_inv_l in Hcams
      as (c & cams' & Hc & Hrest & ->).
    apply mapM_Some in Hrest.
    destruct (camera_follow_call env st c Hc Hlen) as (st1 & Hcall & Hwin & Hup).
    set (old := default [] (smooth_camera_positions st)) in *.
    assert (Hlen1 : (length (default [] (smooth_camera_positions st1))
                     <= window_size)%nat).
    { rewrite Hwin. simpl. rewrite length_drop, length_app. simpl. lia. }
    destruct (IH st1 cams' Hrest Hlen1) as (st' & Hall & Hwin' & Hup').
    exists st'. cbn [camera_follow_all]. unfold st_bind at 1.
    rewrite Hcall. split; [exact Hall|]. split.
    + rewrite Hwin'. rewrite Hwin. simpl.
      rewrite <- drop_app_le by (rewrite length_app; simpl; lia).
      rewrite drop_drop. rewrite <- (assoc_L (++)). simpl.
      f_equal. rewrite !length_app, length_drop, !length_app. simpl.
      unfold window_size in *. lia.
    + rewrite Hup', Hup. simpl. lia.
Qed.

(** X28.  Called once per step from the first call on (the attribute
    [smooth_camera_positions] still missing), on environments that all
    have a robot 0, [camera_follow] never raises, hands one view update
    per call to the camera controller, and keeps as its window exactly
    the camera positions of the last 50 calls (all of them while there
    were fewer than 50), oldest first. *)
Theorem X28_camera_follow_keeps_last_fifty (envs : list (LowEnv Sim)) cams :
  mapM cam envs = Some cams ->
  exists st',
    follow_all envs (mkCameraState None []) = (st', Ok tt) /\
    default [] (smooth_camera_positions st') = drop (length cams - 50) cams /\
    (length (default [] (smooth_camera_positions st')) <= 50)%nat /\
    length (view_updates st') = length envs.
Proof.
  intros Hcams.
  destruct (camera_follow_all_window envs (mkCameraState None []) cams Hcams)
    as (st' & Hall & Hwin & Hup); [simpl; lia|].
  exists st'. split; [done|]. simpl in Hwin, Hup.
  split; [done|]. split; [|done].
  rewrite Hwin, length_drop. unfold window_size. lia.
Qed.

End CameraFacts.

Lemma X28_witness :
  exists st',
    camera_follow_all (fun off p _ => vec3_add off p) [demo_env; demo_env]
      (mkCameraState None []) = (st', Ok tt) /\
    length (default [] (smooth_camera_positions st')) = 2%nat /\
    length (view_updates st') = 2%nat.
Proof.
  destruct (X28_camera_follow_keeps_last_fifty
              (fun off p _ => vec3_add off p) [demo_env; demo_env]
              [vec3_add (-3.0, 0.0, 0.5) (0, 0, 0);
               vec3_add (-3.0, 0.0, 0.5) (0, 0, 0)] eq_refl)
    as (st' & Hall & Hwin & _ & Hup).
  exists st'. split; [exact Hall|]. split; [|exact Hup].
  rewrite Hwin. reflexivity.
Defined.

Lemma substring_skip_prefix (f g : string) n m :
  String.substring (String.length f + n) m (f +:+ g) = String.substring n m g.
Proof. induction f as [|c f IH]; [done|]. simpl. exact IH. Qed.

Lemma length_append (f g : string) :
  String.length (f +:+ g) = (String.length f + String.length g)%nat.
Proof. induction f as [|c f IH]; [done|]. simpl. by f_equal. Qed.

Lemma endswith_dot_pkl (f : string) : endswith (f +:+ ".pkl") "pkl" = true.
Proof.
  unfold endswith. rewrite length_append. cbn [String.length].
  replace (String.length f + 4 - 3)%nat with (String.length f + 1)%nat by lia.
  rewrite substring_skip_prefix.
  replace (3 <=? String.length f + 4)%nat with true
    by (symmetry; apply Nat.leb_le; lia).
  reflexivity.
Qed.

(** X29.  The file name [dump_pickle] writes to always ends with
    pkl, and normalising a name twice changes nothing more: a name
    that already ends with pkl (with or without a dot before it) is
    kept, any other name gets .pkl appended. *)
Theorem X29_pickle_file_name_ends_with_pkl (filename : string) :
  endswith (pkl_filename filename) "pkl" = true /\
  pkl_filename (pkl_filename filename) = pkl_filename filename /\
  (pkl_filename filename = filename \/
   pkl_filename filename = (filename +:+ ".pkl")%string /\
   endswith filename "pkl" = false).
Proof.
  assert (H : endswith (pkl_filename filename) "pkl" = true).
  { unfold pkl_filename. destruct (endswith filename "pkl") eqn:E; [done|].
    apply endswith_dot_pkl. }
  split; [done|]. split.
  - unfold pkl_filename at 1. by rewrite H.
  - unfold pkl_filename. destruct (endswith filename "pkl"); [by left|by right].
Qed.

Section PickleFacts.
Context {FS Data : Type}.
Variable os_path_exists : FS -> string -> bool.
Variable os_path_dirname : string -> string.
Variable os_makedirs : FS -> string -> FS * io_result unit.
Variable pickle_load : FS -> string -> io_result Data.
Variable pickle_dump : FS -> string -> Data -> FS * io_result unit.

(** What the file system promises: a file written without an error
    exists afterwards and reads back as the data written. *)
Hypothesis written_file_reads_back : forall fs name data fs',
  pickle_dump fs name data = (fs', IoOk tt) ->
  os_path_exists fs' name = true /\ pickle_load fs' name = IoOk data.

(** X30.  After a [dump_pickle] that returned, [load_pickle] of the
    normalised name (the given name, with .pkl appended unless it ends
    with pkl) returns the data that was written, provided the file
    system reads back what it wrote. *)
Theorem X30_dump_then_load_round_trip (fs fs' : FS) filename (data : Data) :
  dump_pickle os_path_exists os_path_dirname os_makedirs pickle_dump
    fs filename data = (fs', IoOk tt) ->
  load_pickle os_path_exists pickle_load fs' (pkl_filename filename)
  = IoOk data.
Proof.
  unfold dump_pickle, load_pickle.
  destruct (negb (os_path_exists fs (os_path_dirname (pkl_filename filename)))).
  - destruct (os_makedirs fs _) as [fs1 [[]|e]]; [|done].
    intros H. apply written_file_reads_back in H as [-> ->]. done.
  - intros H. apply written_file_reads_back in H as [-> ->]. done.
Qed.

End PickleFacts.

Lemma X30_witness :
  let exists_ := fun (fs : list (string * nat)) name =>
    existsb (fun p => String.eqb p.1 name) fs in
  let dirname := fun _ : string => "out"%string in
  let makedirs := fun (fs : list (string * nat)) d => ((d, 0%nat) :: fs, IoOk tt) in
  let load := fun (fs : list (string * nat)) name =>
    match find (fun p => String.eqb p.1 name) fs with
    | Some p => IoOk p.2
    | None => IoRaise OSError
    end in
  let dump := fun (fs : list (string * nat)) name d => ((name, d) :: fs, IoOk tt) in
  load_pickle exists_ load
    (dump_pickle exists_ dirname makedirs dump [] "out/run" 7%nat).1
    "out/run.pkl" = IoOk 7%nat.
Proof.
  intros exists_ dirname makedirs load dump.
  assert (Hlaw : forall fs name data fs',
             dump fs name data = (fs', IoOk tt) ->
             exists_ fs' name = true /\ load fs' name = IoOk data).
  { intros fs name data fs' [= <-]. unfold exists_, load. simpl.
    by rewrite String.eqb_refl. }
  exact (X30_dump_then_load_round_trip exists_ dirname makedirs load dump
           Hlaw [] _ "out/run" 7%nat eq_refl).
Defined.

(** * The further properties at concrete calls *)

Lemma X2_witness :
  step demo_compute demo_policy demo_env_step demo_action stalled_state
  = (set_prev (Some (goal_distances stalled_state)) stalled_state,
     Raise AttributeError).
Proof.
  apply (X2_step_without_iterations_raises
           demo_compute demo_policy demo_env_step demo_action stalled_state).
  simpl. lia.
Defined.

Lemma X3_witness :
  step demo_compute demo_policy demo_env_step two_row_action demo_state
  = (demo_state, Raise RuntimeError).
Proof.
  apply (X3_step_rejects_misshaped_action
           demo_compute demo_policy demo_env_step two_row_action demo_state).
  - simpl. lia.
  - demo_shapes.
  - left. unfold t_nrows. simpl. lia.
Defined.

Lemma X4_witness :
  exists s' out,
    step demo_compute demo_policy demo_env_step demo_action demo_state
    = (s', Ok out) /\
    info_out out !! "hierarchical/distance_to_goal"
    = Some (VFloat (mean (goal_distances s'))).
Proof.
  destruct (step_total demo_compute demo_policy demo_env_step
              ltac:(demo_sim_wf) demo_action demo_state ltac:(demo_shapes))
    as (s' & out & Hstep).
  exists s', out. split; [exact Hstep|].
  exact (proj1 (proj2 (proj2 (proj2
           (X4_step_info_keeps_low_level_extras
              demo_compute demo_policy demo_env_step
              demo_action demo_state s' out Hstep))))).
Defined.

Lemma X5_witness :
  valid_call demo_state demo_action /\
  exists s' out,
    step demo_compute demo_policy demo_env_step
      (clamp_action 1 demo_action) demo_state = (s', Ok out) /\
    vec_step demo_compute demo_policy demo_env_step (Some 1) demo_action
      demo_state
    = (s', Ok (high_level_obs out, high_level_reward out,
               map bool_to_Z (high_level_terminated out), info_out out)).
Proof.
  split; [demo_shapes|].
  destruct (X5_vec_step_returns_terminated_as_dones
              demo_compute demo_policy demo_env_step
              ltac:(demo_sim_wf) (Some 1) demo_action demo_state
              ltac:(demo_shapes)
              ltac:(intros c [= <-]; lra))
    as (s' & out & Hstep & Hvec & _).
  exists s', out. split; [exact Hstep | exact Hvec].
Defined.

Lemma X6_witness :
  valid_call demo_state demo_action /\
  exists s' out,
    step demo_compute demo_policy demo_env_step demo_action demo_state
    = (s', Ok out) /\
    length (goal_distances s') = 1%nat.
Proof.
  split; [demo_shapes|].
  destruct (X6_reward_kernel_in_unit_interval
              demo_compute demo_policy demo_env_step
              ltac:(demo_sim_wf) demo_action demo_state ltac:(demo_shapes))
    as (s' & out & Hstep & Hlen & _).
  exists s', out. split; [exact Hstep | exact Hlen].
Defined.

Lemma X7_witness :
  exists e' obs,
    frozen_call demo_compute demo_policy forward_cmd demo_env
    = (e', Ok (demo_policy obs)) /\
    base_velocity e' = base_velocity demo_env.
Proof.
  destruct (X7_frozen_call_is_transparent_for_three_wide_command
              demo_compute demo_policy forward_cmd demo_env
              ltac:(demo_shapes) ltac:(demo_shapes))
    as (e' & obs & Hcall & _ & Hcmd & _).
  exists e', obs. split; [exact Hcall | exact Hcmd].
Defined.

Lemma X8_witness :
  (frozen_call demo_compute demo_policy forward_cmd wide_cmd_env).2
  = Raise RuntimeError.
Proof.
  apply (X8_frozen_call_raises_unless_three_wide
           demo_compute demo_policy forward_cmd wide_cmd_env).
  - simpl. lia.
  - demo_shapes.
Defined.

Lemma X9_witness :
  training (mkModule false [mkParam [1; 2] false; mkParam [3] false]) = false.
Proof.
  exact (proj1 (proj2 (X9_freeze_policy_missing_module_and_idempotence demo_runner)
                  (mkModule false [mkParam [1; 2] false; mkParam [3] false])
                  eq_refl)).
Defined.

Lemma X10_witness :
  exists s' obs info,
    reset (Act:=Tensor2 R) demo_env_reset [2] [0] demo_state
    = (s', Ok (obs, info)) /\
    _prev_distance_to_goal s' = None /\
    forall i d, goal_distances s' !! i = Some d -> 1 <= d <= 5.
Proof.
  destruct (X10_reset_resamples_every_goal_within_range
              demo_env_reset [2] [0] demo_state
              eq_refl eq_refl eq_refl eq_refl
              ltac:(demo_draw) ltac:(demo_draw))
    as (s' & obs & info & Hreset & _ & Hprev & _ & _ & _ & Hrange & _).
  exists s', obs, info. split; [exact Hreset|]. split; [exact Hprev | exact Hrange].
Defined.

Lemma X11_witness :
  exists row dx dy,
    direction_to_goal two_robot_view !! 0%nat = Some row /\
    length row = 4%nat /\
    row !! 0%nat = Some dx /\ row !! 2%nat = Some dy /\
    dx * dx + dy * dy = 1.
Proof.
  assert (Hfar : 1e-6 <= norm2 (vsub (1, 0) (0, 0))).
  { unfold norm2, vsub. simpl.
    replace ((1 - 0) * (1 - 0) + (0 - 0) * (0 - 0)) with 1 by ring.
    rewrite sqrt_1. lra. }
  destruct (X11_direction_to_goal_own_direction_columns
              two_robot_view 0 (0, 0) (1, 0) (1, 0, 0, 0)
              eq_refl eq_refl eq_refl Hfar)
    as (row & dx & dy & Hrow & Hlen & Hdx & Hdy & Hunit & _).
  exists row, dx, dy. split; [exact Hrow|]. split; [exact Hlen|].
  split; [exact Hdx|]. split; [exact Hdy | exact Hunit].
Defined.

Lemma X14_witness :
  exists row p q g dx dy,
    _get_high_level_observations demo_state !! 0%nat = Some row /\
    row = [p.1; p.2; quat_yaw q; g.1; g.2; norm2 (vsub g p); dx; dy] /\
    - PI < quat_yaw q <= PI.
Proof.
  destruct (_get_high_level_observations demo_state !! 0%nat) as [row|] eqn:Hrow.
  - destruct (X14_high_level_observation_row demo_state 0 row Hrow)
      as (p & q & g & dx & dy & _ & _ & _ & Heq & Hyaw & _).
    exists row, p, q, g, dx, dy. split; [reflexivity|]. split; [exact Heq | exact Hyaw].
  - exfalso. revert Hrow. vm_compute. discriminate.
Defined.

Lemma X16_witness :
  length (progress_over [two_robot_view; two_robot_view] None) = 2%nat.
Proof.
  exact (proj1 (proj2
           (X16_goal_reaching_progress_telescopes 0 two_robot_view [two_robot_view]
              (norm2 (vsub (1, 0) (0, 0))) eq_refl
              ltac:(repeat constructor; eexists; reflexivity)))).
Defined.
